(** * Event-sourced trading core: positions, bar aggregation, L1 book, stop-limit orders

    A shallow embedding of
      - [nautilus_trader/model/position.pyx]        ([Position], and the bar
        builder and aggregators that follow it in the same file),
      - [nautilus_trader/model/orderbook/simulated.pyx] ([SimulatedL1OrderBook]),
      - [nautilus_trader/model/orders/stop_limit.pyx]   ([StopLimitOrder]),
    together with the properties of the natural-language specification that
    concern them.

    Conventions.
      - Python [Decimal] values are rationals ([Q]); Python's [==] on them is
        numeric, so it is rendered by [Qeq] ([==]).  Arithmetic is exact: the
        rounding of the decimal context (28 significant digits) is not
        modelled.
      - A method that mutates [self] is a function from the object to an
        [outcome]: the object after the call, together with the exception
        when one was raised.  State mutated before a [raise] stays mutated.
      - [int64_t] time stamps are integers ([Z]); only comparisons, copies and
        one subtraction are performed on them. *)

From Stdlib Require Import ZArith QArith Qabs Qround Lqa Lia.
From stdpp Require Import base option list strings gmap.

Local Open Scope Q_scope.

(** ** Exceptions and outcomes *)

Inductive exn : Type :=
| KeyError          (* Condition.not_in *)
| ValueError        (* Condition.equal, negative Quantity *)
| TypeError         (* None where an object is required *)
| AttributeError    (* an attribute of None *)
| ArithmeticError   (* decimal division by zero *)
| AssertionError    (* a failed assert *)
| NotImplementedError
| IntegrityError.   (* the spec's kind of error for a currency mismatch in arithmetic *)

Inductive outcome (S : Type) : Type :=
| Returned (self : S)
| Raised (e : exn) (self : S).
Arguments Returned {S} self.
Arguments Raised {S} e self.

Definition state_of {S : Type} (o : outcome S) : S :=
  match o with Returned s => s | Raised _ s => s end.

Definition raised {S : Type} (o : outcome S) : option exn :=
  match o with Returned _ => None | Raised e _ => Some e end.

(** [try x := e within self in k]: evaluate the fallible expression [e];
    an exception propagates out of the method, leaving [self] as it is. *)
Notation "'try' x ':=' e 'within' s 'in' k" :=
  (match e with inl err => Raised err s | inr x => k end)
  (at level 10, x name, e at level 100, s at level 100, k at level 200,
   format "'[v' 'try'  x  ':='  e  'within'  s  'in' '/' k ']'").

Notation "x |> f" := (f x) (at level 45, left associativity, only parsing).

(** ** Decimal comparisons, as booleans *)

Definition dec_lt (x y : Q) : bool := negb (Qle_bool y x).
Definition dec_le (x y : Q) : bool := Qle_bool x y.
Definition dec_eq (x y : Q) : bool := Qeq_bool x y.

(** [x / y] on [Decimal]: division by zero raises. *)
Definition dec_div (x y : Q) : exn + Q :=
  if dec_eq y 0 then inl ArithmeticError else inr (x / y).

(** ** Value objects ([nautilus_trader.model.objects], not part of the sources) *)

(** Modelled from the spec: [Price], [Quantity] and [Money] live in
    [nautilus_trader/model/objects.pyx], which is missing.  The spec gives
    [Price] and [Quantity] as a fixed-point value with a precision, a negative
    [Quantity] as a validation failure, and [Money] as an amount with a
    currency.  A value is kept as the decimal it denotes; rounding to the
    precision at construction is not modelled: the values the modelled code
    gives to [Quantity(..., precision)] are sums and differences of
    quantities and whole numbers, which are at the precision already when the
    quantities of an instrument share it.  The operators [+], [-], [*]
    between one of these objects and a [Decimal] are used by [position.pyx]
    for the decimal result (annotated [Decimal] there and wrapped again with
    [Money(..., currency)] or [Quantity(..., precision)]), so they are the
    operations of [Q] on [as_decimal]; the sum of two [Money] objects is
    [Money_add] below. *)
Module Price.
Record t : Type := new { as_decimal : Q; precision : nat }.
End Price.

Module Quantity.
Record t : Type := make { as_decimal : Q; precision : nat }.

(** [Quantity(value, precision)] *)
Definition new (value : Q) (precision : nat) : exn + t :=
  if dec_lt value 0 then inl ValueError else inr (make value precision).

Definition zero_c (precision : nat) : t := make 0 precision.
End Quantity.

(** A currency is identified by its code. *)
Module Money.
Record t : Type := new { as_decimal : Q; currency : string }.
End Money.


(** Modelled from the spec: [Instrument] ([nautilus_trader/model/instruments],
    missing): [cost_currency = base_currency if inverse else quote_currency],
    the base currency being optional. *)
Module Instrument.
Record t : Type := new {
  id : string;
  price_precision : nat;
  size_precision : nat;
  multiplier : Q;
  is_inverse : bool;
  quote_currency : string;
  base_currency : option string
}.

Definition get_base_currency (i : t) : option string := base_currency i.

Definition get_cost_currency (i : t) : option string :=
  if is_inverse i then base_currency i else Some (quote_currency i).
End Instrument.

Inductive OrderSide : Type := BUY | SELL.
Inductive PositionSide : Type := FLAT | LONG | SHORT.

#[global] Instance OrderSide_eq_dec : EqDecision OrderSide.
Proof. solve_decision. Defined.
#[global] Instance PositionSide_eq_dec : EqDecision PositionSide.
Proof. solve_decision. Defined.

Abbreviation ExecutionId := string (only parsing).

(** [OrderFilled] ([nautilus_trader/model/events/order.pyx], missing): the
    attributes read by [Position]. *)
Module OrderFilled.
Record t : Type := new {
  trader_id : string;
  strategy_id : string;
  account_id : string;
  instrument_id : string;
  client_order_id : string;
  venue_order_id : string;
  execution_id : ExecutionId;
  position_id : option string;
  order_side : OrderSide;
  last_qty : Quantity.t;
  last_px : Price.t;
  commission : Money.t;
  ts_event : Z;
  ts_init : Z
}.
End OrderFilled.
Abbreviation OrderFilled := OrderFilled.t.

(** * Position ([position.pyx], class [Position]) *)
Module position.

Record Position := mkPosition {
  _events : list OrderFilled;
  _execution_ids : list ExecutionId;
  _buy_qty : Q;
  _sell_qty : Q;
  _commissions : gmap string Money.t;
  trader_id : string;
  strategy_id : string;
  instrument_id : string;
  id : string;
  account_id : string;
  from_order : string;
  entry : OrderSide;
  side : PositionSide;
  net_qty : Q;
  quantity : Quantity.t;
  peak_qty : Quantity.t;
  ts_init : Z;
  ts_opened : Z;
  ts_last : Z;
  ts_closed : Z;
  duration_ns : Z;
  avg_px_open : Q;
  avg_px_close : option Q;
  price_precision : nat;
  size_precision : nat;
  multiplier : Q;
  is_inverse : bool;
  quote_currency : string;
  base_currency : option string;
  cost_currency : string;
  realized_points : Q;
  realized_return : Q;
  realized_pnl : Money.t
}.

Definition set__events (v : list OrderFilled) (self : Position) : Position :=
  {| _events := v; _execution_ids := _execution_ids self; _buy_qty := _buy_qty self; _sell_qty
     := _sell_qty self; _commissions := _commissions self; trader_id := trader_id self;
     strategy_id := strategy_id self; instrument_id := instrument_id self; id := id self;
     account_id := account_id self; from_order := from_order self; entry := entry self; side :=
     side self; net_qty := net_qty self; quantity := quantity self; peak_qty := peak_qty self;
     ts_init := ts_init self; ts_opened := ts_opened self; ts_last := ts_last self; ts_closed :=
     ts_closed self; duration_ns := duration_ns self; avg_px_open := avg_px_open self;
     avg_px_close := avg_px_close self; price_precision := price_precision self; size_precision
     := size_precision self; multiplier := multiplier self; is_inverse := is_inverse self;
     quote_currency := quote_currency self; base_currency := base_currency self; cost_currency
     := cost_currency self; realized_points := realized_points self; realized_return :=
     realized_return self; realized_pnl := realized_pnl self |}.

Definition set__execution_ids (v : list ExecutionId) (self : Position) : Position :=
  {| _events := _events self; _execution_ids := v; _buy_qty := _buy_qty self; _sell_qty :=
     _sell_qty self; _commissions := _commissions self; trader_id := trader_id self; strategy_id
     := strategy_id self; instrument_id := instrument_id self; id := id self; account_id :=
     account_id self; from_order := from_order self; entry := entry self; side := side self;
     net_qty := net_qty self; quantity := quantity self; peak_qty := peak_qty self; ts_init :=
     ts_init self; ts_opened := ts_opened self; ts_last := ts_last self; ts_closed := ts_closed
     self; duration_ns := duration_ns self; avg_px_open := avg_px_open self; avg_px_close :=
     avg_px_close self; price_precision := price_precision self; size_precision :=
     size_precision self; multiplier := multiplier self; is_inverse := is_inverse self;
     quote_currency := quote_currency self; base_currency := base_currency self; cost_currency
     := cost_currency self; realized_points := realized_points self; realized_return :=
     realized_return self; realized_pnl := realized_pnl self |}.

Definition set__buy_qty (v : Q) (self : Position) : Position :=
  {| _events := _events self; _execution_ids := _execution_ids self; _buy_qty := v; _sell_qty :=
     _sell_qty self; _commissions := _commissions self; trader_id := trader_id self; strategy_id
     := strategy_id self; instrument_id := instrument_id self; id := id self; account_id :=
     account_id self; from_order := from_order self; entry := entry self; side := side self;
     net_qty := net_qty self; quantity := quantity self; peak_qty := peak_qty self; ts_init :=
     ts_init self; ts_opened := ts_opened self; ts_last := ts_last self; ts_closed := ts_closed
     self; duration_ns := duration_ns self; avg_px_open := avg_px_open self; avg_px_close :=
     avg_px_close self; price_precision := price_precision self; size_precision :=
     size_precision self; multiplier := multiplier self; is_inverse := is_inverse self;
     quote_currency := quote_currency self; base_currency := base_currency self; cost_currency
     := cost_currency self; realized_points := realized_points self; realized_return :=
     realized_return self; realized_pnl := realized_pnl self |}.

Definition set__sell_qty (v : Q) (self : Position) : Position :=
  {| _events := _events self; _execution_ids := _execution_ids self; _buy_qty := _buy_qty self;
     _sell_qty := v; _commissions := _commissions self; trader_id := trader_id self; strategy_id
     := strategy_id self; instrument_id := instrument_id self; id := id self; account_id :=
     account_id self; from_order := from_order self; entry := entry self; side := side self;
     net_qty := net_qty self; quantity := quantity self; peak_qty := peak_qty self; ts_init :=
     ts_init self; ts_opened := ts_opened self; ts_last := ts_last self; ts_closed := ts_closed
     self; duration_ns := duration_ns self; avg_px_open := avg_px_open self; avg_px_close :=
     avg_px_close self; price_precision := price_precision self; size_precision :=
     size_precision self; multiplier := multiplier self; is_inverse := is_inverse self;
     quote_currency := quote_currency self; base_currency := base_currency self; cost_currency
     := cost_currency self; realized_points := realized_points self; realized_return :=
     realized_return self; realized_pnl := realized_pnl self |}.

Definition set__commissions (v : gmap string Money.t) (self : Position) : Position :=
  {| _events := _events self; _execution_ids := _execution_ids self; _buy_qty := _buy_qty self;
     _sell_qty := _sell_qty self; _commissions := v; trader_id := trader_id self; strategy_id :=
     strategy_id self; instrument_id := instrument_id self; id := id self; account_id :=
     account_id self; from_order := from_order self; entry := entry self; side := side self;
     net_qty := net_qty self; quantity := quantity self; peak_qty := peak_qty self; ts_init :=
     ts_init self; ts_opened := ts_opened self; ts_last := ts_last self; ts_closed := ts_closed
     self; duration_ns := duration_ns self; avg_px_open := avg_px_open self; avg_px_close :=
     avg_px_close self; price_precision := price_precision self; size_precision :=
     size_precision self; multiplier := multiplier self; is_inverse := is_inverse self;
     quote_currency := quote_currency self; base_currency := base_currency self; cost_currency
     := cost_currency self; realized_points := realized_points self; realized_return :=
     realized_return self; realized_pnl := realized_pnl self |}.

Definition set_entry (v : OrderSide) (self : Position) : Position :=
  {| _events := _events self; _execution_ids := _execution_ids self; _buy_qty := _buy_qty self;
     _sell_qty := _sell_qty self; _commissions := _commissions self; trader_id := trader_id
     self; strategy_id := strategy_id self; instrument_id := instrument_id self; id := id self;
     account_id := account_id self; from_order := from_order self; entry := v; side := side
     self; net_qty := net_qty self; quantity := quantity self; peak_qty := peak_qty self;
     ts_init := ts_init self; ts_opened := ts_opened self; ts_last := ts_last self; ts_closed :=
     ts_closed self; duration_ns := duration_ns self; avg_px_open := avg_px_open self;
     avg_px_close := avg_px_close self; price_precision := price_precision self; size_precision
     := size_precision self; multiplier := multiplier self; is_inverse := is_inverse self;
     quote_currency := quote_currency self; base_currency := base_currency self; cost_currency
     := cost_currency self; realized_points := realized_points self; realized_return :=
     realized_return self; realized_pnl := realized_pnl self |}.

Definition set_side (v : PositionSide) (self : Position) : Position :=
  {| _events := _events self; _execution_ids := _execution_ids self; _buy_qty := _buy_qty self;
     _sell_qty := _sell_qty self; _commissions := _commissions self; trader_id := trader_id
     self; strategy_id := strategy_id self; instrument_id := instrument_id self; id := id self;
     account_id := account_id self; from_order := from_order self; entry := entry self; side :=
     v; net_qty := net_qty self; quantity := quantity self; peak_qty := peak_qty self; ts_init
     := ts_init self; ts_opened := ts_opened self; ts_last := ts_last self; ts_closed :=
     ts_closed self; duration_ns := duration_ns self; avg_px_open := avg_px_open self;
     avg_px_close := avg_px_close self; price_precision := price_precision self; size_precision
     := size_precision self; multiplier := multiplier self; is_inverse := is_inverse self;
     quote_currency := quote_currency self; base_currency := base_currency self; cost_currency
     := cost_currency self; realized_points := realized_points self; realized_return :=
     realized_return self; realized_pnl := realized_pnl self |}.

Definition set_net_qty (v : Q) (self : Position) : Position :=
  {| _events := _events self; _execution_ids := _execution_ids self; _buy_qty := _buy_qty self;
     _sell_qty := _sell_qty self; _commissions := _commissions self; trader_id := trader_id
     self; strategy_id := strategy_id self; instrument_id := instrument_id self; id := id self;
     account_id := account_id self; from_order := from_order self; entry := entry self; side :=
     side self; net_qty := v; quantity := quantity self; peak_qty := peak_qty self; ts_init :=
     ts_init self; ts_opened := ts_opened self; ts_last := ts_last self; ts_closed := ts_closed
     self; duration_ns := duration_ns self; avg_px_open := avg_px_open self; avg_px_close :=
     avg_px_close self; price_precision := price_precision self; size_precision :=
     size_precision self; multiplier := multiplier self; is_inverse := is_inverse self;
     quote_currency := quote_currency self; base_currency := base_currency self; cost_currency
     := cost_currency self; realized_points := realized_points self; realized_return :=
     realized_return self; realized_pnl := realized_pnl self |}.

Definition set_quantity (v : Quantity.t) (self : Position) : Position :=
  {| _events := _events self; _execution_ids := _execution_ids self; _buy_qty := _buy_qty self;
     _sell_qty := _sell_qty self; _commissions := _commissions self; trader_id := trader_id
     self; strategy_id := strategy_id self; instrument_id := instrument_id self; id := id self;
     account_id := account_id self; from_order := from_order self; entry := entry self; side :=
     side self; net_qty := net_qty self; quantity := v; peak_qty := peak_qty self; ts_init :=
     ts_init self; ts_opened := ts_opened self; ts_last := ts_last self; ts_closed := ts_closed
     self; duration_ns := duration_ns self; avg_px_open := avg_px_open self; avg_px_close :=
     avg_px_close self; price_precision := price_precision self; size_precision :=
     size_precision self; multiplier := multiplier self; is_inverse := is_inverse self;
     quote_currency := quote_currency self; base_currency := base_currency self; cost_currency
     := cost_currency self; realized_points := realized_points self; realized_return :=
     realized_return self; realized_pnl := realized_pnl self |}.

Definition set_peak_qty (v : Quantity.t) (self : Position) : Position :=
  {| _events := _events self; _execution_ids := _execution_ids self; _buy_qty := _buy_qty self;
     _sell_qty := _sell_qty self; _commissions := _commissions self; trader_id := trader_id
     self; strategy_id := strategy_id self; instrument_id := instrument_id self; id := id self;
     account_id := account_id self; from_order := from_order self; entry := entry self; side :=
     side self; net_qty := net_qty self; quantity := quantity self; peak_qty := v; ts_init :=
     ts_init self; ts_opened := ts_opened self; ts_last := ts_last self; ts_closed := ts_closed
     self; duration_ns := duration_ns self; avg_px_open := avg_px_open self; avg_px_close :=
     avg_px_close self; price_precision := price_precision self; size_precision :=
     size_precision self; multiplier := multiplier self; is_inverse := is_inverse self;
     quote_currency := quote_currency self; base_currency := base_currency self; cost_currency
     := cost_currency self; realized_points := realized_points self; realized_return :=
     realized_return self; realized_pnl := realized_pnl self |}.

Definition set_ts_last (v : Z) (self : Position) : Position :=
  {| _events := _events self; _execution_ids := _execution_ids self; _buy_qty := _buy_qty self;
     _sell_qty := _sell_qty self; _commissions := _commissions self; trader_id := trader_id
     self; strategy_id := strategy_id self; instrument_id := instrument_id self; id := id self;
     account_id := account_id self; from_order := from_order self; entry := entry self; side :=
     side self; net_qty := net_qty self; quantity := quantity self; peak_qty := peak_qty self;
     ts_init := ts_init self; ts_opened := ts_opened self; ts_last := v; ts_closed := ts_closed
     self; duration_ns := duration_ns self; avg_px_open := avg_px_open self; avg_px_close :=
     avg_px_close self; price_precision := price_precision self; size_precision :=
     size_precision self; multiplier := multiplier self; is_inverse := is_inverse self;
     quote_currency := quote_currency self; base_currency := base_currency self; cost_currency
     := cost_currency self; realized_points := realized_points self; realized_return :=
     realized_return self; realized_pnl := realized_pnl self |}.

Definition set_ts_closed (v : Z) (self : Position) : Position :=
  {| _events := _events self; _execution_ids := _execution_ids self; _buy_qty := _buy_qty self;
     _sell_qty := _sell_qty self; _commissions := _commissions self; trader_id := trader_id
     self; strategy_id := strategy_id self; instrument_id := instrument_id self; id := id self;
     account_id := account_id self; from_order := from_order self; entry := entry self; side :=
     side self; net_qty := net_qty self; quantity := quantity self; peak_qty := peak_qty self;
     ts_init := ts_init self; ts_opened := ts_opened self; ts_last := ts_last self; ts_closed :=
     v; duration_ns := duration_ns self; avg_px_open := avg_px_open self; avg_px_close :=
     avg_px_close self; price_precision := price_precision self; size_precision :=
     size_precision self; multiplier := multiplier self; is_inverse := is_inverse self;
     quote_currency := quote_currency self; base_currency := base_currency self; cost_currency
     := cost_currency self; realized_points := realized_points self; realized_return :=
     realized_return self; realized_pnl := realized_pnl self |}.

Definition set_duration_ns (v : Z) (self : Position) : Position :=
  {| _events := _events self; _execution_ids := _execution_ids self; _buy_qty := _buy_qty self;
     _sell_qty := _sell_qty self; _commissions := _commissions self; trader_id := trader_id
     self; strategy_id := strategy_id self; instrument_id := instrument_id self; id := id self;
     account_id := account_id self; from_order := from_order self; entry := entry self; side :=
     side self; net_qty := net_qty self; quantity := quantity self; peak_qty := peak_qty self;
     ts_init := ts_init self; ts_opened := ts_opened self; ts_last := ts_last self; ts_closed :=
     ts_closed self; duration_ns := v; avg_px_open := avg_px_open self; avg_px_close :=
     avg_px_close self; price_precision := price_precision self; size_precision :=
     size_precision self; multiplier := multiplier self; is_inverse := is_inverse self;
     quote_currency := quote_currency self; base_currency := base_currency self; cost_currency
     := cost_currency self; realized_points := realized_points self; realized_return :=
     realized_return self; realized_pnl := realized_pnl self |}.

Definition set_avg_px_open (v : Q) (self : Position) : Position :=
  {| _events := _events self; _execution_ids := _execution_ids self; _buy_qty := _buy_qty self;
     _sell_qty := _sell_qty self; _commissions := _commissions self; trader_id := trader_id
     self; strategy_id := strategy_id self; instrument_id := instrument_id self; id := id self;
     account_id := account_id self; from_order := from_order self; entry := entry self; side :=
     side self; net_qty := net_qty self; quantity := quantity self; peak_qty := peak_qty self;
     ts_init := ts_init self; ts_opened := ts_opened self; ts_last := ts_last self; ts_closed :=
     ts_closed self; duration_ns := duration_ns self; avg_px_open := v; avg_px_close :=
     avg_px_close self; price_precision := price_precision self; size_precision :=
     size_precision self; multiplier := multiplier self; is_inverse := is_inverse self;
     quote_currency := quote_currency self; base_currency := base_currency self; cost_currency
     := cost_currency self; realized_points := realized_points self; realized_return :=
     realized_return self; realized_pnl := realized_pnl self |}.

Definition set_avg_px_close (v : option Q) (self : Position) : Position :=
  {| _events := _events self; _execution_ids := _execution_ids self; _buy_qty := _buy_qty self;
     _sell_qty := _sell_qty self; _commissions := _commissions self; trader_id := trader_id
     self; strategy_id := strategy_id self; instrument_id := instrument_id self; id := id self;
     account_id := account_id self; from_order := from_order self; entry := entry self; side :=
     side self; net_qty := net_qty self; quantity := quantity self; peak_qty := peak_qty self;
     ts_init := ts_init self; ts_opened := ts_opened self; ts_last := ts_last self; ts_closed :=
     ts_closed self; duration_ns := duration_ns self; avg_px_open := avg_px_open self;
     avg_px_close := v; price_precision := price_precision self; size_precision :=
     size_precision self; multiplier := multiplier self; is_inverse := is_inverse self;
     quote_currency := quote_currency self; base_currency := base_currency self; cost_currency
     := cost_currency self; realized_points := realized_points self; realized_return :=
     realized_return self; realized_pnl := realized_pnl self |}.

Definition set_realized_points (v : Q) (self : Position) : Position :=
  {| _events := _events self; _execution_ids := _execution_ids self; _buy_qty := _buy_qty self;
     _sell_qty := _sell_qty self; _commissions := _commissions self; trader_id := trader_id
     self; strategy_id := strategy_id self; instrument_id := instrument_id self; id := id self;
     account_id := account_id self; from_order := from_order self; entry := entry self; side :=
     side self; net_qty := net_qty self; quantity := quantity self; peak_qty := peak_qty self;
     ts_init := ts_init self; ts_opened := ts_opened self; ts_last := ts_last self; ts_closed :=
     ts_closed self; duration_ns := duration_ns self; avg_px_open := avg_px_open self;
     avg_px_close := avg_px_close self; price_precision := price_precision self; size_precision
     := size_precision self; multiplier := multiplier self; is_inverse := is_inverse self;
     quote_currency := quote_currency self; base_currency := base_currency self; cost_currency
     := cost_currency self; realized_points := v; realized_return := realized_return self;
     realized_pnl := realized_pnl self |}.

Definition set_realized_return (v : Q) (self : Position) : Position :=
  {| _events := _events self; _execution_ids := _execution_ids self; _buy_qty := _buy_qty self;
     _sell_qty := _sell_qty self; _commissions := _commissions self; trader_id := trader_id
     self; strategy_id := strategy_id self; instrument_id := instrument_id self; id := id self;
     account_id := account_id self; from_order := from_order self; entry := entry self; side :=
     side self; net_qty := net_qty self; quantity := quantity self; peak_qty := peak_qty self;
     ts_init := ts_init self; ts_opened := ts_opened self; ts_last := ts_last self; ts_closed :=
     ts_closed self; duration_ns := duration_ns self; avg_px_open := avg_px_open self;
     avg_px_close := avg_px_close self; price_precision := price_precision self; size_precision
     := size_precision self; multiplier := multiplier self; is_inverse := is_inverse self;
     quote_currency := quote_currency self; base_currency := base_currency self; cost_currency
     := cost_currency self; realized_points := realized_points self; realized_return := v;
     realized_pnl := realized_pnl self |}.

Definition set_realized_pnl (v : Money.t) (self : Position) : Position :=
  {| _events := _events self; _execution_ids := _execution_ids self; _buy_qty := _buy_qty self;
     _sell_qty := _sell_qty self; _commissions := _commissions self; trader_id := trader_id
     self; strategy_id := strategy_id self; instrument_id := instrument_id self; id := id self;
     account_id := account_id self; from_order := from_order self; entry := entry self; side :=
     side self; net_qty := net_qty self; quantity := quantity self; peak_qty := peak_qty self;
     ts_init := ts_init self; ts_opened := ts_opened self; ts_last := ts_last self; ts_closed :=
     ts_closed self; duration_ns := duration_ns self; avg_px_open := avg_px_open self;
     avg_px_close := avg_px_close self; price_precision := price_precision self; size_precision
     := size_precision self; multiplier := multiplier self; is_inverse := is_inverse self;
     quote_currency := quote_currency self; base_currency := base_currency self; cost_currency
     := cost_currency self; realized_points := realized_points self; realized_return :=
     realized_return self; realized_pnl := v |}.



Implicit Types (self : Position) (fill : OrderFilled).

(** [Position.side_from_order_side_c] *)
Definition side_from_order_side_c (s : OrderSide) : PositionSide :=
  match s with
  | BUY => LONG
  | SELL => SHORT
  end.

Definition is_opposite_side self (s : OrderSide) : bool :=
  negb (bool_decide (side self = side_from_order_side_c s)).

Definition is_open_c self : bool := negb (bool_decide (side self = FLAT)).
Definition is_closed_c self : bool := bool_decide (side self = FLAT).

(** [execution_ids_c]: read back from the events. *)
Definition execution_ids_c self : list ExecutionId :=
  OrderFilled.execution_id <$> _events self.

Definition _calculate_avg_px (qty avg_px : Q) fill : exn + Q :=
  let start_cost := avg_px * qty in
  let event_cost :=
    Price.as_decimal (OrderFilled.last_px fill)
    * Quantity.as_decimal (OrderFilled.last_qty fill) in
  let cum_qty := qty + Quantity.as_decimal (OrderFilled.last_qty fill) in
  dec_div (start_cost + event_cost) cum_qty.

Definition _calculate_avg_px_open_px self fill : exn + Q :=
  _calculate_avg_px (Qabs (net_qty self)) (avg_px_open self) fill.

(** [if not self.avg_px_close]: [None], or a zero decimal, is falsy. *)
Definition _calculate_avg_px_close_px self fill : exn + Q :=
  match avg_px_close self with
  | None => inr (Price.as_decimal (OrderFilled.last_px fill))
  | Some px =>
      if dec_eq px 0 then inr (Price.as_decimal (OrderFilled.last_px fill))
      else
        let close_qty :=
          if bool_decide (side self = LONG) then _sell_qty self else _buy_qty self in
        _calculate_avg_px close_qty px fill
  end.

Definition _calculate_points self (avg_px_open avg_px_close : Q) : Q :=
  match side self with
  | LONG => avg_px_close - avg_px_open
  | SHORT => avg_px_open - avg_px_close
  | FLAT => 0
  end.

Definition _calculate_points_inverse self (avg_px_open avg_px_close : Q) : exn + Q :=
  match side self with
  | LONG =>
      match dec_div 1 avg_px_open, dec_div 1 avg_px_close with
      | inr a, inr b => inr (a - b)
      | inl e, _ | _, inl e => inl e
      end
  | SHORT =>
      match dec_div 1 avg_px_close, dec_div 1 avg_px_open with
      | inr a, inr b => inr (a - b)
      | inl e, _ | _, inl e => inl e
      end
  | FLAT => inr 0
  end.

Definition _calculate_return self (avg_px_open avg_px_close : Q) : exn + Q :=
  dec_div (_calculate_points self avg_px_open avg_px_close) avg_px_open.

Definition _calculate_pnl self (avg_px_open avg_px_close quantity : Q) : exn + Q :=
  if is_inverse self then
    match _calculate_points_inverse self avg_px_open avg_px_close with
    | inr pts => inr (quantity * multiplier self * pts)
    | inl e => inl e
    end
  else
    inr (quantity * multiplier self * _calculate_points self avg_px_open avg_px_close).

(** The closing branch shared by the two fill handlers: average close price,
    points, return, and the PnL of the fill added to [realized_pnl] (the local
    of the handler).  It returns the object and the local. *)
Definition close_branch self fill (realized_pnl : Q) : outcome Position * Q :=
  match _calculate_avg_px_close_px self fill with
  | inl e => (Raised e self, realized_pnl)
  | inr px =>
    let self := self |> set_avg_px_close (Some px) in
    let self := self |> set_realized_points (_calculate_points self (avg_px_open self) px) in
    match _calculate_return self (avg_px_open self) px with
    | inl e => (Raised e self, realized_pnl)
    | inr r =>
      let self := self |> set_realized_return r in
      match _calculate_pnl self (avg_px_open self) (Price.as_decimal (OrderFilled.last_px fill))
                           (Quantity.as_decimal (OrderFilled.last_qty fill)) with
      | inl e => (Raised e self, realized_pnl)
      | inr pnl => (Returned self, realized_pnl + pnl)
      end
    end
  end.

Definition open_branch self fill (realized_pnl : Q) : outcome Position * Q :=
  match _calculate_avg_px_open_px self fill with
  | inl e => (Raised e self, realized_pnl)
  | inr px => (Returned (self |> set_avg_px_open px), realized_pnl)
  end.

(** The first lines of both handlers: the commission enters the PnL of the
    fill only when it is in the cost currency. *)
Definition initial_realized_pnl self fill : Q :=
  if bool_decide (Money.currency (OrderFilled.commission fill) = cost_currency self)
  then - Money.as_decimal (OrderFilled.commission fill)
  else 0.

Definition _handle_buy_order_fill self fill : outcome Position :=
  let realized_pnl := initial_realized_pnl self fill in
  let '(branch, realized_pnl) :=
    if dec_lt 0 (net_qty self) then open_branch self fill realized_pnl      (* LONG *)
    else if dec_lt (net_qty self) 0 then close_branch self fill realized_pnl (* SHORT *)
    else (Returned self, realized_pnl) in
  match branch with
  | Raised e self => Raised e self
  | Returned self =>
    let self := self |> set_realized_pnl
      (Money.new (Money.as_decimal (position.realized_pnl self) + realized_pnl)
                 (cost_currency self)) in
    let self :=
      self |> set__buy_qty (_buy_qty self + Quantity.as_decimal (OrderFilled.last_qty fill)) in
    Returned (self |> set_net_qty (net_qty self + Quantity.as_decimal (OrderFilled.last_qty fill)))
  end.

Definition _handle_sell_order_fill self fill : outcome Position :=
  let realized_pnl := initial_realized_pnl self fill in
  let '(branch, realized_pnl) :=
    if dec_lt (net_qty self) 0 then open_branch self fill realized_pnl      (* SHORT *)
    else if dec_lt 0 (net_qty self) then close_branch self fill realized_pnl (* LONG *)
    else (Returned self, realized_pnl) in
  match branch with
  | Raised e self => Raised e self
  | Returned self =>
    let self := self |> set_realized_pnl
      (Money.new (Money.as_decimal (position.realized_pnl self) + realized_pnl)
                 (cost_currency self)) in
    let self :=
      self |> set__sell_qty (_sell_qty self + Quantity.as_decimal (OrderFilled.last_qty fill)) in
    Returned (self |> set_net_qty (net_qty self - Quantity.as_decimal (OrderFilled.last_qty fill)))
  end.

(** [Position.apply] *)
Definition apply self fill : outcome Position :=
  (* Condition.not_in(fill.execution_id, self._execution_ids, ...) *)
  if bool_decide (OrderFilled.execution_id fill ∈ _execution_ids self) then Raised KeyError self
  else
    let self := self |> set__events (_events self ++ [fill]) in
    let self :=
      self |> set__execution_ids (_execution_ids self ++ [OrderFilled.execution_id fill]) in
    (* Calculate cumulative commission.  The entry under a currency is a Money
       of that currency (the assignment below is the only one to write the
       map), so the sum stays within one currency. *)
    let currency := Money.currency (OrderFilled.commission fill) in
    let cum_commission :=
      Money.new (default 0 (Money.as_decimal <$> _commissions self !! currency)
                 + Money.as_decimal (OrderFilled.commission fill)) currency in
    let self :=
      self |> set__commissions (<[currency := cum_commission]> (_commissions self)) in
    (* Calculate avg prices, points, return, PnL *)
    match (match OrderFilled.order_side fill with
           | BUY => _handle_buy_order_fill self fill
           | SELL => _handle_sell_order_fill self fill
           end) with
    | Raised e self => Raised e self
    | Returned self =>
      (* Set quantities *)
      try q := Quantity.new (Qabs (net_qty self)) (size_precision self) within self in
      let self := self |> set_quantity q in
      let self :=
        if dec_lt (Quantity.as_decimal (peak_qty self)) (Quantity.as_decimal (quantity self))
        then self |> set_peak_qty (quantity self) else self in
      (* Set state *)
      let self :=
        if dec_lt 0 (net_qty self) then
          self |> set_entry BUY |> set_side LONG |> set_ts_closed 0%Z |> set_duration_ns 0%Z
        else if dec_lt (net_qty self) 0 then
          self |> set_entry SELL |> set_side SHORT |> set_ts_closed 0%Z |> set_duration_ns 0%Z
        else
          let self := self |> set_side FLAT |> set_ts_closed (OrderFilled.ts_event fill) in
          self |> set_duration_ns (ts_closed self - ts_opened self)%Z in
      Returned (self |> set_ts_last (OrderFilled.ts_event fill))
    end.

(** [Position.__init__] *)
Definition __init__ (instrument : Instrument.t) fill : exn + outcome Position :=
  if negb (bool_decide (Instrument.id instrument = OrderFilled.instrument_id fill))
  then inl ValueError
  else match OrderFilled.position_id fill with
  | None => inl TypeError
  | Some pid =>
    match Instrument.get_cost_currency instrument with
    | None => inl TypeError      (* Money(0, None) *)
    | Some cost =>
      let self := {|
        _events := []; _execution_ids := []; _buy_qty := 0; _sell_qty := 0;
        _commissions := ∅;
        trader_id := OrderFilled.trader_id fill;
        strategy_id := OrderFilled.strategy_id fill;
        instrument_id := OrderFilled.instrument_id fill;
        id := pid;
        account_id := OrderFilled.account_id fill;
        from_order := OrderFilled.client_order_id fill;
        entry := OrderFilled.order_side fill;
        side := side_from_order_side_c (OrderFilled.order_side fill);
        net_qty := 0;
        quantity := Quantity.zero_c (Instrument.size_precision instrument);
        peak_qty := Quantity.zero_c (Instrument.size_precision instrument);
        ts_init := OrderFilled.ts_init fill;
        ts_opened := OrderFilled.ts_event fill;
        ts_last := OrderFilled.ts_event fill;
        ts_closed := 0%Z;
        duration_ns := 0%Z;
        avg_px_open := Price.as_decimal (OrderFilled.last_px fill);
        avg_px_close := None;
        price_precision := Instrument.price_precision instrument;
        size_precision := Instrument.size_precision instrument;
        multiplier := Instrument.multiplier instrument;
        is_inverse := Instrument.is_inverse instrument;
        quote_currency := Instrument.quote_currency instrument;
        base_currency := Instrument.get_base_currency instrument;
        cost_currency := cost;
        realized_points := 0;
        realized_return := 0;
        realized_pnl := Money.new 0 cost |} in
      inr (apply self fill)
    end
  end.




(** [Position.commissions] *)
Definition commissions self : list Money.t := (map_to_list (_commissions self)).*2.

(** Positions that exist: built by the constructor, then any number of calls
    of [apply], whether they return or raise. *)
Inductive reachable : Position -> Prop :=
| reachable_init instrument fill self :
    __init__ instrument fill = inr (Returned self) -> reachable self
| reachable_apply self fill self' :
    reachable self -> state_of (apply self fill) = self' -> reachable self'.


(** The fields a handler leaves alone, whether it returns or raises. *)
Definition handler_frame self self' : Prop :=
  _events self' = _events self /\
  _execution_ids self' = _execution_ids self /\
  _commissions self' = _commissions self /\
  cost_currency self' = cost_currency self /\
  quote_currency self' = quote_currency self /\
  base_currency self' = base_currency self /\
  is_inverse self' = is_inverse self /\
  multiplier self' = multiplier self /\
  size_precision self' = size_precision self /\
  ts_opened self' = ts_opened self /\
  side self' = side self /\
  (Money.currency (realized_pnl self) = cost_currency self ->
   Money.currency (realized_pnl self') = cost_currency self').

(** The dispatch on the order side inside [apply]. *)
Definition handle_fill self fill : outcome Position :=
  match OrderFilled.order_side fill with
  | BUY => _handle_buy_order_fill self fill
  | SELL => _handle_sell_order_fill self fill
  end.

(** The object handed to the handlers by [apply]. *)
Definition recorded self fill : Position :=
  let currency := Money.currency (OrderFilled.commission fill) in
  self |> set__events (_events self ++ [fill])
       |> set__execution_ids (_execution_ids self ++ [OrderFilled.execution_id fill])
       |> set__commissions
            (<[currency := Money.new
                 (default 0 (Money.as_decimal <$> _commissions self !! currency)
                  + Money.as_decimal (OrderFilled.commission fill)) currency]>
               (_commissions self)).

(** The tail of [apply], after the handlers. *)
Definition settle self fill : outcome Position :=
  try q := Quantity.new (Qabs (net_qty self)) (size_precision self) within self in
  let self := self |> set_quantity q in
  let self :=
    if dec_lt (Quantity.as_decimal (peak_qty self)) (Quantity.as_decimal (quantity self))
    then self |> set_peak_qty (quantity self) else self in
  let self :=
    if dec_lt 0 (net_qty self) then
      self |> set_entry BUY |> set_side LONG |> set_ts_closed 0%Z |> set_duration_ns 0%Z
    else if dec_lt (net_qty self) 0 then
      self |> set_entry SELL |> set_side SHORT |> set_ts_closed 0%Z |> set_duration_ns 0%Z
    else
      let self := self |> set_side FLAT |> set_ts_closed (OrderFilled.ts_event fill) in
      self |> set_duration_ns (ts_closed self - ts_opened self)%Z in
  Returned (self |> set_ts_last (OrderFilled.ts_event fill)).


(** Whether the fill is on the side opposite to the position it meets: the
    branch of the handlers that realizes PnL. *)
Definition closes self fill : bool :=
  match OrderFilled.order_side fill with
  | BUY => dec_lt (net_qty self) 0
  | SELL => dec_lt 0 (net_qty self)
  end.

(** What holds of every position that exists. *)
Definition position_inv self : Prop :=
  _execution_ids self = execution_ids_c self /\
  NoDup (_execution_ids self) /\
  Money.currency (realized_pnl self) = cost_currency self /\
  (is_inverse self = true -> base_currency self = Some (cost_currency self)) /\
  (is_inverse self = false -> cost_currency self = quote_currency self).

(** The commission of a fill as far as it is in the cost currency. *)
Definition commission_in_cost_ccy self fill : Q :=
  if bool_decide (Money.currency (OrderFilled.commission fill) = cost_currency self)
  then Money.as_decimal (OrderFilled.commission fill) else 0.


(** The empty object of [__init__] before its fields are assigned: the value of
    a run that did not complete. *)
Definition no_position : Position :=
  {| _events := []; _execution_ids := []; _buy_qty := 0; _sell_qty := 0; _commissions := ∅;
     trader_id := ""; strategy_id := ""; instrument_id := ""; id := ""; account_id := "";
     from_order := ""; entry := BUY; side := FLAT; net_qty := 0;
     quantity := Quantity.zero_c 0; peak_qty := Quantity.zero_c 0;
     ts_init := 0%Z; ts_opened := 0%Z; ts_last := 0%Z; ts_closed := 0%Z; duration_ns := 0%Z;
     avg_px_open := 0; avg_px_close := None; price_precision := 0%nat; size_precision := 0%nat;
     multiplier := 0; is_inverse := false; quote_currency := ""; base_currency := None;
     cost_currency := ""; realized_points := 0; realized_return := 0;
     realized_pnl := Money.new 0 "" |}.

Definition default_position (o : option Position) : Position := default no_position o.

(** ** Accessors and the public PnL calculation *)

(** [Position.events_c]: a copy of the list of events. *)
Definition events_c self : list OrderFilled := _events self.

(** [Position.last_event_c]: [self._events[-1]].  [None] stands for the
    [IndexError] of an empty list. *)
Definition last_event_c self : option OrderFilled := last (_events self).

(** [Position.last_execution_id_c]: [self._events[-1].execution_id]. *)
Definition last_execution_id_c self : option ExecutionId :=
  OrderFilled.execution_id <$> last (_events self).

(** [Position.event_count_c] *)
Definition event_count_c self : nat := length (_events self).

Definition is_long_c self : bool := bool_decide (side self = LONG).
Definition is_short_c self : bool := bool_decide (side self = SHORT).


(** The object of [__init__] at the point where it calls [apply]: the
    attributes as assigned from the instrument and the opening fill. *)
Definition blank (instrument : Instrument.t) fill (pid cost : string) : Position :=
  {| _events := []; _execution_ids := []; _buy_qty := 0; _sell_qty := 0;
     _commissions := ∅;
     trader_id := OrderFilled.trader_id fill;
     strategy_id := OrderFilled.strategy_id fill;
     instrument_id := OrderFilled.instrument_id fill;
     id := pid;
     account_id := OrderFilled.account_id fill;
     from_order := OrderFilled.client_order_id fill;
     entry := OrderFilled.order_side fill;
     side := side_from_order_side_c (OrderFilled.order_side fill);
     net_qty := 0;
     quantity := Quantity.zero_c (Instrument.size_precision instrument);
     peak_qty := Quantity.zero_c (Instrument.size_precision instrument);
     ts_init := OrderFilled.ts_init fill;
     ts_opened := OrderFilled.ts_event fill;
     ts_last := OrderFilled.ts_event fill;
     ts_closed := 0%Z;
     duration_ns := 0%Z;
     avg_px_open := Price.as_decimal (OrderFilled.last_px fill);
     avg_px_close := None;
     price_precision := Instrument.price_precision instrument;
     size_precision := Instrument.size_precision instrument;
     multiplier := Instrument.multiplier instrument;
     is_inverse := Instrument.is_inverse instrument;
     quote_currency := Instrument.quote_currency instrument;
     base_currency := Instrument.get_base_currency instrument;
     cost_currency := cost;
     realized_points := 0;
     realized_return := 0;
     realized_pnl := Money.new 0 cost |}.

(** The attributes [apply] and its handlers never assign. *)
Definition same_identity self self' : Prop :=
  id self' = id self /\
  trader_id self' = trader_id self /\
  strategy_id self' = strategy_id self /\
  instrument_id self' = instrument_id self /\
  account_id self' = account_id self /\
  from_order self' = from_order self /\
  ts_init self' = ts_init self /\
  ts_opened self' = ts_opened self /\
  price_precision self' = price_precision self /\
  size_precision self' = size_precision self /\
  multiplier self' = multiplier self /\
  is_inverse self' = is_inverse self /\
  quote_currency self' = quote_currency self /\
  base_currency self' = base_currency self /\
  cost_currency self' = cost_currency self.

(** The attributes a fill handler leaves alone when it raises, and the tail
    of [apply] sets afterwards. *)
Definition same_quantities self self' : Prop :=
  _buy_qty self' = _buy_qty self /\
  _sell_qty self' = _sell_qty self /\
  net_qty self' = net_qty self /\
  quantity self' = quantity self /\
  peak_qty self' = peak_qty self.

(** The side of a position against the sign of its net quantity. *)
Definition side_tells_sign self : Prop :=
  (side self = LONG <-> 0 < net_qty self) /\
  (side self = SHORT <-> net_qty self < 0) /\
  (side self = FLAT <-> net_qty self == 0).

(** The commissions of the fills of [events] that are in [currency], summed. *)
Definition commission_total (currency : string) (events : list OrderFilled) : Q :=
  foldr (fun fill acc =>
           if bool_decide (Money.currency (OrderFilled.commission fill) = currency)
           then Money.as_decimal (OrderFilled.commission fill) + acc
           else acc) 0 events.

(** The size-weighted mean of the average open price and the price of a
    fill, the position being of size [Qabs (net_qty self)]. *)
Definition weighted_open_px self fill : Q :=
  (avg_px_open self * Qabs (net_qty self)
   + Price.as_decimal (OrderFilled.last_px fill)
     * Quantity.as_decimal (OrderFilled.last_qty fill))
  / (Qabs (net_qty self) + Quantity.as_decimal (OrderFilled.last_qty fill)).

(** ** Concrete objects for the scenarios *)

Definition AAPL : Instrument.t :=
  Instrument.new "AAPL.NASDAQ" 2 0 1 false "USD" None.


Definition a_fill (instrument : Instrument.t) (execution_id : ExecutionId) (s : OrderSide)
    (qty px : Q) (commission : Money.t) (ts : Z) : OrderFilled :=
  OrderFilled.new "TRADER-001" "S-001" "ACC-001" (Instrument.id instrument) "O-1" "V-1"
    execution_id (Some "P-1") s
    (Quantity.make qty (Instrument.size_precision instrument))
    (Price.new px (Instrument.price_precision instrument)) commission ts ts.

(** Open with the first fill, then apply the others in turn; [None] as soon
    as a call raises. *)
Definition run (instrument : Instrument.t) (first : OrderFilled) (rest : list OrderFilled)
    : option Position :=
  match __init__ instrument first with
  | inr (Returned p) =>
      foldl (fun acc fill =>
               match acc with
               | Some p => match apply p fill with Returned p' => Some p' | Raised _ _ => None end
               | None => None
               end) (Some p) rest
  | _ => None
  end.

(** The two fills of the flip scenario; their commissions are in a currency
    that is not the cost currency. *)
Definition buy_5_at_10 : OrderFilled := a_fill AAPL "E-1" BUY 5 10 (Money.new 0.5 "EUR") 1.
Definition sell_8_at_12 : OrderFilled := a_fill AAPL "E-2" SELL 8 12 (Money.new 0.5 "EUR") 2.
Definition sell_5_at_12 : OrderFilled := a_fill AAPL "E-2" SELL 5 12 (Money.new 2 "USD") 2.


Definition long_5 : Position := default_position (run AAPL buy_5_at_10 []).
Definition flipped : Position := default_position (run AAPL buy_5_at_10 [sell_8_at_12]).


(** A second fill on the side of [long_5]. *)
Definition buy_15_at_12 : OrderFilled := a_fill AAPL "E-2" BUY 15 12 (Money.new 1 "USD") 2.


End position.

(** * Bar aggregation ([position.pyx], classes [BarBuilder] and the aggregators) *)
Module aggregation.

Inductive BarAggregation : Type :=
| TICK | TICK_IMBALANCE | TICK_RUNS | VOLUME | VOLUME_IMBALANCE | VOLUME_RUNS
| VALUE | VALUE_IMBALANCE | VALUE_RUNS | SECOND | MINUTE | HOUR | DAY.

Inductive PriceType : Type := BID | ASK | MID | LAST.

(** Modelled from the spec: [BarSpecification], [BarType] and [Bar]
    ([nautilus_trader/model/data/bar.pyx], missing).  The specification of a
    bar type gives the step, the aggregation and the price type; a bar is
    [(bar_type, open, high, low, close, volume, ts_event, ts_init)], none of
    them optional. *)
Record BarSpecification : Type := mkBarSpecification {
  step : Z;
  aggregation : BarAggregation;
  price_type : PriceType
}.

Record BarType : Type := mkBarType {
  bt_instrument_id : string;
  spec : BarSpecification
}.

Record Bar : Type := mkBar {
  type : BarType;
  open : Price.t;
  high : Price.t;
  low : Price.t;
  close : Price.t;
  bar_volume : Quantity.t;
  ts_event : Z;
  ts_init : Z
}.

(** Comparison of two [Price] objects is that of their values. *)
Definition price_gt (a b : Price.t) : bool := dec_lt (Price.as_decimal b) (Price.as_decimal a).
Definition price_lt (a b : Price.t) : bool := dec_lt (Price.as_decimal a) (Price.as_decimal b).

Record BarBuilder : Type := mkBarBuilder {
  _bar_type : BarType;
  price_precision : nat;
  size_precision : nat;
  initialized : bool;
  ts_last : Z;
  count : Z;
  _partial_set : bool;
  _last_close : option Price.t;
  _open : option Price.t;
  _high : option Price.t;
  _low : option Price.t;
  _close : option Price.t;
  volume : Q
}.

Definition set_initialized (v : bool) (self : BarBuilder) : BarBuilder :=
  {| _bar_type := _bar_type self; price_precision := price_precision self; size_precision :=
     size_precision self; initialized := v; ts_last := ts_last self; count := count self;
     _partial_set := _partial_set self; _last_close := _last_close self; _open := _open self;
     _high := _high self; _low := _low self; _close := _close self; volume := volume self |}.

Definition set_ts_last (v : Z) (self : BarBuilder) : BarBuilder :=
  {| _bar_type := _bar_type self; price_precision := price_precision self; size_precision :=
     size_precision self; initialized := initialized self; ts_last := v; count := count self;
     _partial_set := _partial_set self; _last_close := _last_close self; _open := _open self;
     _high := _high self; _low := _low self; _close := _close self; volume := volume self |}.

Definition set_count (v : Z) (self : BarBuilder) : BarBuilder :=
  {| _bar_type := _bar_type self; price_precision := price_precision self; size_precision :=
     size_precision self; initialized := initialized self; ts_last := ts_last self; count := v;
     _partial_set := _partial_set self; _last_close := _last_close self; _open := _open self;
     _high := _high self; _low := _low self; _close := _close self; volume := volume self |}.

Definition set__partial_set (v : bool) (self : BarBuilder) : BarBuilder :=
  {| _bar_type := _bar_type self; price_precision := price_precision self; size_precision :=
     size_precision self; initialized := initialized self; ts_last := ts_last self; count :=
     count self; _partial_set := v; _last_close := _last_close self; _open := _open self; _high
     := _high self; _low := _low self; _close := _close self; volume := volume self |}.

Definition set__last_close (v : option Price.t) (self : BarBuilder) : BarBuilder :=
  {| _bar_type := _bar_type self; price_precision := price_precision self; size_precision :=
     size_precision self; initialized := initialized self; ts_last := ts_last self; count :=
     count self; _partial_set := _partial_set self; _last_close := v; _open := _open self; _high
     := _high self; _low := _low self; _close := _close self; volume := volume self |}.

Definition set__open (v : option Price.t) (self : BarBuilder) : BarBuilder :=
  {| _bar_type := _bar_type self; price_precision := price_precision self; size_precision :=
     size_precision self; initialized := initialized self; ts_last := ts_last self; count :=
     count self; _partial_set := _partial_set self; _last_close := _last_close self; _open := v;
     _high := _high self; _low := _low self; _close := _close self; volume := volume self |}.

Definition set__high (v : option Price.t) (self : BarBuilder) : BarBuilder :=
  {| _bar_type := _bar_type self; price_precision := price_precision self; size_precision :=
     size_precision self; initialized := initialized self; ts_last := ts_last self; count :=
     count self; _partial_set := _partial_set self; _last_close := _last_close self; _open :=
     _open self; _high := v; _low := _low self; _close := _close self; volume := volume self |}.

Definition set__low (v : option Price.t) (self : BarBuilder) : BarBuilder :=
  {| _bar_type := _bar_type self; price_precision := price_precision self; size_precision :=
     size_precision self; initialized := initialized self; ts_last := ts_last self; count :=
     count self; _partial_set := _partial_set self; _last_close := _last_close self; _open :=
     _open self; _high := _high self; _low := v; _close := _close self; volume := volume self
     |}.

Definition set__close (v : option Price.t) (self : BarBuilder) : BarBuilder :=
  {| _bar_type := _bar_type self; price_precision := price_precision self; size_precision :=
     size_precision self; initialized := initialized self; ts_last := ts_last self; count :=
     count self; _partial_set := _partial_set self; _last_close := _last_close self; _open :=
     _open self; _high := _high self; _low := _low self; _close := v; volume := volume self |}.

Definition set_volume (v : Q) (self : BarBuilder) : BarBuilder :=
  {| _bar_type := _bar_type self; price_precision := price_precision self; size_precision :=
     size_precision self; initialized := initialized self; ts_last := ts_last self; count :=
     count self; _partial_set := _partial_set self; _last_close := _last_close self; _open :=
     _open self; _high := _high self; _low := _low self; _close := _close self; volume := v |}.

Implicit Types (price : Price.t) (size : Quantity.t).

(** [BarBuilder.__init__] *)
Definition BarBuilder_new (instrument : Instrument.t) (bar_type : BarType) : exn + BarBuilder :=
  if negb (bool_decide (Instrument.id instrument = bt_instrument_id bar_type))
  then inl ValueError
  else inr {|
    _bar_type := bar_type;
    price_precision := Instrument.price_precision instrument;
    size_precision := Instrument.size_precision instrument;
    initialized := false;
    ts_last := 0;
    count := 0;
    _partial_set := false;
    _last_close := None;
    _open := None;
    _high := None;
    _low := None;
    _close := None;
    volume := 0 |}.

(** [BarBuilder.set_partial] *)
Definition set_partial (self : BarBuilder) (partial_bar : Bar) : BarBuilder :=
  if _partial_set self then self   (* Already updated *)
  else
    let self := self |> set__open (Some (open partial_bar)) in
    let self :=
      match _high self with
      | None => self |> set__high (Some (high partial_bar))
      | Some h => if price_gt (high partial_bar) h
                  then self |> set__high (Some (high partial_bar)) else self
      end in
    let self :=
      match _low self with
      | None => self |> set__low (Some (low partial_bar))
      | Some l => if price_lt (low partial_bar) l
                  then self |> set__low (Some (low partial_bar)) else self
      end in
    let self :=
      match _close self with
      | None => self |> set__close (Some (close partial_bar))
      | Some _ => self
      end in
    let self := self |> set_volume (volume self + Quantity.as_decimal (bar_volume partial_bar)) in
    let self := if (ts_last self =? 0)%Z then self |> set_ts_last (ts_init partial_bar) else self in
    self |> set__partial_set true |> set_initialized true.

(** [BarBuilder.update].  The comparisons [price > self._high] and
    [price < self._low] need the other operand: [None] there is a
    [TypeError]. *)
Definition update (self : BarBuilder) price size (ts_event : Z) : exn + BarBuilder :=
  if (ts_event <? ts_last self)%Z then inr self   (* Not applicable *)
  else
    let extremes : exn + BarBuilder :=
      match _open self with
      | None =>
          (* Initialize builder *)
          inr (self |> set__open (Some price) |> set__high (Some price)
                    |> set__low (Some price) |> set_initialized true)
      | Some _ =>
          match _high self with
          | None => inl TypeError
          | Some h =>
              if price_gt price h then inr (self |> set__high (Some price))
              else match _low self with
                   | None => inl TypeError
                   | Some l =>
                       if price_lt price l then inr (self |> set__low (Some price))
                       else inr self
                   end
          end
      end in
    match extremes with
    | inl e => inl e
    | inr self =>
        inr (self |> set__close (Some price)
                  |> set_volume (volume self + Quantity.as_decimal size)
                  |> set_count (count self + 1)%Z
                  |> set_ts_last ts_event)
    end.

(** [BarBuilder.reset] *)
Definition reset (self : BarBuilder) : BarBuilder :=
  let self := self |> set__open (_close self) in
  let self := self |> set__high (_close self) in
  let self := self |> set__low (_close self) in
  self |> set_volume 0 |> set_count 0%Z.

(** [BarBuilder.build]: the bar, or the exception, and the builder after the
    call.  The arguments of [Bar(...)] are evaluated first ([Quantity(...)]
    may raise), then [Bar] refuses a [None]. *)
Definition build (self : BarBuilder) (ts_event : Z) : (exn + Bar) * BarBuilder :=
  let self :=
    match _open self with
    | None =>   (* No tick was received *)
        self |> set__open (_last_close self) |> set__high (_last_close self)
             |> set__low (_last_close self) |> set__close (_last_close self)
    | Some _ => self
    end in
  match Quantity.new (volume self) (size_precision self) with
  | inl e => (inl e, self)
  | inr vol =>
      match _open self, _high self, _low self, _close self with
      | Some o, Some h, Some l, Some c =>
          let bar := {| type := _bar_type self; open := o; high := h; low := l; close := c;
                        bar_volume := vol; ts_event := ts_event; ts_init := ts_event |} in
          let self := self |> set__last_close (_close self) in
          (inr bar, reset self)
      | _, _, _, _ => (inl TypeError, self)
      end
  end.

(** [BarBuilder.build_now] *)
Definition build_now (self : BarBuilder) : (exn + Bar) * BarBuilder :=
  build self (ts_last self).

Record BarAggregator : Type := mkBarAggregator {
  bar_type : BarType;
  _builder : BarBuilder;
  handled : list Bar
}.

Definition set__builder (v : BarBuilder) (self : BarAggregator) : BarAggregator :=
  {| bar_type := bar_type self; _builder := v; handled := handled self |}.

Definition set_handled (v : list Bar) (self : BarAggregator) : BarAggregator :=
  {| bar_type := bar_type self; _builder := _builder self; handled := v |}.

(** ** [BarAggregator]: the builder, and the bars given to the handler so far *)

Implicit Types (agg : BarAggregator).

(** [BarAggregator.__init__] *)
Definition BarAggregator_new (instrument : Instrument.t) (bar_type : BarType)
    : exn + BarAggregator :=
  if negb (bool_decide (Instrument.id instrument = bt_instrument_id bar_type))
  then inl ValueError
  else match BarBuilder_new instrument bar_type with
       | inl e => inl e
       | inr b => inr {| bar_type := bar_type; _builder := b; handled := [] |}
       end.

(** [self._builder.update(price, size, ts_event)] from an aggregator *)
Definition builder_update agg price size (ts_event : Z) : outcome BarAggregator :=
  match update (_builder agg) price size ts_event with
  | inl e => Raised e agg
  | inr b => Returned (agg |> set__builder b)
  end.

(** [BarAggregator._build_now_and_send] *)
Definition _build_now_and_send agg : outcome BarAggregator :=
  match build_now (_builder agg) with
  | (inl e, b) => Raised e (agg |> set__builder b)
  | (inr bar, b) => Returned (agg |> set__builder b |> set_handled (handled agg ++ [bar]))
  end.

(** [BarAggregator._build_and_send] *)
Definition _build_and_send agg (ts_event : Z) : outcome BarAggregator :=
  match build (_builder agg) ts_event with
  | (inl e, b) => Raised e (agg |> set__builder b)
  | (inr bar, b) => Returned (agg |> set__builder b |> set_handled (handled agg ++ [bar]))
  end.

(** [TickBarAggregator._apply_update] *)
Definition TickBarAggregator_apply_update agg price size (ts_event : Z)
    : outcome BarAggregator :=
  match builder_update agg price size ts_event with
  | Raised e agg => Raised e agg
  | Returned agg =>
      if (count (_builder agg) =? step (spec (bar_type agg)))%Z
      then _build_now_and_send agg
      else Returned agg
  end.

(** [VolumeBarAggregator._apply_update]: the [while] loop, one iteration for
    each unit of fuel; [None] when the fuel does not suffice.  [precision] is
    [size.precision], [size_update] the size still to apply. *)
Fixpoint VolumeBarAggregator_loop (fuel : nat) agg price (precision : nat) (size_update : Q)
    (ts_event : Z) : option (outcome BarAggregator) :=
  match fuel with
  | O => None
  | S fuel =>
    if dec_lt 0 size_update then   (* While there is size to apply *)
      if dec_lt (volume (_builder agg) + size_update) (inject_Z (step (spec (bar_type agg))))
      then
        (* Update and break *)
        match Quantity.new size_update precision with
        | inl e => Some (Raised e agg)
        | inr size => Some (builder_update agg price size ts_event)
        end
      else
        let size_diff := inject_Z (step (spec (bar_type agg))) - volume (_builder agg) in
        (* Update builder to the step threshold *)
        match Quantity.new size_diff precision with
        | inl e => Some (Raised e agg)
        | inr size =>
          match builder_update agg price size ts_event with
          | Raised e agg => Some (Raised e agg)
          | Returned agg =>
            (* Build a bar and reset builder *)
            match _build_now_and_send agg with
            | Raised e agg => Some (Raised e agg)
            | Returned agg =>
              (* Decrement the update size *)
              let size_update := size_update - size_diff in
              if dec_le 0 size_update   (* assert size_update >= 0 *)
              then VolumeBarAggregator_loop fuel agg price precision size_update ts_event
              else Some (Raised AssertionError agg)
            end
          end
        end
    else Some (Returned agg)
  end.

Definition VolumeBarAggregator_apply_update (fuel : nat) agg price size (ts_event : Z)
    : option (outcome BarAggregator) :=
  VolumeBarAggregator_loop fuel agg price (Quantity.precision size) (Quantity.as_decimal size)
    ts_event.


(** ** [TimeBarAggregator] *)

(** [TimeEvent] ([nautilus_trader/common/timer.pyx], missing): the time of
    the event is all that is read. *)
Record TimeEvent : Type := mkTimeEvent { event_ts : Z }.

(** The clock and its timers ([nautilus_trader/common/clock.pyx] and
    [timer.pyx]) are missing; the aggregator is verified for any timer type,
    given the two operations it uses: [TestTimer.pop_next_event], which returns
    the next event and moves the timer on, and the attribute [next_time_ns]. *)
Section time_bars.

Context {Timer : Type}.
Variable pop_next_event : Timer -> TimeEvent * Timer.
Variable next_time_ns : Timer -> Z.

(** The clock of the aggregator: whether it is a test clock, and the timer
    registered under the name of the bar type. *)
Record Clock : Type := mkClock {
  is_test_clock : bool;
  timer : Timer
}.

Record TimeBarAggregator : Type := mkTimeBarAggregator {
  base : BarAggregator;          (* the [BarAggregator] part *)
  _clock : Clock;
  interval_ns : Z;
  next_close_ns : Z;
  _build_on_next_tick : bool;
  _stored_close_ns : Z
}.

Implicit Types (self : TimeBarAggregator).

Definition set_base (v : BarAggregator) self : TimeBarAggregator :=
  {| base := v; _clock := _clock self; interval_ns := interval_ns self;
     next_close_ns := next_close_ns self; _build_on_next_tick := _build_on_next_tick self;
     _stored_close_ns := _stored_close_ns self |}.

Definition set__clock (v : Clock) self : TimeBarAggregator :=
  {| base := base self; _clock := v; interval_ns := interval_ns self;
     next_close_ns := next_close_ns self; _build_on_next_tick := _build_on_next_tick self;
     _stored_close_ns := _stored_close_ns self |}.

Definition set_next_close_ns (v : Z) self : TimeBarAggregator :=
  {| base := base self; _clock := _clock self; interval_ns := interval_ns self;
     next_close_ns := v; _build_on_next_tick := _build_on_next_tick self;
     _stored_close_ns := _stored_close_ns self |}.

Definition set__build_on_next_tick (v : bool) self : TimeBarAggregator :=
  {| base := base self; _clock := _clock self; interval_ns := interval_ns self;
     next_close_ns := next_close_ns self; _build_on_next_tick := v;
     _stored_close_ns := _stored_close_ns self |}.

Definition set__stored_close_ns (v : Z) self : TimeBarAggregator :=
  {| base := base self; _clock := _clock self; interval_ns := interval_ns self;
     next_close_ns := next_close_ns self; _build_on_next_tick := _build_on_next_tick self;
     _stored_close_ns := v |}.

(** A method of the [BarAggregator] part, called on the time aggregator. *)
Definition on_base self (o : outcome BarAggregator) : outcome TimeBarAggregator :=
  match o with
  | Returned agg => Returned (self |> set_base agg)
  | Raised e agg => Raised e (self |> set_base agg)
  end.

(** [TimeBarAggregator.set_partial] *)
Definition TimeBarAggregator_set_partial self (partial_bar : Bar) : TimeBarAggregator :=
  self |> set_base (base self |> set__builder (set_partial (_builder (base self)) partial_bar)).

(** [TimeBarAggregator._build_event] *)
Definition _build_event self (event : TimeEvent) : outcome TimeBarAggregator :=
  if negb (initialized (_builder (base self))) then
    (* Set flag to build on next close with the stored close time *)
    Returned (self |> set__build_on_next_tick true
                   |> set__stored_close_ns (next_close_ns self))
  else
    on_base self (_build_and_send (base self) (event_ts event)).

(** [TimeBarAggregator._build_bar]; its argument is not used by the code. *)
Definition _build_bar self (ts_event : Z) : outcome TimeBarAggregator :=
  let '(event, timer) := pop_next_event (timer (_clock self)) in
  let self := self |> set__clock (mkClock (is_test_clock (_clock self)) timer) in
  match _build_event self event with
  | Raised e self => Raised e self
  | Returned self => Returned (self |> set_next_close_ns (next_time_ns timer))
  end.

(** [TimeBarAggregator._apply_update] *)
Definition TimeBarAggregator_apply_update self price size (ts_event : Z)
    : outcome TimeBarAggregator :=
  let otherwise :=
    match on_base self (builder_update (base self) price size ts_event) with
    | Raised e self => Raised e self
    | Returned self =>
        if _build_on_next_tick self then
          match on_base self (_build_and_send (base self) (_stored_close_ns self)) with
          | Raised e self => Raised e self
          | Returned self =>
              (* Reset flag and clear stored close *)
              Returned (self |> set__build_on_next_tick false |> set__stored_close_ns 0%Z)
          end
        else Returned self
    end in
  if is_test_clock (_clock self) then
    if (next_close_ns self <? ts_event)%Z then
      (* Build bar first, then update *)
      match _build_bar self (next_close_ns self) with
      | Raised e self => Raised e self
      | Returned self => on_base self (builder_update (base self) price size ts_event)
      end
    else if (next_close_ns self =? ts_event)%Z then
      (* Update first, then build bar *)
      match on_base self (builder_update (base self) price size ts_event) with
      | Raised e self => Raised e self
      | Returned self => _build_bar self (next_close_ns self)
      end
    else otherwise
  else otherwise.

(** The time aggregators that exist.  The constructor builds the
    [BarAggregator] part, reads [next_close_ns] from the timer it has set and
    clears the flag and the stored close; afterwards come updates, the
    callback of the timer ([_build_event], while the clock moves its timers
    on), and [set_partial]. *)
Inductive time_reachable : TimeBarAggregator -> Prop :=
| time_reachable_new instrument bar_type self :
    BarAggregator_new instrument bar_type = inr (base self) ->
    next_close_ns self = next_time_ns (timer (_clock self)) ->
    _build_on_next_tick self = false ->
    _stored_close_ns self = 0%Z ->
    time_reachable self
| time_reachable_update self price size (ts : Z) self' :
    time_reachable self ->
    0 <= Quantity.as_decimal size ->
    state_of (TimeBarAggregator_apply_update self price size ts) = self' ->
    time_reachable self'
| time_reachable_event self (event : TimeEvent) (clock : Clock) self' :
    time_reachable self ->
    state_of (_build_event (self |> set__clock clock) event) = self' ->
    time_reachable self'
| time_reachable_partial self (partial_bar : Bar) self' :
    time_reachable self ->
    0 <= Quantity.as_decimal (bar_volume partial_bar) ->
    TimeBarAggregator_set_partial self partial_bar = self' ->
    time_reachable self'.

End time_bars.

(** Modelled from the spec: a recurring timer, firing at [next] and every
    [interval] after it; used for the concrete scenarios only. *)
Record TestTimer : Type := mkTestTimer { next : Z; interval : Z }.

Definition TestTimer_pop_next_event (t : TestTimer) : TimeEvent * TestTimer :=
  (mkTimeEvent (next t), mkTestTimer (next t + interval t)%Z (interval t)).

(** ** Well-formed builders and the scenario objects *)

(** Once a price has been received the extremes and the close are known and
    the builder is initialized; before that nothing is, the last close
    included; the volume is not negative.  The constructor establishes it and
    every method keeps it. *)
Definition builder_wf (b : BarBuilder) : Prop :=
  (is_Some (_open b) -> is_Some (_high b) /\ is_Some (_low b) /\ is_Some (_close b)) /\
  (initialized b = true <-> is_Some (_open b)) /\
  0 <= volume b /\
  (_open b = None -> _last_close b = None).

(** [self.bar_type.spec.step], as the decimal it is compared with. *)
Abbreviation step_of agg := (inject_Z (step (spec (bar_type agg)))).

(** Goals on the parts of [builder_wf], once the fields are known. *)
Ltac builder_wf_parts :=
  unfold builder_wf; simpl; split_and?;
  try solve [ eauto
            | lra
            | discriminate
            | intros [=]
            | intros [? [=]]
            | split; [discriminate | intros [? [=]]]
            | split; eauto ].

(** What a volume aggregator keeps: a well-formed builder, short of the step. *)
Definition volume_inv agg : Prop :=
  builder_wf (_builder agg) /\ volume (_builder agg) < step_of agg.

(** The volume aggregators that exist: constructed for a bar type with a
    positive step, then given updates (a [Quantity] is not negative), whether
    the call returns or raises. *)
Inductive volume_reachable : BarAggregator -> Prop :=
| volume_reachable_new instrument bar_type agg :
    (0 < step (spec bar_type))%Z ->
    BarAggregator_new instrument bar_type = inr agg ->
    volume_reachable agg
| volume_reachable_update agg price size (ts : Z) (fuel : nat) o agg' :
    volume_reachable agg ->
    0 <= Quantity.as_decimal size ->
    VolumeBarAggregator_apply_update fuel agg price size ts = Some o ->
    state_of o = agg' ->
    volume_reachable agg'.

(** What the split of an update promises of an emitted bar. *)
Definition full_bar (stepq : Q) price (ts : Z) (bar : Bar) : Prop :=
  Quantity.as_decimal (bar_volume bar) == stepq /\ close bar = price /\ ts_event bar = ts.

Definition ETHUSD : Instrument.t := Instrument.new "ETH/USD.FTX" 1 0 1 false "USD" None.

Definition volume_100 : BarType := mkBarType "ETH/USD.FTX" (mkBarSpecification 100 VOLUME LAST).

Definition no_builder : BarBuilder :=
  mkBarBuilder volume_100 0 0 false 0 0 false None None None None None 0.

(** A volume aggregator just constructed. *)
Definition volume_agg : BarAggregator :=
  match BarAggregator_new ETHUSD volume_100 with
  | inr agg => agg
  | inl _ => mkBarAggregator volume_100 no_builder []
  end.

Definition after (o : option (outcome BarAggregator)) : BarAggregator :=
  match o with Some o => state_of o | None => volume_agg end.

(** After the update [(price 1.0, size 60)] at time 10. *)
Definition volume_agg_60 : BarAggregator :=
  after (VolumeBarAggregator_apply_update 1 volume_agg (Price.new 1.0 1) (Quantity.make 60 0) 10).

(** Then the update [(price 1.1, size 80)] at time 20. *)
Definition volume_agg_140 : BarAggregator :=
  after (VolumeBarAggregator_apply_update 2 volume_agg_60 (Price.new 1.1 1)
           (Quantity.make 80 0) 20).

(** Or else the same update, but late: at time 5. *)
Definition volume_agg_late : BarAggregator :=
  after (VolumeBarAggregator_apply_update 2 volume_agg_60 (Price.new 1.1 1)
           (Quantity.make 80 0) 5).

Definition minute_1 : BarType := mkBarType "ETH/USD.FTX" (mkBarSpecification 1 MINUTE LAST).

Definition a_test_clock (next_close : Z) : Clock :=
  mkClock true (mkTestTimer next_close 60).

(** A minute-bar aggregator just constructed, on a test clock whose timer
    fires next at [next_close]. *)
Definition time_agg (next_close : Z) : TimeBarAggregator :=
  mkTimeBarAggregator
    (mkBarAggregator minute_1
       (mkBarBuilder minute_1 1 0 false 0 0 false None None None None None 0) [])
    (a_test_clock next_close) 60 next_close false 0.

Definition minute_update :=
  TimeBarAggregator_apply_update TestTimer_pop_next_event next.

(** The first update comes at time 100, after the close at 60. *)
Definition time_agg_100 : TimeBarAggregator :=
  state_of (minute_update (time_agg 60) (Price.new 1.0 1) (Quantity.make 5 0) 100).

(** The second comes at 110, before the close at 120. *)
Definition time_agg_110 : TimeBarAggregator :=
  state_of (minute_update time_agg_100 (Price.new 1.2 1) (Quantity.make 7 0) 110).

(** ** Ordered prices *)

(** The low is not above the open and the close, the high not below them. *)
Definition ordered (o h l c : Price.t) : Prop :=
  Price.as_decimal l <= Price.as_decimal o <= Price.as_decimal h /\
  Price.as_decimal l <= Price.as_decimal c <= Price.as_decimal h.

Definition bar_ordered (bar : Bar) : Prop :=
  ordered (open bar) (high bar) (low bar) (close bar).

(** The four prices of a builder are there together, and then in order. *)
Definition builder_ordered (b : BarBuilder) : Prop :=
  match _open b, _high b, _low b, _close b with
  | Some o, Some h, Some l, Some c => ordered o h l c
  | None, None, None, None => True
  | _, _, _, _ => False
  end.

(** The builders that exist: constructed, then updated (a [Quantity] is not
    negative), given a partial bar (a bar with its prices in order), built
    from, or reset. *)
Inductive builder_reachable : BarBuilder -> Prop :=
| builder_reachable_new instrument bar_type b :
    BarBuilder_new instrument bar_type = inr b ->
    builder_reachable b
| builder_reachable_update b price size (ts : Z) b' :
    builder_reachable b ->
    0 <= Quantity.as_decimal size ->
    update b price size ts = inr b' ->
    builder_reachable b'
| builder_reachable_partial b (partial_bar : Bar) b' :
    builder_reachable b ->
    bar_ordered partial_bar ->
    0 <= Quantity.as_decimal (bar_volume partial_bar) ->
    set_partial b partial_bar = b' ->
    builder_reachable b'
| builder_reachable_build b (ts : Z) b' :
    builder_reachable b ->
    (build b ts).2 = b' ->
    builder_reachable b'
| builder_reachable_reset b b' :
    builder_reachable b ->
    reset b = b' ->
    builder_reachable b'.

(** Case analysis on the four prices of a builder whose prices are in order. *)
Ltac ordered_cases b H :=
  unfold builder_ordered in H;
  destruct (_open b) as [?o |] eqn:?Ho; destruct (_high b) as [?h |] eqn:?Hh;
  destruct (_low b) as [?l |] eqn:?Hl; destruct (_close b) as [?c |] eqn:?Hc;
  try contradiction.

(** The fields of a builder given by its constructor, through the setters,
    by value. *)
Ltac builder_fields :=
  cbv beta iota zeta delta
    [set_initialized set_ts_last set_count set__partial_set set__last_close set__open
     set__high set__low set__close set_volume
     _bar_type price_precision size_precision initialized ts_last count _partial_set
     _last_close _open _high _low _close volume
     type open high low close bar_volume ts_event ts_init fst snd].


(** The bar of an interval without an update: flat at the close [c], of
    volume zero. *)
Definition flat_bar (b : BarBuilder) (c : Price.t) (ts : Z) : Bar :=
  {| type := _bar_type b; open := c; high := c; low := c; close := c;
     bar_volume := Quantity.make 0 (size_precision b); ts_event := ts; ts_init := ts |}.

(** ** Tick bars *)

(** The tick aggregators that exist: constructed for a bar type with a
    positive step, then given updates. *)
Inductive tick_reachable : BarAggregator -> Prop :=
| tick_reachable_new instrument bar_type agg :
    (0 < step (spec bar_type))%Z ->
    BarAggregator_new instrument bar_type = inr agg ->
    tick_reachable agg
| tick_reachable_update agg price size (ts : Z) agg' :
    tick_reachable agg ->
    0 <= Quantity.as_decimal size ->
    state_of (TickBarAggregator_apply_update agg price size ts) = agg' ->
    tick_reachable agg'.

(** What a tick aggregator keeps: a well-formed builder with its prices in
    order, a count short of the step, and ordered bars sent. *)
Definition tick_inv agg : Prop :=
  builder_wf (_builder agg) /\
  builder_ordered (_builder agg) /\
  (0 <= count (_builder agg) < step (spec (bar_type agg)))%Z /\
  Forall bar_ordered (handled agg).

(** ** What the bars sent keep *)

(** The volume of a bar is within the step [stepq]. *)
Definition within_step (stepq : Q) (bar : Bar) : Prop :=
  0 <= Quantity.as_decimal (bar_volume bar) <= stepq.

(** ** Ticks, and the bulk builders *)

(** [TradeTick] ([nautilus_trader/model/data/tick.pyx], missing): the
    attributes [handle_trade_tick] reads. *)
Record TradeTick : Type := mkTradeTick {
  tick_price : Price.t;
  tick_size : Quantity.t;
  tick_ts_event : Z
}.

(** The trades of [ticks] come in the order of time, none before [last], and
    their sizes are not negative. *)
Fixpoint in_order (last : Z) (ticks : list TradeTick) : Prop :=
  match ticks with
  | [] => True
  | tick :: ticks =>
      (last <= tick_ts_event tick)%Z /\ 0 <= Quantity.as_decimal (tick_size tick) /\
      in_order (tick_ts_event tick) ticks
  end.

(** [QuoteTick] is missing with its methods; the handlers are verified for
    any type of quote ticks, given [extract_price] and [extract_volume]
    (which may raise) and the attribute [ts_event]. *)
Section ticks.

Context {QuoteTick Timer : Type}.
Variable extract_price : QuoteTick -> PriceType -> exn + Price.t.
Variable extract_volume : QuoteTick -> PriceType -> exn + Quantity.t.
Variable quote_ts_event : QuoteTick -> Z.
Variable pop_next_event : Timer -> TimeEvent * Timer.
Variable next_time_ns : Timer -> Z.

Inductive Tick : Type :=
| a_quote (tick : QuoteTick)
| a_trade (tick : TradeTick).

(** [tick.ts_event] *)
Definition Tick_ts_event (tick : Tick) : Z :=
  match tick with
  | a_quote tick => quote_ts_event tick
  | a_trade tick => tick_ts_event tick
  end.

(** [BarAggregator.handle_quote_tick], for the [_apply_update] of the class
    of [self]; an argument that is not a [QuoteTick] is a [TypeError]. *)
Definition handle_quote_tick {A : Type} (bar_type : A -> BarType)
    (_apply_update : A -> Price.t -> Quantity.t -> Z -> outcome A) (self : A) (tick : Tick)
    : outcome A :=
  match tick with
  | a_trade _ => Raised TypeError self
  | a_quote tick =>
      try price := extract_price tick (price_type (spec (bar_type self))) within self in
      try size := extract_volume tick (price_type (spec (bar_type self))) within self in
      _apply_update self price size (quote_ts_event tick)
  end.

(** [BarAggregator.handle_trade_tick] *)
Definition handle_trade_tick {A : Type}
    (_apply_update : A -> Price.t -> Quantity.t -> Z -> outcome A) (self : A) (tick : Tick)
    : outcome A :=
  match tick with
  | a_quote _ => Raised TypeError self
  | a_trade tick => _apply_update self (tick_price tick) (tick_size tick) (tick_ts_event tick)
  end.

(** [BulkTickBarBuilder]: [bars], the list the handler of the aggregator
    appends to, is the list of the bars the aggregator has sent; [callback],
    taken to be callable, is represented by the arguments it has been called
    with. *)
Record BulkTickBarBuilder : Type := mkBulkTickBarBuilder {
  aggregator : BarAggregator;
  callback : list (list Bar)
}.

Definition bars (self : BulkTickBarBuilder) : list Bar := handled (aggregator self).

(** [BulkTickBarBuilder.__init__] *)
Definition BulkTickBarBuilder_new (instrument : Instrument.t) (bar_type : BarType)
    : exn + BulkTickBarBuilder :=
  match BarAggregator_new instrument bar_type with
  | inl e => inl e
  | inr agg => inr {| aggregator := agg; callback := [] |}
  end.

(** [for i in range(len(ticks)): handle(ticks[i])] *)
Fixpoint for_each {A : Type} (handle : A -> Tick -> outcome A) (self : A) (ticks : list Tick)
    : outcome A :=
  match ticks with
  | [] => Returned self
  | tick :: ticks =>
      match handle self tick with
      | Raised e self => Raised e self
      | Returned self => for_each handle self ticks
      end
  end.

(** [BulkTickBarBuilder.receive] *)
Definition BulkTickBarBuilder_receive (self : BulkTickBarBuilder) (ticks : list Tick)
    : outcome BulkTickBarBuilder :=
  let handle :=
    match price_type (spec (bar_type (aggregator self))) with
    | LAST => handle_trade_tick TickBarAggregator_apply_update
    | _ => handle_quote_tick bar_type TickBarAggregator_apply_update
    end in
  match for_each handle (aggregator self) ticks with
  | Raised e agg => Raised e {| aggregator := agg; callback := callback self |}
  | Returned agg =>
      Returned {| aggregator := agg; callback := callback self ++ [handled agg] |}
  end.

(** [BulkTimeBarUpdater] *)
Record BulkTimeBarUpdater : Type := mkBulkTimeBarUpdater {
  time_aggregator : @TimeBarAggregator Timer;   (* [aggregator] *)
  start_time_ns : Z
}.

(** [BulkTimeBarUpdater.__init__] *)
Definition BulkTimeBarUpdater_new (aggregator : @TimeBarAggregator Timer) : BulkTimeBarUpdater :=
  {| time_aggregator := aggregator;
     start_time_ns := (next_close_ns aggregator - interval_ns aggregator)%Z |}.

(** The loop of [BulkTimeBarUpdater.receive], for one of the two handlers. *)
Fixpoint BulkTimeBarUpdater_loop
    (handle : @TimeBarAggregator Timer -> Tick -> outcome (@TimeBarAggregator Timer))
    (start_time_ns : Z) (aggregator : @TimeBarAggregator Timer) (ticks : list Tick)
    : outcome (@TimeBarAggregator Timer) :=
  match ticks with
  | [] => Returned aggregator
  | tick :: ticks =>
      if (Tick_ts_event tick <? start_time_ns)%Z
      then   (* Price not applicable to this bar *)
        BulkTimeBarUpdater_loop handle start_time_ns aggregator ticks
      else
        match handle aggregator tick with
        | Raised e aggregator => Raised e aggregator
        | Returned aggregator => BulkTimeBarUpdater_loop handle start_time_ns aggregator ticks
        end
  end.

(** [BulkTimeBarUpdater.receive] *)
Definition BulkTimeBarUpdater_receive (self : BulkTimeBarUpdater) (ticks : list Tick)
    : outcome BulkTimeBarUpdater :=
  let _apply_update := TimeBarAggregator_apply_update pop_next_event next_time_ns in
  let handle :=
    match price_type (spec (bar_type (base (time_aggregator self)))) with
    | LAST => handle_trade_tick _apply_update
    | _ => handle_quote_tick (fun aggregator => bar_type (base aggregator)) _apply_update
    end in
  match BulkTimeBarUpdater_loop handle (start_time_ns self) (time_aggregator self) ticks with
  | Raised e aggregator =>
      Raised e {| time_aggregator := aggregator; start_time_ns := start_time_ns self |}
  | Returned aggregator =>
      Returned {| time_aggregator := aggregator; start_time_ns := start_time_ns self |}
  end.

End ticks.

(** ** More scenario objects *)

Definition tick_3 : BarType := mkBarType "ETH/USD.FTX" (mkBarSpecification 3 TICK LAST).

(** A builder just constructed. *)
Definition a_builder : BarBuilder :=
  match BarBuilder_new ETHUSD tick_3 with
  | inr b => b
  | inl _ => no_builder
  end.

Definition builder_after (o : exn + BarBuilder) : BarBuilder :=
  match o with inr b => b | inl _ => a_builder end.

(** The builder after the update [(1.0, 5)] at 10, then [(1.2, 7)] at 20,
    then [(0.9, 1)] at 30. *)
Definition a_builder_1 : BarBuilder :=
  builder_after (update a_builder (Price.new 1.0 1) (Quantity.make 5 0) 10).

Definition a_builder_2 : BarBuilder :=
  builder_after (update a_builder_1 (Price.new 1.2 1) (Quantity.make 7 0) 20).

Definition a_builder_3 : BarBuilder :=
  builder_after (update a_builder_2 (Price.new 0.9 1) (Quantity.make 1 0) 30).

(** A tick aggregator just constructed, and after two updates. *)
Definition tick_agg : BarAggregator :=
  match BarAggregator_new ETHUSD tick_3 with
  | inr agg => agg
  | inl _ => mkBarAggregator tick_3 no_builder []
  end.

Definition tick_agg_1 : BarAggregator :=
  state_of (TickBarAggregator_apply_update tick_agg (Price.new 1.0 1) (Quantity.make 5 0) 10).

Definition tick_agg_2 : BarAggregator :=
  state_of
    (TickBarAggregator_apply_update tick_agg_1 (Price.new 1.2 1) (Quantity.make 7 0) 20).

(** Seven trades, one for each unit of time from 1. *)
Definition seven_trades : list TradeTick :=
  (fun ts : Z => mkTradeTick (Price.new (inject_Z ts) 1) (Quantity.make 1 0) ts)
    <$> [1; 2; 3; 4; 5; 6; 7]%Z.

End aggregation.
(** * Simulated L1 order book ([orderbook/simulated.pyx]) *)
Module simulated.

Module AggressorSide.
Inductive t : Type := UNKNOWN | BUY | SELL.
End AggressorSide.

(** [Order] and [Level] of [nautilus_trader/model/orderbook] (missing): of an
    order the book gives and reads the price, the size and the side (its id,
    which the book neither gives nor reads, is left out); a level has a price
    and holds its orders by reference.  The single order of a side of the L1
    book is the object in [_top_bid] (or [_top_ask]), which is also the one
    order of the level: the level is modelled by its price.  Prices and sizes
    are C [double]s there; they are only copied and compared, so they are
    taken as the decimals they stand for. *)
Record Order : Type := mkOrder {
  price : Q;
  size : Q;
  side : OrderSide
}.

Record Level : Type := mkLevel { level_price : Q }.

Definition update_price (v : Q) (o : Order) : Order :=
  {| price := v; size := size o; side := side o |}.

Definition update_size (v : Q) (o : Order) : Order :=
  {| price := price o; size := v; side := side o |}.

(** [QuoteTick] and [TradeTick] ([nautilus_trader/model/data/tick.pyx],
    missing): the attributes the book reads. *)
Record QuoteTick : Type := mkQuoteTick {
  bid : Price.t;
  ask : Price.t;
  bid_size : Quantity.t;
  ask_size : Quantity.t
}.

Record TradeTick : Type := mkTradeTick {
  trade_price : Price.t;
  trade_size : Quantity.t;
  aggressor_side : AggressorSide.t
}.

Inductive Tick : Type :=
| a_quote (tick : QuoteTick)
| a_trade (tick : TradeTick).

Record SimulatedL1OrderBook : Type := mkBook {
  _top_bid : option Order;
  _top_ask : option Order;
  _top_bid_level : option Level;
  _top_ask_level : option Level
}.

Implicit Types (self : SimulatedL1OrderBook).

(** [SimulatedL1OrderBook.__init__] *)
Definition empty_book : SimulatedL1OrderBook :=
  {| _top_bid := None; _top_ask := None; _top_bid_level := None; _top_ask_level := None |}.

(** Modelled from the spec: [L1OrderBook._process_order]
    ([nautilus_trader/model/orderbook/book.pyx], missing), through which
    [_update_bid] and [_update_ask] pass the order they build.  The spec says
    nothing of the method itself; it has the tick set the side "to the trade
    price/size", so the order that comes back has the price, the size and the
    side of the order given: it is that order. *)
Definition _process_order (o : Order) : Order := o.

(** [SimulatedL1OrderBook._update_bid].  With no bid yet the order is added
    and its level, the top of the bids, has its price; otherwise the level and
    the order are updated in place ([None] for the level is then an
    [AttributeError]). *)
Definition _update_bid self (price size : Q) : outcome SimulatedL1OrderBook :=
  match _top_bid self with
  | None =>
      let bid := _process_order (mkOrder price size BUY) in
      Returned {| _top_bid := Some bid; _top_ask := _top_ask self;
                  _top_bid_level := Some (mkLevel (simulated.price bid));
                  _top_ask_level := _top_ask_level self |}
  | Some bid =>
      match _top_bid_level self with
      | None => Raised AttributeError self
      | Some _ =>
          Returned {| _top_bid := Some (bid |> update_price price |> update_size size);
                      _top_ask := _top_ask self;
                      _top_bid_level := Some (mkLevel price);
                      _top_ask_level := _top_ask_level self |}
      end
  end.

(** [SimulatedL1OrderBook._update_ask] *)
Definition _update_ask self (price size : Q) : outcome SimulatedL1OrderBook :=
  match _top_ask self with
  | None =>
      let ask := _process_order (mkOrder price size SELL) in
      Returned {| _top_bid := _top_bid self; _top_ask := Some ask;
                  _top_bid_level := _top_bid_level self;
                  _top_ask_level := Some (mkLevel (simulated.price ask)) |}
  | Some ask =>
      match _top_ask_level self with
      | None => Raised AttributeError self
      | Some _ =>
          Returned {| _top_bid := _top_bid self;
                      _top_ask := Some (ask |> update_price price |> update_size size);
                      _top_bid_level := _top_bid_level self;
                      _top_ask_level := Some (mkLevel price) |}
      end
  end.

(** [SimulatedL1OrderBook._update_quote_tick] *)
Definition _update_quote_tick self (tick : QuoteTick) : outcome SimulatedL1OrderBook :=
  match _update_bid self (Price.as_decimal (bid tick)) (Quantity.as_decimal (bid_size tick)) with
  | Raised e self => Raised e self
  | Returned self =>
      _update_ask self (Price.as_decimal (ask tick)) (Quantity.as_decimal (ask_size tick))
  end.

(** [SimulatedL1OrderBook._update_trade_tick] *)
Definition _update_trade_tick self (tick : TradeTick) : outcome SimulatedL1OrderBook :=
  match aggressor_side tick with
  | AggressorSide.SELL =>   (* TAKER hit the bid *)
      match _update_bid self (Price.as_decimal (trade_price tick))
                        (Quantity.as_decimal (trade_size tick)) with
      | Raised e self => Raised e self
      | Returned self =>
          match _top_ask self, _top_bid self with
          | Some ask, Some bid =>
              if dec_le (price ask) (price bid) then   (* bid.price >= ask.price *)
                match _top_ask_level self with
                | None => Raised AttributeError
                            {| _top_bid := _top_bid self;
                               _top_ask := Some (ask |> update_price (price bid));
                               _top_bid_level := _top_bid_level self;
                               _top_ask_level := None |}
                | Some _ =>
                    Returned {| _top_bid := _top_bid self;
                                _top_ask := Some (ask |> update_price (price bid));
                                _top_bid_level := _top_bid_level self;
                                _top_ask_level := Some (mkLevel (price bid)) |}
                end
              else Returned self
          | Some _, None => Raised AttributeError self
          | None, _ => Returned self
          end
      end
  | AggressorSide.BUY =>   (* TAKER lifted the offer *)
      match _update_ask self (Price.as_decimal (trade_price tick))
                        (Quantity.as_decimal (trade_size tick)) with
      | Raised e self => Raised e self
      | Returned self =>
          match _top_bid self, _top_ask self with
          | Some bid, Some ask =>
              if dec_le (price ask) (price bid) then   (* ask.price <= bid.price *)
                match _top_bid_level self with
                | None => Raised AttributeError
                            {| _top_bid := Some (bid |> update_price (price ask));
                               _top_ask := _top_ask self;
                               _top_bid_level := None;
                               _top_ask_level := _top_ask_level self |}
                | Some _ =>
                    Returned {| _top_bid := Some (bid |> update_price (price ask));
                                _top_ask := _top_ask self;
                                _top_bid_level := Some (mkLevel (price ask));
                                _top_ask_level := _top_ask_level self |}
                end
              else Returned self
          | Some _, None => Raised AttributeError self
          | None, _ => Returned self
          end
      end
  | AggressorSide.UNKNOWN => Returned self
  end.

(** [SimulatedL1OrderBook.update_tick] *)
Definition update_tick self (tick : Tick) : outcome SimulatedL1OrderBook :=
  match tick with
  | a_quote tick => _update_quote_tick self tick
  | a_trade tick => _update_trade_tick self tick
  end.

(** [SimulatedL1OrderBook.add] *)
Definition add self (order : Order) : outcome SimulatedL1OrderBook :=
  Raised NotImplementedError self.

(** The order of a side and its level come and go together, at one price. *)
Definition side_wf (o : option Order) (l : option Level) : Prop :=
  match o, l with
  | None, None => True
  | Some o, Some l => level_price l = price o
  | _, _ => False
  end.

Definition book_wf self : Prop :=
  side_wf (_top_bid self) (_top_bid_level self) /\
  side_wf (_top_ask self) (_top_ask_level self).

(** The books that exist: the empty one, then any ticks. *)
Inductive book_reachable : SimulatedL1OrderBook -> Prop :=
| book_reachable_empty : book_reachable empty_book
| book_reachable_tick self (tick : Tick) self' :
    book_reachable self ->
    state_of (update_tick self tick) = self' ->
    book_reachable self'.

(** The order of each side is marked with its side: on the bid side a BUY,
    on the ask side a SELL. *)
Definition sides_marked self : Prop :=
  (forall bid, _top_bid self = Some bid -> side bid = BUY) /\
  (forall ask, _top_ask self = Some ask -> side ask = SELL).

(** Goals on [sides_marked], once the orders are known. *)
Ltac marked_done :=
  unfold sides_marked in *; simpl in *;
  repeat match goal with H : _ /\ _ |- _ => destruct H end;
  split_and?; eauto;
  try solve [intros ? [= <-]; simpl; eauto | intros ? [=]].

(** The price a side is left at when the other side trades at [touched]: the
    trade price when the book is otherwise crossed. *)
Definition bid_after_buy (touched : Q) (bid : Order) : Q :=
  if dec_le touched (price bid) then touched else price bid.

Definition ask_after_sell (touched : Q) (ask : Order) : Q :=
  if dec_le (price ask) touched then touched else price ask.

(** The book after the quote [bid 1.00 / ask 1.01], ten on each side. *)
Definition quote_100_101 : QuoteTick :=
  mkQuoteTick (Price.new 1.00 2) (Price.new 1.01 2) (Quantity.make 10 0) (Quantity.make 10 0).

Definition quoted_book : SimulatedL1OrderBook :=
  state_of (update_tick empty_book (a_quote quote_100_101)).

Definition buy_at_102 : TradeTick :=
  mkTradeTick (Price.new 1.02 2) (Quantity.make 1 0) AggressorSide.BUY.

Definition sell_at_102 : TradeTick :=
  mkTradeTick (Price.new 1.02 2) (Quantity.make 1 0) AggressorSide.SELL.

End simulated.

(** * Stop-limit orders ([orders/stop_limit.pyx]) *)
Module stop_limit.

(** [OrderUpdated] and [OrderTriggered]
    ([nautilus_trader/model/events/order.pyx], missing): the attributes read by
    the handlers. *)
Record OrderUpdated : Type := mkOrderUpdated {
  event_venue_order_id : option string;
  event_quantity : Quantity.t;
  event_price : Price.t
}.

Record OrderTriggered : Type := mkOrderTriggered { triggered_ts_event : Z }.

(** The attributes of a [StopLimitOrder] that its own methods assign; those of
    the base classes [PassiveOrder] and [Order] ([orders/base.pyx], missing)
    that they assign are [venue_order_id], [quantity] and [price]. *)
Record StopLimitOrder : Type := mkStopLimitOrder {
  client_order_id : string;
  venue_order_id : option string;
  order_side : OrderSide;
  quantity : Quantity.t;
  price : Price.t;            (* the limit price *)
  trigger : Price.t;          (* the stop trigger price *)
  is_triggered : bool;
  is_post_only : bool;
  display_qty : option Quantity.t
}.

Implicit Types (self : StopLimitOrder).

(** [TimeInForce] ([nautilus_trader/model/c_enums/time_in_force.pyx], missing):
    the constructor of an order tells [GTD] from the other values, which are
    kept by their names. *)
Inductive TimeInForce : Type :=
| GTD
| other_time_in_force (name : string).

(** Modelled from the spec: [PassiveOrder.__init__] ([orders/base.pyx],
    missing), which [StopLimitOrder.__init__] calls through [super()].  The
    spec lists among the validation errors "negative quantity" and "missing
    [expire_time] with [GTD]"; the docstring of [StopLimitOrder] has them as
    [ValueError] "if [quantity] is not positive (> 0)" and "if
    [time_in_force] is [GTD] and the expire_time is [None]", and is followed
    on a quantity of zero.  The expire time is a [datetime], here its time
    stamp. *)
Definition PassiveOrder___init__ (quantity : Quantity.t) (time_in_force : TimeInForce)
    (expire_time : option Z) : exn + unit :=
  if negb (dec_lt 0 (Quantity.as_decimal quantity)) then inl ValueError
  else
    match time_in_force, expire_time with
    | GTD, None => inl ValueError
    | _, _ => inr tt
    end.

(** [StopLimitOrder.__init__]: the check on [display_qty], the constructor of
    the base class, then the attributes.  Of the attributes the base class
    assigns, the record keeps those the methods below read or write. *)
Definition __init__ (client_order_id : string) (order_side : OrderSide)
    (quantity : Quantity.t) (price trigger : Price.t)
    (time_in_force : TimeInForce) (expire_time : option Z) (post_only : bool)
    (display_qty : option Quantity.t) : exn + StopLimitOrder :=
  let display_ok :=
    match display_qty with
    | None => true
    | Some d => dec_le 0 (Quantity.as_decimal d)
                && dec_le (Quantity.as_decimal d) (Quantity.as_decimal quantity)
    end in
  if negb display_ok then inl ValueError
  else
    match PassiveOrder___init__ quantity time_in_force expire_time with
    | inl e => inl e
    | inr _ =>
        inr {| client_order_id := client_order_id; venue_order_id := None;
               order_side := order_side; quantity := quantity; price := price;
               trigger := trigger; is_triggered := false; is_post_only := post_only;
               display_qty := display_qty |}
    end.

(** [StopLimitOrder._updated] *)
Definition _updated self (event : OrderUpdated) : StopLimitOrder :=
  let self :=
    {| client_order_id := client_order_id self;
       venue_order_id := event_venue_order_id event;
       order_side := order_side self;
       quantity := event_quantity event;
       price := price self; trigger := trigger self; is_triggered := is_triggered self;
       is_post_only := is_post_only self; display_qty := display_qty self |} in
  if is_triggered self then
    {| client_order_id := client_order_id self; venue_order_id := venue_order_id self;
       order_side := order_side self; quantity := quantity self;
       price := event_price event;
       trigger := trigger self; is_triggered := is_triggered self;
       is_post_only := is_post_only self; display_qty := display_qty self |}
  else
    {| client_order_id := client_order_id self; venue_order_id := venue_order_id self;
       order_side := order_side self; quantity := quantity self;
       price := price self;
       trigger := event_price event;
       is_triggered := is_triggered self;
       is_post_only := is_post_only self; display_qty := display_qty self |}.

(** [StopLimitOrder._triggered] *)
Definition _triggered self (event : OrderTriggered) : StopLimitOrder :=
  {| client_order_id := client_order_id self; venue_order_id := venue_order_id self;
     order_side := order_side self; quantity := quantity self; price := price self;
     trigger := trigger self; is_triggered := true;
     is_post_only := is_post_only self; display_qty := display_qty self |}.

(** The two events that reach these handlers, and a history of them applied
    in turn. *)
Inductive handled_event : Type :=
| Updated (event : OrderUpdated)
| Triggered (event : OrderTriggered).

Definition handle self (event : handled_event) : StopLimitOrder :=
  match event with
  | Updated event => _updated self event
  | Triggered event => _triggered self event
  end.

Definition is_trigger (event : handled_event) : bool :=
  match event with Triggered _ => true | Updated _ => false end.

Definition a_stop_limit : StopLimitOrder :=
  {| client_order_id := "O-1"; venue_order_id := None; order_side := BUY;
     quantity := Quantity.make 10 0; price := Price.new 101 2; trigger := Price.new 100 2;
     is_triggered := false; is_post_only := false; display_qty := None |}.

Definition an_update : OrderUpdated :=
  mkOrderUpdated (Some "V-1") (Quantity.make 8 0) (Price.new 102.5 2).

End stop_limit.

(** * Properties

    ** Decimal comparisons *)

Lemma dec_lt_true x y : dec_lt x y = true <-> x < y.
Proof.
  unfold dec_lt. destruct (Qle_bool y x) eqn:E; simpl.
  - apply Qle_bool_iff in E. split; [discriminate | lra].
  - split; [intros _ | reflexivity].
    apply Qnot_le_lt. intros H. apply Qle_bool_iff in H. congruence.
Qed.

Lemma dec_lt_false x y : dec_lt x y = false <-> y <= x.
Proof.
  rewrite <- not_true_iff_false, dec_lt_true. split; [apply Qnot_lt_le | lra].
Qed.

Lemma dec_eq_true x y : dec_eq x y = true <-> x == y.
Proof. apply Qeq_bool_iff. Qed.

Lemma dec_eq_false x y : dec_eq x y = false <-> ~ x == y.
Proof. rewrite <- not_true_iff_false, dec_eq_true. reflexivity. Qed.

Lemma dec_div_nonzero x y : ~ y == 0 -> dec_div x y = inr (x / y).
Proof. intros H. unfold dec_div. apply dec_eq_false in H. now rewrite H. Qed.

(** ** Position *)
Module position_spec.
Import position.

Implicit Types (self : Position) (fill : OrderFilled).


Lemma open_branch_frame self fill r :
  handler_frame self (state_of (open_branch self fill r).1).
Proof.
  unfold open_branch, handler_frame.
  destruct (_calculate_avg_px_open_px self fill); simpl; tauto.
Qed.

Lemma close_branch_frame self fill r :
  handler_frame self (state_of (close_branch self fill r).1).
Proof.
  unfold close_branch, handler_frame.
  destruct (_calculate_avg_px_close_px self fill); simpl; [tauto |].
  destruct (_calculate_return _ _ _); simpl; [tauto |].
  destruct (_calculate_pnl _ _ _ _); simpl; tauto.
Qed.

Lemma handler_frame_refl self : handler_frame self self.
Proof. unfold handler_frame; tauto. Qed.

Lemma _handle_buy_order_fill_frame self fill :
  handler_frame self (state_of (_handle_buy_order_fill self fill)).
Proof.
  unfold _handle_buy_order_fill.
  pose proof (open_branch_frame self fill (initial_realized_pnl self fill)) as Ho.
  pose proof (close_branch_frame self fill (initial_realized_pnl self fill)) as Hc.
  pose proof (handler_frame_refl self) as Hr.
  destruct (dec_lt 0 (net_qty self));
    [destruct (open_branch _ _ _) as [[s|e s] r]
    |destruct (dec_lt (net_qty self) 0);
       [destruct (close_branch _ _ _) as [[s|e s] r]|]];
    unfold handler_frame in *; simpl in *; tauto.
Qed.

Lemma _handle_sell_order_fill_frame self fill :
  handler_frame self (state_of (_handle_sell_order_fill self fill)).
Proof.
  unfold _handle_sell_order_fill.
  pose proof (open_branch_frame self fill (initial_realized_pnl self fill)) as Ho.
  pose proof (close_branch_frame self fill (initial_realized_pnl self fill)) as Hc.
  pose proof (handler_frame_refl self) as Hr.
  destruct (dec_lt (net_qty self) 0);
    [destruct (open_branch _ _ _) as [[s|e s] r]
    |destruct (dec_lt 0 (net_qty self));
       [destruct (close_branch _ _ _) as [[s|e s] r]|]];
    unfold handler_frame in *; simpl in *; tauto.
Qed.

Lemma handle_fill_frame self fill : handler_frame self (state_of (handle_fill self fill)).
Proof.
  unfold handle_fill. destruct (OrderFilled.order_side fill);
    [apply _handle_buy_order_fill_frame | apply _handle_sell_order_fill_frame].
Qed.

Lemma apply_unfold self fill :
  apply self fill =
  if bool_decide (OrderFilled.execution_id fill ∈ _execution_ids self)
  then Raised KeyError self
  else match handle_fill (recorded self fill) fill with
       | Raised e s => Raised e s
       | Returned s => settle s fill
       end.
Proof. reflexivity. Qed.

Lemma Quantity_new_abs (x : Q) (precision : nat) :
  Quantity.new (Qabs x) precision = inr (Quantity.make (Qabs x) precision).
Proof.
  unfold Quantity.new.
  assert (dec_lt (Qabs x) 0 = false) as ->; [| reflexivity].
  apply dec_lt_false, Qabs_nonneg.
Qed.

Lemma settle_returns self fill : exists self', settle self fill = Returned self'.
Proof. unfold settle. rewrite Quantity_new_abs. eexists; reflexivity. Qed.

Lemma settle_frame self fill self' :
  settle self fill = Returned self' ->
  _events self' = _events self /\
  _execution_ids self' = _execution_ids self /\
  _commissions self' = _commissions self /\
  cost_currency self' = cost_currency self /\
  quote_currency self' = quote_currency self /\
  base_currency self' = base_currency self /\
  is_inverse self' = is_inverse self /\
  multiplier self' = multiplier self /\
  ts_opened self' = ts_opened self /\
  net_qty self' = net_qty self /\
  realized_pnl self' = realized_pnl self /\
  avg_px_open self' = avg_px_open self /\
  avg_px_close self' = avg_px_close self.
Proof.
  unfold settle. rewrite Quantity_new_abs. cbv beta iota zeta.
  repeat match goal with |- context [dec_lt ?a ?b] => destruct (dec_lt a b) end;
    intros [= <-]; repeat split; reflexivity.
Qed.



(** ** Reachable positions *)

Lemma apply_frame self fill :
  let self' := state_of (apply self fill) in
  cost_currency self' = cost_currency self /\
  quote_currency self' = quote_currency self /\
  base_currency self' = base_currency self /\
  is_inverse self' = is_inverse self /\
  ts_opened self' = ts_opened self /\
  (Money.currency (realized_pnl self) = cost_currency self ->
   Money.currency (realized_pnl self') = cost_currency self').
Proof.
  rewrite apply_unfold. case_bool_decide; simpl; [tauto |].
  pose proof (handle_fill_frame (recorded self fill) fill) as Hh.
  destruct (handle_fill (recorded self fill) fill) as [s | e s]; simpl in Hh.
  - destruct (settle_returns s fill) as [s' Hs']. rewrite Hs'. simpl.
    destruct (settle_frame s fill s' Hs')
      as (_ & _ & _ & -> & -> & -> & -> & _ & -> & _ & -> & _).
    unfold handler_frame in Hh. simpl in Hh. intuition.
  - unfold handler_frame in Hh. simpl in *. intuition.
Qed.

Lemma apply_ids self fill :
  let self' := state_of (apply self fill) in
  (OrderFilled.execution_id fill ∈ _execution_ids self ->
   _events self' = _events self /\ _execution_ids self' = _execution_ids self) /\
  (OrderFilled.execution_id fill ∉ _execution_ids self ->
   _events self' = _events self ++ [fill] /\
   _execution_ids self' = _execution_ids self ++ [OrderFilled.execution_id fill]).
Proof.
  rewrite apply_unfold. case_bool_decide; simpl; [tauto |].
  split; [tauto | intros _].
  pose proof (handle_fill_frame (recorded self fill) fill) as Hh.
  destruct (handle_fill (recorded self fill) fill) as [s | e s]; simpl in Hh.
  - destruct (settle_returns s fill) as [s' Hs']. rewrite Hs'. simpl.
    destruct (settle_frame s fill s' Hs') as (-> & -> & _).
    unfold handler_frame in Hh. simpl in Hh. intuition.
  - unfold handler_frame in Hh. simpl in *. intuition.
Qed.

Lemma apply_inv self fill : position_inv self -> position_inv (state_of (apply self fill)).
Proof.
  intros (Hids & Hnd & Hccy & Hinv & Hstd).
  pose proof (apply_frame self fill) as Hf. pose proof (apply_ids self fill) as Hi.
  simpl in Hf, Hi. destruct Hf as (Hc & Hq & Hb & Hi' & _ & Hr). destruct Hi as [Hdup Hnew].
  unfold position_inv, execution_ids_c in *. rewrite Hc in Hr. rewrite Hc, Hq, Hb, Hi'.
  destruct (decide (OrderFilled.execution_id fill ∈ _execution_ids self)) as [Hin | Hin].
  - destruct (Hdup Hin) as [-> ->]. repeat split; auto.
  - destruct (Hnew Hin) as [-> ->]. rewrite fmap_app. simpl. rewrite <- Hids.
    repeat split; auto.
    apply NoDup_app. repeat split; [assumption | | apply NoDup_singleton].
    intros x Hx Hx'. apply list_elem_of_singleton in Hx'. subst x. contradiction.
Qed.

Lemma reachable_inv self : reachable self -> position_inv self.
Proof.
  induction 1 as [instrument fill self Hinit | self fill self' _ IH <-];
    [| now apply apply_inv].
  unfold __init__ in Hinit.
  destruct (negb _); [discriminate |].
  destruct (OrderFilled.position_id fill) as [pid |]; [| discriminate].
  destruct (Instrument.get_cost_currency instrument) as [cost |] eqn:Hcost; [| discriminate].
  injection Hinit as Hinit.
  match type of Hinit with apply ?s fill = _ => pose proof (apply_inv s fill) as Hinv end.
  rewrite Hinit in Hinv. apply Hinv.
  unfold position_inv, execution_ids_c, Instrument.get_cost_currency,
    Instrument.get_base_currency in *; simpl.
  repeat split; auto using NoDup_nil_2.
  - intros Hi. rewrite Hi in Hcost. assumption.
  - intros Hi. rewrite Hi in Hcost. congruence.
Qed.


(** ** Duplicate fills *)

Lemma apply_duplicate self fill :
  OrderFilled.execution_id fill ∈ _execution_ids self -> apply self fill = Raised KeyError self.
Proof. intros Hin. rewrite apply_unfold. now rewrite bool_decide_true. Qed.

(** C4.  A fill whose execution id the position has already applied makes
    [apply] raise the duplicate error ([KeyError], from [Condition.not_in])
    and leaves the position as it was, every field included; and in every
    position that exists the private list of applied ids is the list of the
    ids of its events, without repetition. *)
Theorem duplicate_fill_rejected :
  (forall self fill,
      OrderFilled.execution_id fill ∈ _execution_ids self ->
      apply self fill = Raised KeyError self) /\
  (forall self,
      reachable self ->
      _execution_ids self = execution_ids_c self /\ NoDup (execution_ids_c self)).
Proof.
  split; [exact apply_duplicate |].
  intros self Hr. destruct (reachable_inv self Hr) as (Hids & Hnd & _).
  split; [assumption | now rewrite <- Hids].
Qed.

(** ** Side and sign of the net quantity *)

(** The side [settle] leaves follows the sign of the net quantity, which it
    does not change. *)
Lemma settle_side self fill self' :
  settle self fill = Returned self' ->
  (0 < net_qty self' -> side self' = LONG) /\
  (net_qty self' < 0 -> side self' = SHORT) /\
  (net_qty self' == 0 -> side self' = FLAT) /\
  (side self' = FLAT ->
     net_qty self' == 0 /\
     ts_closed self' = OrderFilled.ts_event fill /\
     duration_ns self' = (ts_closed self' - ts_opened self')%Z).
Proof.
  unfold settle. rewrite Quantity_new_abs. simpl.
  destruct (dec_lt (Quantity.as_decimal (peak_qty self)) (Qabs (net_qty self))); simpl;
    (destruct (dec_lt 0 (net_qty self)) eqn:Hpos;
       [| destruct (dec_lt (net_qty self) 0) eqn:Hneg]);
    intros [= <-]; simpl;
    rewrite ?dec_lt_true, ?dec_lt_false in *;
    repeat split; try (intros; first [reflexivity | discriminate | lra | congruence]).
Qed.

(** C5.  After a fill that [apply] accepted, the side is [LONG], [SHORT] or
    [FLAT] as the net quantity is positive, negative or zero; and when the
    position is back to [FLAT], [ts_closed] is the time of the fill and
    [duration_ns] is [ts_closed - ts_opened] ([ts_opened] being the one the
    position had). *)
Theorem side_sign_invariant self fill self' :
  apply self fill = Returned self' ->
  (0 < net_qty self' -> side self' = LONG) /\
  (net_qty self' < 0 -> side self' = SHORT) /\
  (net_qty self' == 0 -> side self' = FLAT) /\
  (side self' = FLAT ->
     net_qty self' == 0 /\
     ts_closed self' = OrderFilled.ts_event fill /\
     duration_ns self' = (ts_closed self' - ts_opened self')%Z /\
     ts_opened self' = ts_opened self).
Proof.
  rewrite apply_unfold. case_bool_decide; [discriminate |].
  pose proof (handle_fill_frame (recorded self fill) fill) as Hframe.
  destruct (handle_fill (recorded self fill) fill) as [s | e s]; [| discriminate].
  intros Hsettle.
  destruct Hframe as (_ & _ & _ & _ & _ & _ & _ & _ & _ & Hopened & _). simpl in Hopened.
  destruct (settle_frame s fill self' Hsettle)
    as (_ & _ & _ & _ & _ & _ & _ & _ & Hopened' & _).
  destruct (settle_side s fill self' Hsettle) as (Hlong & Hshort & Hflat & Hclosed).
  split_and!; try assumption.
  intros Hside. destruct (Hclosed Hside) as (Hzero & Hts & Hduration).
  split_and!; try assumption. congruence.
Qed.

(** ** Commissions *)

Lemma _calculate_pnl_recorded self fill o c q :
  _calculate_pnl (recorded self fill) o c q = _calculate_pnl self o c q.
Proof. reflexivity. Qed.

(** The PnL a handler adds to [realized_pnl]: the commission when it is in the
    cost currency, and the PnL of the fill when the fill closes. *)
Lemma handle_fill_realized_pnl self fill s :
  handle_fill self fill = Returned s ->
  exists pnl,
    (if closes self fill
     then _calculate_pnl self (avg_px_open self)
            (Price.as_decimal (OrderFilled.last_px fill))
            (Quantity.as_decimal (OrderFilled.last_qty fill)) = inr pnl
     else pnl = 0) /\
    Money.as_decimal (realized_pnl s) ==
      Money.as_decimal (realized_pnl self) + pnl
      - (if bool_decide (Money.currency (OrderFilled.commission fill) = cost_currency self)
         then Money.as_decimal (OrderFilled.commission fill) else 0) /\
    Money.currency (realized_pnl s) = cost_currency self.
Proof.
  unfold handle_fill, closes, _handle_buy_order_fill, _handle_sell_order_fill,
    open_branch, close_branch, initial_realized_pnl.
  destruct (OrderFilled.order_side fill).
  - destruct (dec_lt 0 (net_qty self)) eqn:Hpos.
    + assert (dec_lt (net_qty self) 0 = false) as ->.
      { apply dec_lt_true in Hpos. apply dec_lt_false. lra. }
      destruct (_calculate_avg_px_open_px self fill); [discriminate |].
      intros [= <-]. exists 0. split; [reflexivity |]. simpl.
      split; [case_bool_decide; lra | reflexivity].
    + destruct (dec_lt (net_qty self) 0).
      * destruct (_calculate_avg_px_close_px self fill); [discriminate |].
        destruct (_calculate_return _ _ _); [discriminate |].
        destruct (_calculate_pnl _ _ _ _) as [| pnl] eqn:Hpnl; [discriminate |].
        intros [= <-]. exists pnl. split; [first [exact Hpnl | reflexivity] |]. simpl.
        split; [case_bool_decide; lra | reflexivity].
      * intros [= <-]. exists 0. split; [reflexivity |]. simpl.
        split; [case_bool_decide; lra | reflexivity].
  - destruct (dec_lt (net_qty self) 0) eqn:Hneg.
    + assert (dec_lt 0 (net_qty self) = false) as ->.
      { apply dec_lt_true in Hneg. apply dec_lt_false. lra. }
      destruct (_calculate_avg_px_open_px self fill); [discriminate |].
      intros [= <-]. exists 0. split; [reflexivity |]. simpl.
      split; [case_bool_decide; lra | reflexivity].
    + destruct (dec_lt 0 (net_qty self)).
      * destruct (_calculate_avg_px_close_px self fill); [discriminate |].
        destruct (_calculate_return _ _ _); [discriminate |].
        destruct (_calculate_pnl _ _ _ _) as [| pnl] eqn:Hpnl; [discriminate |].
        intros [= <-]. exists pnl. split; [first [exact Hpnl | reflexivity] |]. simpl.
        split; [case_bool_decide; lra | reflexivity].
      * intros [= <-]. exists 0. split; [reflexivity |]. simpl.
        split; [case_bool_decide; lra | reflexivity].
Qed.

(** C8.  For a fill that [apply] accepted: the realized PnL moves by the PnL of
    the fill (that of [_calculate_pnl] on the fill's price and quantity when
    the fill closes, nothing otherwise) less the commission when the
    commission is in the cost currency, and less nothing when it is not; and
    whatever its currency, the commission is added to the entry of the
    commissions map under its own currency, the other entries being left as
    they were. *)
Theorem commission_handling self fill self' :
  apply self fill = Returned self' ->
  let c := OrderFilled.commission fill in
  (exists pnl,
     (if closes self fill
      then _calculate_pnl self (avg_px_open self)
             (Price.as_decimal (OrderFilled.last_px fill))
             (Quantity.as_decimal (OrderFilled.last_qty fill)) = inr pnl
      else pnl = 0) /\
     Money.as_decimal (realized_pnl self') ==
       Money.as_decimal (realized_pnl self) + pnl
       - (if bool_decide (Money.currency c = cost_currency self)
          then Money.as_decimal c else 0)) /\
  Money.currency (realized_pnl self') = cost_currency self /\
  _commissions self' !! Money.currency c =
    Some (Money.new (default 0 (Money.as_decimal <$> _commissions self !! Money.currency c)
                     + Money.as_decimal c) (Money.currency c)) /\
  (forall k, k ≠ Money.currency c -> _commissions self' !! k = _commissions self !! k).
Proof.
  rewrite apply_unfold. case_bool_decide; [discriminate |].
  pose proof (handle_fill_frame (recorded self fill) fill) as Hh.
  destruct (handle_fill (recorded self fill) fill) as [s | e s] eqn:Hs; [| discriminate].
  intros Hset.
  destruct (settle_frame s fill self' Hset)
    as (_ & _ & Hcom & _ & _ & _ & _ & _ & _ & _ & Hpnl & _).
  destruct Hh as (_ & _ & Hcom' & _). simpl in Hcom'.
  apply handle_fill_realized_pnl in Hs. destruct Hs as (pnl & Hfill & Hamount & Hccy).
  simpl. rewrite Hpnl, Hcom, Hcom'.
  split; [exists pnl; split; assumption |].
  split; [exact Hccy |].
  split; [apply lookup_insert_eq | intros k Hk; now apply lookup_insert_ne].
Qed.

(** ** The two regimes met by the flip scenario *)

Lemma handle_buy_from_zero self fill :
  OrderFilled.order_side fill = BUY ->
  net_qty self == 0 ->
  exists s,
    handle_fill self fill = Returned s /\
    Money.as_decimal (realized_pnl s) ==
      Money.as_decimal (realized_pnl self) - commission_in_cost_ccy self fill /\
    net_qty s = net_qty self + Quantity.as_decimal (OrderFilled.last_qty fill) /\
    avg_px_open s = avg_px_open self /\
    avg_px_close s = avg_px_close self.
Proof.
  intros Hside Hzero. unfold handle_fill. rewrite Hside. unfold _handle_buy_order_fill.
  assert (dec_lt 0 (net_qty self) = false) as -> by (apply dec_lt_false; lra).
  assert (dec_lt (net_qty self) 0 = false) as -> by (apply dec_lt_false; lra).
  eexists. split; [reflexivity |]. simpl.
  unfold initial_realized_pnl, commission_in_cost_ccy.
  repeat split; try reflexivity. case_bool_decide; lra.
Qed.

Lemma handle_sell_on_long self fill :
  OrderFilled.order_side fill = SELL ->
  0 < net_qty self ->
  side self = LONG ->
  avg_px_close self = None ->
  ~ avg_px_open self == 0 ->
  is_inverse self = false ->
  exists s,
    handle_fill self fill = Returned s /\
    Money.as_decimal (realized_pnl s) ==
      Money.as_decimal (realized_pnl self)
      + Quantity.as_decimal (OrderFilled.last_qty fill) * multiplier self
        * (Price.as_decimal (OrderFilled.last_px fill) - avg_px_open self)
      - commission_in_cost_ccy self fill /\
    net_qty s = net_qty self - Quantity.as_decimal (OrderFilled.last_qty fill) /\
    avg_px_open s = avg_px_open self /\
    avg_px_close s = Some (Price.as_decimal (OrderFilled.last_px fill)).
Proof.
  intros Hside Hpos Hlong Hclose Hopen Hinv.
  unfold handle_fill. rewrite Hside. unfold _handle_sell_order_fill.
  assert (dec_lt (net_qty self) 0 = false) as -> by (apply dec_lt_false; lra).
  assert (dec_lt 0 (net_qty self) = true) as -> by (now apply dec_lt_true).
  unfold close_branch, _calculate_avg_px_close_px. rewrite Hclose.
  unfold _calculate_return, _calculate_pnl, _calculate_points. simpl.
  rewrite Hlong, Hinv, dec_div_nonzero by assumption.
  eexists. split; [reflexivity |]. simpl.
  unfold initial_realized_pnl, commission_in_cost_ccy.
  repeat split; try reflexivity. case_bool_decide; lra.
Qed.

(** [apply], given what the handler returned. *)
Lemma apply_returns self fill s :
  OrderFilled.execution_id fill ∉ _execution_ids self ->
  handle_fill (recorded self fill) fill = Returned s ->
  exists self',
    apply self fill = Returned self' /\
    realized_pnl self' = realized_pnl s /\
    net_qty self' = net_qty s /\
    avg_px_open self' = avg_px_open s /\
    avg_px_close self' = avg_px_close s /\
    multiplier self' = multiplier self /\
    is_inverse self' = is_inverse self /\
    cost_currency self' = cost_currency self /\
    _execution_ids self' = _execution_ids self ++ [OrderFilled.execution_id fill] /\
    (0 < net_qty self' -> side self' = LONG) /\
    (net_qty self' < 0 -> side self' = SHORT).
Proof.
  intros Hnew Hs. rewrite apply_unfold, bool_decide_false by assumption.
  pose proof (handle_fill_frame (recorded self fill) fill) as Hh.
  rewrite Hs in *. simpl in Hh.
  destruct Hh as (_ & Hids & _ & Hc & _ & _ & Hi & Hm & _).
  destruct (settle_returns s fill) as [self' Hset]. exists self'.
  destruct (settle_side s fill self' Hset) as (Hlong & Hshort & _).
  destruct (settle_frame s fill self' Hset)
    as (_ & -> & _ & -> & _ & _ & -> & -> & _ & Hnet & -> & -> & ->).
  split_and!; auto.
Qed.

(** ** Position flip *)

(** C1, as the code has it.  A position opened by a BUY fill of 5 at 10.00 on
    a standard (not inverse) instrument, to which a SELL fill of 8 at 12.00
    is applied, no commission being in the cost currency: the realized PnL is
    that of the whole fill, [8 * (12 - 10) * multiplier]; the side is [SHORT]
    and the net quantity -3; [avg_px_open] stays 10.00; [avg_px_close] is
    12.00. *)
Theorem position_flip_realizes_whole_fill
    (instrument : Instrument.t) (fill1 fill2 : OrderFilled) :
  Instrument.is_inverse instrument = false ->
  Instrument.id instrument = OrderFilled.instrument_id fill1 ->
  is_Some (OrderFilled.position_id fill1) ->
  OrderFilled.order_side fill1 = BUY ->
  Quantity.as_decimal (OrderFilled.last_qty fill1) == 5 ->
  Price.as_decimal (OrderFilled.last_px fill1) == 10 ->
  OrderFilled.order_side fill2 = SELL ->
  Quantity.as_decimal (OrderFilled.last_qty fill2) == 8 ->
  Price.as_decimal (OrderFilled.last_px fill2) == 12 ->
  OrderFilled.execution_id fill2 ≠ OrderFilled.execution_id fill1 ->
  (Money.currency (OrderFilled.commission fill1) = Instrument.quote_currency instrument ->
   Money.as_decimal (OrderFilled.commission fill1) == 0) ->
  (Money.currency (OrderFilled.commission fill2) = Instrument.quote_currency instrument ->
   Money.as_decimal (OrderFilled.commission fill2) == 0) ->
  exists p1 p2,
    __init__ instrument fill1 = inr (Returned p1) /\
    apply p1 fill2 = Returned p2 /\
    Money.as_decimal (realized_pnl p2) == 8 * (12 - 10) * Instrument.multiplier instrument /\
    Money.currency (realized_pnl p2) = Instrument.quote_currency instrument /\
    side p2 = SHORT /\
    net_qty p2 == -3 /\
    avg_px_open p2 == 10 /\
    (exists px, avg_px_close p2 = Some px /\ px == 12).
Proof.
  intros Hinv Hid [pid Hpid] Hside1 Hq1 Hpx1 Hside2 Hq2 Hpx2 Hne Hc1 Hc2.
  unfold __init__. rewrite bool_decide_true by assumption. simpl negb. cbv iota.
  rewrite Hpid. unfold Instrument.get_cost_currency. rewrite Hinv.
  match goal with |- context [apply ?s fill1] => set (self0 := s) end.
  (* the opening fill *)
  destruct (handle_buy_from_zero (recorded self0 fill1) fill1 Hside1)
    as (s1 & Hs1 & Hr1 & Hn1 & Ho1 & Hcl1); [reflexivity |].
  destruct (apply_returns self0 fill1 s1)
    as (p1 & Hp1 & Er1 & En1 & Eo1 & Ecl1 & Em1 & Ei1 & Ec1 & Eids1 & Hlong & _);
    [apply not_elem_of_nil | exact Hs1 |].
  exists p1.
  rewrite <- Er1 in Hr1. rewrite <- En1 in Hn1. rewrite <- Eo1 in Ho1. rewrite <- Ecl1 in Hcl1.
  assert (net_qty p1 == 5) as Hnet1 by (rewrite Hn1; simpl; lra).
  assert (commission_in_cost_ccy (recorded self0 fill1) fill1 == 0) as Hcc1.
  { unfold commission_in_cost_ccy. simpl. case_bool_decide; [auto | reflexivity]. }
  simpl in Hr1, Ho1, Hcl1, Em1, Ei1, Ec1, Eids1.
  (* the fill on the other side *)
  destruct (handle_sell_on_long (recorded p1 fill2) fill2 Hside2)
    as (s2 & Hs2 & Hr2 & Hn2 & Ho2 & Hcl2).
  { change (0 < net_qty p1). lra. }
  { change (side p1 = LONG). apply Hlong. lra. }
  { exact Hcl1. }
  { change (~ avg_px_open p1 == 0). rewrite Ho1. lra. }
  { exact Ei1. }
  destruct (apply_returns p1 fill2 s2)
    as (p2 & Hp2 & Er2 & En2 & Eo2 & Ecl2 & Em2 & Ei2 & Ec2 & _ & _ & Hshort);
    [| exact Hs2 |].
  { rewrite Eids1. intros Hin. apply list_elem_of_singleton in Hin. contradiction. }
  exists p2.
  assert (commission_in_cost_ccy (recorded p1 fill2) fill2 == 0) as Hcc2.
  { unfold commission_in_cost_ccy. simpl. rewrite Ec1. case_bool_decide; [auto | reflexivity]. }
  change (net_qty (recorded p1 fill2)) with (net_qty p1) in Hn2.
  change (avg_px_open (recorded p1 fill2)) with (avg_px_open p1) in *.
  change (multiplier (recorded p1 fill2)) with (multiplier p1) in Hr2.
  change (realized_pnl (recorded p1 fill2)) with (realized_pnl p1) in Hr2.
  assert (net_qty p2 == -3) as Hnet2 by (rewrite En2, Hn2; lra).
  split; [now rewrite Hp1 |]. split; [exact Hp2 |].
  split.
  { rewrite Er2, Hr2, Hr1, Hcc1, Hcc2, Hq2, Hpx2, Ho1, Hpx1, Em1. ring. }
  split.
  { destruct (apply_frame p1 fill2) as (_ & _ & _ & _ & _ & Hccy). rewrite Hp2 in Hccy.
    simpl in Hccy. rewrite Hccy, Ec2, Ec1; [reflexivity |].
    destruct (apply_frame self0 fill1) as (_ & _ & _ & _ & _ & Hccy1). rewrite Hp1 in Hccy1.
    simpl in Hccy1. rewrite Hccy1, Ec1; reflexivity. }
  split; [apply Hshort; lra |].
  split; [exact Hnet2 |].
  split; [rewrite Eo2, Ho2, Ho1; exact Hpx1 |].
  exists (Price.as_decimal (OrderFilled.last_px fill2)).
  split; [rewrite Ecl2; exact Hcl2 | exact Hpx2].
Qed.

(** The flip scenario, run: the PnL realized is 16, not 10, and the average
    open price is still 10, so the values the specification expects are not
    the ones the code produces. *)
Lemma position_flip_expected_values_fail :
  run AAPL buy_5_at_10 [sell_8_at_12] = Some flipped /\
  Money.as_decimal (realized_pnl flipped) == 16 /\
  avg_px_open flipped == 10 /\
  ~ (Money.as_decimal (realized_pnl flipped) == 5 * (12 - 10) * Instrument.multiplier AAPL /\
     side flipped = SHORT /\
     net_qty flipped == -3 /\
     avg_px_open flipped == 12 /\
     (exists px, avg_px_close flipped = Some px /\ px == 12)).
Proof.
  split; [vm_compute; reflexivity |].
  split; [vm_compute; reflexivity |].
  split; [vm_compute; reflexivity |].
  intros (H & _). vm_compute in H. discriminate.
Qed.

Lemma position_flip_witness :
  exists p1 p2,
    __init__ AAPL buy_5_at_10 = inr (Returned p1) /\
    apply p1 sell_8_at_12 = Returned p2 /\
    Money.as_decimal (realized_pnl p2) == 8 * (12 - 10) * Instrument.multiplier AAPL /\
    Money.currency (realized_pnl p2) = Instrument.quote_currency AAPL /\
    side p2 = SHORT /\
    net_qty p2 == -3 /\
    avg_px_open p2 == 10 /\
    (exists px, avg_px_close p2 = Some px /\ px == 12).
Proof.
  apply (position_flip_realizes_whole_fill AAPL buy_5_at_10 sell_8_at_12);
    try reflexivity.
  - exists "P-1"%string. reflexivity.
  - discriminate.
  - discriminate.
  - discriminate.
Defined.

Lemma long_5_reachable : reachable long_5.
Proof.
  apply (reachable_init AAPL buy_5_at_10). vm_compute. reflexivity.
Qed.

Lemma duplicate_fill_rejected_witness :
  apply long_5 buy_5_at_10 = Raised KeyError long_5 /\
  _execution_ids long_5 = execution_ids_c long_5 /\ NoDup (execution_ids_c long_5).
Proof.
  split.
  - apply (proj1 duplicate_fill_rejected). vm_compute. left.
  - apply (proj2 duplicate_fill_rejected). exact long_5_reachable.
Defined.

Lemma side_sign_invariant_witness :
  (0 < net_qty flipped -> side flipped = LONG) /\
  (net_qty flipped < 0 -> side flipped = SHORT) /\
  (net_qty flipped == 0 -> side flipped = FLAT) /\
  (side flipped = FLAT ->
     net_qty flipped == 0 /\
     ts_closed flipped = OrderFilled.ts_event sell_8_at_12 /\
     duration_ns flipped = (ts_closed flipped - ts_opened flipped)%Z /\
     ts_opened flipped = ts_opened long_5).
Proof.
  apply (side_sign_invariant long_5 sell_8_at_12 flipped). vm_compute. reflexivity.
Defined.

Lemma commission_handling_witness :
  exists closed,
    apply long_5 sell_5_at_12 = Returned closed /\
    Money.as_decimal (realized_pnl closed) == 5 * (12 - 10) - 2 /\
    _commissions closed !! "USD" = Some (Money.new (0 + 2) "USD") /\
    _commissions closed !! "EUR" = Some (Money.new 0.5 "EUR").
Proof.
  destruct (apply long_5 sell_5_at_12) as [closed | e s] eqn:Happly;
    [| vm_compute in Happly; discriminate].
  exists closed. split; [reflexivity |].
  destruct (commission_handling long_5 sell_5_at_12 closed Happly)
    as ((pnl & Hpnl & Hreal) & _ & Hcom & Hother).
  split; [| split; [exact Hcom |]].
  - vm_compute in Hpnl. injection Hpnl as <-. rewrite Hreal. vm_compute. reflexivity.
  - rewrite (Hother "EUR"%string) by discriminate. vm_compute. reflexivity.
Defined.

(** ** Unrealized PnL of a flat position *)






(** ** The course of [apply] *)

Lemma __init___unfold instrument fill :
  __init__ instrument fill =
  if negb (bool_decide (Instrument.id instrument = OrderFilled.instrument_id fill))
  then inl ValueError
  else match OrderFilled.position_id fill with
       | None => inl TypeError
       | Some pid =>
           match Instrument.get_cost_currency instrument with
           | None => inl TypeError
           | Some cost => inr (apply (blank instrument fill pid cost) fill)
           end
       end.
Proof. reflexivity. Qed.

(** [apply] refuses a duplicate, or records the fill and then either the
    handler raises or the tail of [apply] completes. *)
Lemma apply_cases self fill :
  (OrderFilled.execution_id fill ∈ _execution_ids self /\
   apply self fill = Raised KeyError self) \/
  ((OrderFilled.execution_id fill ∉ _execution_ids self) /\
   exists e s,
     handle_fill (recorded self fill) fill = Raised e s /\ apply self fill = Raised e s) \/
  ((OrderFilled.execution_id fill ∉ _execution_ids self) /\
   exists s self',
     handle_fill (recorded self fill) fill = Returned s /\
     settle s fill = Returned self' /\
     apply self fill = Returned self').
Proof.
  rewrite apply_unfold. case_bool_decide as Hin; [left; tauto | right].
  destruct (handle_fill (recorded self fill) fill) as [s | e s] eqn:Hh.
  - right. destruct (settle_returns s fill) as [s' Hs']. split; [assumption |].
    exists s, s'. rewrite Hs'. auto.
  - left. split; [assumption |]. eauto.
Qed.

Lemma open_branch_same self fill r :
  same_identity self (state_of (open_branch self fill r).1) /\
  same_quantities self (state_of (open_branch self fill r).1).
Proof.
  unfold open_branch, same_identity, same_quantities.
  destruct (_calculate_avg_px_open_px self fill); simpl; tauto.
Qed.

Lemma close_branch_same self fill r :
  same_identity self (state_of (close_branch self fill r).1) /\
  same_quantities self (state_of (close_branch self fill r).1).
Proof.
  unfold close_branch, same_identity, same_quantities.
  destruct (_calculate_avg_px_close_px self fill); simpl; [tauto |].
  destruct (_calculate_return _ _ _); simpl; [tauto |].
  destruct (_calculate_pnl _ _ _ _); simpl; tauto.
Qed.

Lemma same_refl self : same_identity self self /\ same_quantities self self.
Proof. unfold same_identity, same_quantities; tauto. Qed.

Lemma handle_fill_same_identity self fill :
  same_identity self (state_of (handle_fill self fill)).
Proof.
  unfold handle_fill, _handle_buy_order_fill, _handle_sell_order_fill.
  pose proof (open_branch_same self fill (initial_realized_pnl self fill)) as [Ho _].
  pose proof (close_branch_same self fill (initial_realized_pnl self fill)) as [Hc _].
  pose proof (same_refl self) as [Hr _].
  destruct (OrderFilled.order_side fill);
    destruct (dec_lt 0 (net_qty self)); destruct (dec_lt (net_qty self) 0);
    try destruct (open_branch _ _ _) as [[so|eo so] ro];
    try destruct (close_branch _ _ _) as [[sc|ec sc] rc];
    unfold same_identity in *; simpl in *; tauto.
Qed.

Lemma handle_fill_raised self fill e s :
  handle_fill self fill = Raised e s -> same_quantities self s.
Proof.
  unfold handle_fill, _handle_buy_order_fill, _handle_sell_order_fill.
  pose proof (open_branch_same self fill (initial_realized_pnl self fill)) as [_ Ho].
  pose proof (close_branch_same self fill (initial_realized_pnl self fill)) as [_ Hc].
  destruct (OrderFilled.order_side fill);
    destruct (dec_lt 0 (net_qty self)); destruct (dec_lt (net_qty self) 0);
    try destruct (open_branch _ _ _) as [[so|eo so] ro];
    try destruct (close_branch _ _ _) as [[sc|ec sc] rc];
    simpl in *; intros [= <- <-] || discriminate; assumption.
Qed.

(** A handler that returns has moved the bought or the sold total, and the
    net quantity with it, by the quantity of the fill. *)
Lemma handle_fill_returned self fill s :
  handle_fill self fill = Returned s ->
  let q := Quantity.as_decimal (OrderFilled.last_qty fill) in
  quantity s = quantity self /\ peak_qty s = peak_qty self /\
  match OrderFilled.order_side fill with
  | BUY =>
      _buy_qty s = _buy_qty self + q /\ _sell_qty s = _sell_qty self /\
      net_qty s = net_qty self + q
  | SELL =>
      _buy_qty s = _buy_qty self /\ _sell_qty s = _sell_qty self + q /\
      net_qty s = net_qty self - q
  end.
Proof.
  unfold handle_fill, _handle_buy_order_fill, _handle_sell_order_fill.
  pose proof (open_branch_same self fill (initial_realized_pnl self fill)) as [_ Ho].
  pose proof (close_branch_same self fill (initial_realized_pnl self fill)) as [_ Hc].
  destruct (OrderFilled.order_side fill);
    destruct (dec_lt 0 (net_qty self)); destruct (dec_lt (net_qty self) 0);
    try destruct (open_branch _ _ _) as [[so|eo so] ro];
    try destruct (close_branch _ _ _) as [[sc|ec sc] rc];
    unfold same_quantities in *; simpl in *;
    intros [= <-] || discriminate; simpl;
    intuition congruence.
Qed.

Lemma recorded_same self fill :
  same_identity self (recorded self fill) /\ same_quantities self (recorded self fill).
Proof. unfold same_identity, same_quantities, recorded; simpl; tauto. Qed.

(** The tail of [apply]: the quantity is the size of the net quantity, the
    peak quantity follows it upwards. *)
Lemma settle_quantities self fill self' :
  settle self fill = Returned self' ->
  same_identity self self' /\
  _buy_qty self' = _buy_qty self /\
  _sell_qty self' = _sell_qty self /\
  net_qty self' = net_qty self /\
  quantity self' = Quantity.make (Qabs (net_qty self)) (size_precision self) /\
  peak_qty self' =
    (if dec_lt (Quantity.as_decimal (peak_qty self)) (Qabs (net_qty self))
     then Quantity.make (Qabs (net_qty self)) (size_precision self)
     else peak_qty self) /\
  ts_last self' = OrderFilled.ts_event fill.
Proof.
  unfold settle. rewrite Quantity_new_abs. simpl.
  destruct (dec_lt (Quantity.as_decimal (peak_qty self)) (Qabs (net_qty self))); simpl;
    (destruct (dec_lt 0 (net_qty self));
       [| destruct (dec_lt (net_qty self) 0)]);
    intros [= <-]; unfold same_identity; simpl; tauto.
Qed.

(** Every position that exists comes from the object [__init__] hands to
    [apply], by calls of [apply]. *)
Lemma reachable_from_blank (P : Position -> Prop) :
  (forall instrument fill pid cost,
      Instrument.get_cost_currency instrument = Some cost ->
      P (blank instrument fill pid cost)) ->
  (forall self fill, P self -> P (state_of (apply self fill))) ->
  forall self, reachable self -> P self.
Proof.
  intros Hblank Hstep self.
  induction 1 as [instrument fill self Hinit | self fill self' _ IH <-]; [| now apply Hstep].
  rewrite __init___unfold in Hinit.
  destruct (negb _); [discriminate |].
  destruct (OrderFilled.position_id fill) as [pid |]; [| discriminate].
  destruct (Instrument.get_cost_currency instrument) as [cost |] eqn:Hcost; [| discriminate].
  injection Hinit as Hinit.
  pose proof (Hstep _ fill (Hblank instrument fill pid cost Hcost)) as H.
  rewrite Hinit in H. exact H.
Qed.

Lemma apply_same_identity self fill : same_identity self (state_of (apply self fill)).
Proof.
  pose proof (recorded_same self fill) as [Hrec _].
  pose proof (handle_fill_same_identity (recorded self fill) fill) as Hh.
  destruct (apply_cases self fill)
    as [[_ ->] | [(_ & e & s & Hs & ->) | (_ & s & self' & Hs & Hset & ->)]]; simpl.
  - apply same_refl.
  - rewrite Hs in Hh. simpl in Hh.
    unfold same_identity in *. intuition congruence.
  - rewrite Hs in Hh. simpl in Hh.
    destruct (settle_quantities s fill self' Hset) as [Hid _].
    unfold same_identity in *. intuition congruence.
Qed.

(** What a call of [apply] does to the quantities. *)
Lemma apply_quantities self fill :
  let self' := state_of (apply self fill) in
  let q := Quantity.as_decimal (OrderFilled.last_qty fill) in
  same_quantities self self' \/
  quantity self' = Quantity.make (Qabs (net_qty self')) (size_precision self) /\
  peak_qty self' =
    (if dec_lt (Quantity.as_decimal (peak_qty self)) (Qabs (net_qty self'))
     then Quantity.make (Qabs (net_qty self')) (size_precision self)
     else peak_qty self) /\
  match OrderFilled.order_side fill with
  | BUY =>
      _buy_qty self' = _buy_qty self + q /\ _sell_qty self' = _sell_qty self /\
      net_qty self' = net_qty self + q
  | SELL =>
      _buy_qty self' = _buy_qty self /\ _sell_qty self' = _sell_qty self + q /\
      net_qty self' = net_qty self - q
  end.
Proof.
  pose proof (recorded_same self fill) as [Hid Hrec].
  destruct (apply_cases self fill)
    as [[_ ->] | [(_ & e & s & Hs & ->) | (_ & s & self' & Hs & Hset & ->)]]; simpl.
  - left. apply same_refl.
  - left. apply handle_fill_raised in Hs.
    unfold same_quantities in *. intuition congruence.
  - right.
    pose proof (handle_fill_same_identity (recorded self fill) fill) as Hh.
    rewrite Hs in Hh. simpl in Hh.
    apply handle_fill_returned in Hs. simpl in Hs. destruct Hs as (Hq & Hp & Hside).
    destruct (settle_quantities s fill self' Hset) as (_ & Hb & Hs' & Hn & Hq' & Hp' & _).
    assert (size_precision s = size_precision self) as Hprec.
    { unfold same_identity in *. intuition congruence. }
    rewrite Hq', Hp', Hn, Hb, Hs', Hp, Hprec.
    split; [reflexivity |]. split; [reflexivity |]. exact Hside.
Qed.

(** X1.  The net quantity of a position is what its fills bought less what
    they sold: [net_qty = _buy_qty - _sell_qty] for every position built by
    [__init__] and calls of [apply], also after a call that raised. *)
Theorem net_qty_is_bought_less_sold self :
  reachable self -> net_qty self == _buy_qty self - _sell_qty self.
Proof.
  revert self. apply reachable_from_blank.
  - intros. simpl. lra.
  - intros self fill IH.
    destruct (apply_quantities self fill) as [(Hb & Hs & Hn & _) | (_ & _ & Hside)].
    + rewrite Hb, Hs, Hn. exact IH.
    + destruct (OrderFilled.order_side fill); destruct Hside as (-> & -> & ->); lra.
Qed.



(** X3.  No call of [apply] lowers the peak quantity, whether it returns or
    raises. *)
Theorem peak_qty_never_decreases self fill :
  Quantity.as_decimal (peak_qty self)
  <= Quantity.as_decimal (peak_qty (state_of (apply self fill))).
Proof.
  destruct (apply_quantities self fill) as [(_ & _ & _ & _ & Hp) | (_ & Hp & _)];
    rewrite Hp; [lra |].
  destruct (dec_lt _ _) eqn:Hlt; simpl; [| lra].
  apply dec_lt_true in Hlt. lra.
Qed.

(** X4.  [apply] never assigns the identity of a position: its id, trader,
    strategy, instrument, account and opening order, [ts_init] and
    [ts_opened], the precisions, the multiplier and the currencies are after
    any call, returning or raising, what they were before; and so they are,
    for every position that exists, those of the call of [__init__]. *)
Theorem identity_is_never_assigned :
  (forall self fill, same_identity self (state_of (apply self fill))) /\
  (forall instrument fill self,
      __init__ instrument fill = inr (Returned self) ->
      Some (id self) = OrderFilled.position_id fill /\
      instrument_id self = Instrument.id instrument /\
      from_order self = OrderFilled.client_order_id fill /\
      ts_opened self = OrderFilled.ts_event fill /\
      ts_init self = OrderFilled.ts_init fill /\
      Some (cost_currency self) = Instrument.get_cost_currency instrument).
Proof.
  split; [apply apply_same_identity |].
  intros instrument fill self Hinit. rewrite __init___unfold in Hinit.
  case_bool_decide as Hid; simpl in Hinit; [| discriminate].
  destruct (OrderFilled.position_id fill) as [pid |]; [| discriminate].
  destruct (Instrument.get_cost_currency instrument) as [cost |]; [| discriminate].
  injection Hinit as Hinit.
  pose proof (apply_same_identity (blank instrument fill pid cost) fill) as Hsame.
  rewrite Hinit in Hsame. unfold same_identity in Hsame. simpl in Hsame.
  destruct Hsame as (-> & _ & _ & -> & _ & -> & -> & -> & _ & _ & _ & _ & _ & _ & ->).
  split_and!; auto.
Qed.

Lemma flipped_reachable : reachable flipped.
Proof.
  apply (reachable_apply long_5 sell_8_at_12 flipped long_5_reachable).
  vm_compute. reflexivity.
Qed.

Lemma net_qty_is_bought_less_sold_witness :
  net_qty flipped == _buy_qty flipped - _sell_qty flipped.
Proof. apply (net_qty_is_bought_less_sold flipped). exact flipped_reachable. Defined.


Lemma identity_is_never_assigned_witness :
  same_identity long_5 (state_of (apply long_5 sell_8_at_12)) /\
  Some (id long_5) = OrderFilled.position_id buy_5_at_10 /\
  instrument_id long_5 = Instrument.id AAPL /\
  from_order long_5 = OrderFilled.client_order_id buy_5_at_10 /\
  ts_opened long_5 = OrderFilled.ts_event buy_5_at_10 /\
  ts_init long_5 = OrderFilled.ts_init buy_5_at_10 /\
  Some (cost_currency long_5) = Instrument.get_cost_currency AAPL.
Proof.
  split; [apply (proj1 identity_is_never_assigned) |].
  apply (proj2 identity_is_never_assigned AAPL buy_5_at_10 long_5).
  vm_compute. reflexivity.
Defined.

(** ** Events *)

(** X5.  A position keeps the fills it accepted, in order: a call of [apply]
    that returns has appended the fill to the events, so that [last_event_c]
    is the fill, [last_execution_id_c] its id and [event_count_c] one more;
    and a position that exists has at least one event, so that [last_event_c]
    and [last_execution_id_c] have something to return and [event_count_c]
    is positive. *)
Theorem events_grow_with_accepted_fills :
  (forall self fill self',
      apply self fill = Returned self' ->
      events_c self' = events_c self ++ [fill] /\
      last_event_c self' = Some fill /\
      last_execution_id_c self' = Some (OrderFilled.execution_id fill) /\
      event_count_c self' = S (event_count_c self)) /\
  (forall self,
      reachable self ->
      is_Some (last_event_c self) /\
      is_Some (last_execution_id_c self) /\
      (0 < event_count_c self)%nat).
Proof.
  assert (forall l (fill : OrderFilled), last (l ++ [fill]) = Some fill) as Hlast.
  { intros l fill. apply last_snoc. }
  split.
  - intros self fill self' Happly.
    pose proof (apply_ids self fill) as [Hdup Hnew]. rewrite Happly in Hdup, Hnew.
    simpl in Hdup, Hnew.
    destruct (decide (OrderFilled.execution_id fill ∈ _execution_ids self)) as [Hin | Hin].
    + rewrite (apply_duplicate self fill Hin) in Happly. discriminate.
    + destruct (Hnew Hin) as [Hev _].
      unfold events_c, last_event_c, last_execution_id_c, event_count_c.
      rewrite Hev, Hlast, length_app. simpl. split_and!; auto. lia.
  - intros self Hreach.
    assert (_events self <> []) as Hne.
    { induction Hreach as [instrument fill self Hinit | self fill self' _ IH <-].
      - rewrite __init___unfold in Hinit.
        destruct (negb _); [discriminate |].
        destruct (OrderFilled.position_id fill) as [pid |]; [| discriminate].
        destruct (Instrument.get_cost_currency instrument) as [cost |]; [| discriminate].
        injection Hinit as Hinit.
        pose proof (apply_ids (blank instrument fill pid cost) fill) as [_ Hnew].
        rewrite Hinit in Hnew. simpl in Hnew.
        destruct Hnew as [-> _]; [apply not_elem_of_nil | discriminate].
      - pose proof (apply_ids self fill) as [Hdup Hnew]. simpl in Hdup, Hnew.
        destruct (decide (OrderFilled.execution_id fill ∈ _execution_ids self)) as [Hin | Hin].
        + destruct (Hdup Hin) as [-> _]. exact IH.
        + destruct (Hnew Hin) as [-> _]. intros Heq. now apply app_eq_nil in Heq as [_ ?]. }
    unfold last_event_c, last_execution_id_c, event_count_c.
    destruct (_events self) as [| fill l] eqn:Hev using rev_ind; [congruence |].
    rewrite Hlast, length_app. simpl. split_and!; eauto. lia.
Qed.

Lemma events_grow_with_accepted_fills_witness :
  (events_c flipped = events_c long_5 ++ [sell_8_at_12] /\
   last_event_c flipped = Some sell_8_at_12 /\
   last_execution_id_c flipped = Some (OrderFilled.execution_id sell_8_at_12) /\
   event_count_c flipped = S (event_count_c long_5)) /\
  is_Some (last_event_c flipped) /\
  is_Some (last_execution_id_c flipped) /\
  (0 < event_count_c flipped)%nat.
Proof.
  split.
  - apply (proj1 events_grow_with_accepted_fills long_5 sell_8_at_12 flipped).
    vm_compute. reflexivity.
  - apply (proj2 events_grow_with_accepted_fills flipped). exact flipped_reachable.
Defined.

(** ** A call that raises *)



(** ** Commissions *)

Lemma commission_total_snoc (currency : string) (events : list OrderFilled) fill :
  commission_total currency (events ++ [fill]) ==
  commission_total currency events
  + (if bool_decide (Money.currency (OrderFilled.commission fill) = currency)
     then Money.as_decimal (OrderFilled.commission fill) else 0).
Proof.
  unfold commission_total.
  induction events as [| fill' events IH]; simpl.
  - case_bool_decide; lra.
  - revert IH. repeat case_bool_decide; intros IH; lra.
Qed.

Lemma commission_total_none (currency : string) (events : list OrderFilled) :
  Forall (fun fill => Money.currency (OrderFilled.commission fill) <> currency) events ->
  commission_total currency events == 0.
Proof.
  induction 1 as [| fill events Hne _ IH]; simpl; [reflexivity |].
  rewrite bool_decide_false by assumption. exact IH.
Qed.

(** The entry of a currency in the commissions map of a position, against
    the events of the position. *)
Lemma reachable_commissions self :
  reachable self ->
  forall currency,
    match _commissions self !! currency with
    | Some m =>
        Money.currency m = currency /\
        Money.as_decimal m == commission_total currency (_events self) /\
        Exists (fun fill => Money.currency (OrderFilled.commission fill) = currency)
               (_events self)
    | None =>
        Forall (fun fill => Money.currency (OrderFilled.commission fill) <> currency)
               (_events self)
    end.
Proof.
  intros Hreach. pattern self. revert self Hreach. apply reachable_from_blank.
  - intros instrument fill pid cost _ currency. simpl. rewrite lookup_empty. constructor.
  - intros self fill IH currency.
    destruct (decide (OrderFilled.execution_id fill ∈ _execution_ids self)) as [Hin | Hin].
    { rewrite (apply_duplicate self fill Hin). simpl. apply IH. }
    assert (_events (state_of (apply self fill)) = _events self ++ [fill] /\
            _commissions (state_of (apply self fill)) = _commissions (recorded self fill))
      as [-> ->].
    { pose proof (apply_ids self fill) as [_ Hnew]. destruct (Hnew Hin) as [Hev _].
      split; [exact Hev |].
      pose proof (handle_fill_frame (recorded self fill) fill) as Hframe.
      destruct (apply_cases self fill)
        as [[Hin' _] | [(_ & e & s & Hs & ->) | (_ & s & self' & Hs & Hset & ->)]];
        [contradiction | |]; rewrite Hs in Hframe; destruct Hframe as (_ & _ & Hcom & _).
      - exact Hcom.
      - destruct (settle_frame s fill self' Hset) as (_ & _ & Hcom' & _).
        simpl. rewrite Hcom'. exact Hcom. }
    simpl. pose proof (commission_total_snoc currency (_events self) fill) as Hsnoc.
    specialize (IH currency).
    destruct (decide (Money.currency (OrderFilled.commission fill) = currency)) as [Heq | Hne].
    + rewrite bool_decide_true in Hsnoc by assumption.
      rewrite Heq, lookup_insert_eq. simpl.
      split; [reflexivity |].
      split; [| apply Exists_app; right; now constructor].
      destruct (_commissions self !! currency) as [m |]; simpl.
      * destruct IH as (_ & IH & _). lra.
      * pose proof (commission_total_none _ _ IH). lra.
    + rewrite bool_decide_false in Hsnoc by assumption.
      rewrite lookup_insert_ne by assumption.
      destruct (_commissions self !! currency) as [m |].
      * destruct IH as (-> & IH & Hex). split; [reflexivity |]. split; [lra |].
        apply Exists_app. now left.
      * apply Forall_app. split; [exact IH |]. constructor; [exact Hne | constructor].
Qed.

(** X7.  The commissions of a position are those of its events, currency by
    currency.  For every position that exists, each [Money] returned by
    [commissions] is the total, in its currency, of the commissions of the
    recorded fills (whether their handler returned or raised); and a currency
    has no entry exactly when no recorded fill paid a commission in it. *)
Theorem commissions_total_the_fills self :
  reachable self ->
  (forall m,
      m ∈ commissions self ->
      _commissions self !! Money.currency m = Some m /\
      Money.as_decimal m == commission_total (Money.currency m) (_events self)) /\
  (forall currency,
      _commissions self !! currency = None <->
      Forall (fun fill => Money.currency (OrderFilled.commission fill) <> currency)
             (_events self)).
Proof.
  intros Hreach. pose proof (reachable_commissions self Hreach) as Hcom. split.
  - intros m Hm. unfold commissions in Hm.
    apply list_elem_of_fmap in Hm as ([currency m'] & -> & Hm).
    apply elem_of_map_to_list in Hm. simpl.
    specialize (Hcom currency). rewrite Hm in Hcom. destruct Hcom as (Hc & Ha & _).
    rewrite Hc. split; assumption.
  - intros currency. specialize (Hcom currency). split.
    + intros Hnone. rewrite Hnone in Hcom. exact Hcom.
    + intros Hall. destruct (_commissions self !! currency) as [m |]; [| reflexivity].
      exfalso. destruct Hcom as (_ & _ & Hex).
      apply Exists_exists in Hex as (fill & Hfill & Heq).
      rewrite Forall_forall in Hall. exact (Hall fill Hfill Heq).
Qed.

Lemma commissions_total_the_fills_witness :
  (forall m,
      m ∈ commissions flipped ->
      _commissions flipped !! Money.currency m = Some m /\
      Money.as_decimal m == commission_total (Money.currency m) (_events flipped)) /\
  (forall currency,
      _commissions flipped !! currency = None <->
      Forall (fun fill => Money.currency (OrderFilled.commission fill) <> currency)
             (_events flipped)).
Proof. apply (commissions_total_the_fills flipped). exact flipped_reachable. Defined.

(** ** Unrealized PnL and notional value *)








(** ** Opening a position, and adding to it *)

Lemma handle_fill_from_zero self fill :
  net_qty self == 0 ->
  exists s,
    handle_fill self fill = Returned s /\
    Money.as_decimal (realized_pnl s) ==
      Money.as_decimal (realized_pnl self) - commission_in_cost_ccy self fill /\
    avg_px_open s = avg_px_open self /\
    avg_px_close s = avg_px_close self.
Proof.
  intros Hzero. unfold handle_fill, _handle_buy_order_fill, _handle_sell_order_fill.
  assert (dec_lt 0 (net_qty self) = false) as -> by (apply dec_lt_false; lra).
  assert (dec_lt (net_qty self) 0 = false) as -> by (apply dec_lt_false; lra).
  destruct (OrderFilled.order_side fill);
    (eexists; split; [reflexivity |]; simpl;
     unfold initial_realized_pnl, commission_in_cost_ccy;
     repeat split; try reflexivity; case_bool_decide; lra).
Qed.

(** A fill on the side of the position it meets. *)
Lemma handle_fill_adding self fill :
  closes self fill = false ->
  ~ net_qty self == 0 ->
  0 <= Quantity.as_decimal (OrderFilled.last_qty fill) ->
  exists s,
    handle_fill self fill = Returned s /\
    avg_px_open s = weighted_open_px self fill /\
    avg_px_close s = avg_px_close self /\
    Money.as_decimal (realized_pnl s) ==
      Money.as_decimal (realized_pnl self) - commission_in_cost_ccy self fill /\
    (0 < net_qty self <-> OrderFilled.order_side fill = BUY).
Proof.
  intros Hcloses Hnz Hq. unfold closes in Hcloses.
  unfold handle_fill, _handle_buy_order_fill, _handle_sell_order_fill.
  assert (0 < Qabs (net_qty self)) as Habs.
  { destruct (Qlt_le_dec 0 (net_qty self)).
    - rewrite Qabs_pos; lra.
    - rewrite Qabs_neg; lra. }
  destruct (OrderFilled.order_side fill); apply dec_lt_false in Hcloses.
  - assert (dec_lt 0 (net_qty self) = true) as Hpos by (apply dec_lt_true; lra).
    rewrite Hpos. apply dec_lt_true in Hpos.
    unfold open_branch, _calculate_avg_px_open_px, _calculate_avg_px.
    rewrite dec_div_nonzero by lra.
    eexists. split; [reflexivity |]. simpl.
    unfold initial_realized_pnl, commission_in_cost_ccy, weighted_open_px.
    split_and!; try reflexivity; try tauto. case_bool_decide; lra.
  - assert (dec_lt (net_qty self) 0 = true) as Hneg by (apply dec_lt_true; lra).
    rewrite Hneg. apply dec_lt_true in Hneg.
    unfold open_branch, _calculate_avg_px_open_px, _calculate_avg_px.
    rewrite dec_div_nonzero by lra.
    eexists. split; [reflexivity |]. simpl.
    unfold initial_realized_pnl, commission_in_cost_ccy, weighted_open_px.
    split_and!; try reflexivity.
    + case_bool_decide; lra.
    + split; [lra | discriminate].
Qed.

(** X10.  A fill on the side of an open position adds to it.  When the fill
    is not a duplicate and is on the side of the position it meets (a BUY on
    a long, a SELL on a short), [apply] returns; the average open price is
    then the size-weighted mean of the former one and the price of the fill,
    the size of the position has grown by the quantity of the fill, the
    position is on the side of the order, the average close price is as it
    was, and nothing is realized but the commission when it is in the cost
    currency. *)
Theorem adding_fill_averages_open_price self fill :
  OrderFilled.execution_id fill ∉ _execution_ids self ->
  closes self fill = false ->
  ~ net_qty self == 0 ->
  0 <= Quantity.as_decimal (OrderFilled.last_qty fill) ->
  exists self',
    apply self fill = Returned self' /\
    avg_px_open self' = weighted_open_px self fill /\
    Qabs (net_qty self')
      == Qabs (net_qty self) + Quantity.as_decimal (OrderFilled.last_qty fill) /\
    side self' = side_from_order_side_c (OrderFilled.order_side fill) /\
    avg_px_close self' = avg_px_close self /\
    Money.as_decimal (realized_pnl self') ==
      Money.as_decimal (realized_pnl self) - commission_in_cost_ccy self fill.
Proof.
  intros Hnew Hcloses Hnz Hq.
  destruct (handle_fill_adding (recorded self fill) fill Hcloses Hnz Hq)
    as (s & Hs & Hopen & Hclose & Hpnl & Hside).
  destruct (apply_returns self fill s Hnew Hs)
    as (self' & Happly & Hr & Hn & Ho & Hc & _ & _ & _ & _ & Hlong & Hshort).
  apply handle_fill_returned in Hs. simpl in Hs. destruct Hs as (_ & _ & Hqty).
  simpl in Hside.
  exists self'. split; [exact Happly |]. rewrite Hr, Ho, Hc.
  split; [exact Hopen |].
  assert (net_qty self < 0 \/ 0 < net_qty self) as Hsign.
  { destruct (Qlt_le_dec (net_qty self) 0); [now left |].
    destruct (Qlt_le_dec 0 (net_qty self)); [now right |]. exfalso. apply Hnz. lra. }
  destruct (OrderFilled.order_side fill); destruct Hqty as (_ & _ & Hnet).
  - assert (0 < net_qty self) as Hpos by (now apply Hside).
    assert (0 < net_qty self') as Hpos' by (rewrite Hn, Hnet; lra).
    split_and!; [| now apply Hlong | exact Hclose | exact Hpnl].
    rewrite !Qabs_pos by lra. rewrite Hn, Hnet. reflexivity.
  - assert (net_qty self < 0) as Hneg.
    { destruct Hsign as [? | Hpos]; [assumption |]. apply Hside in Hpos. discriminate. }
    assert (net_qty self' < 0) as Hneg' by (rewrite Hn, Hnet; lra).
    split_and!; [| now apply Hshort | exact Hclose | exact Hpnl].
    rewrite !Qabs_neg by lra. rewrite Hn, Hnet. ring.
Qed.

Lemma adding_fill_averages_open_price_witness :
  exists self',
    apply long_5 buy_15_at_12 = Returned self' /\
    avg_px_open self' == 11.5 /\
    Qabs (net_qty self') == 20 /\
    side self' = LONG /\
    Money.as_decimal (realized_pnl self') == -1.
Proof.
  destruct (adding_fill_averages_open_price long_5 buy_15_at_12)
    as (self' & Happly & Hopen & Hnet & Hside & _ & Hpnl).
  - vm_compute. intros H. inversion H as [| ? ? ? H']; inversion H'.
  - vm_compute. reflexivity.
  - vm_compute. discriminate.
  - vm_compute. discriminate.
  - exists self'. split; [exact Happly |].
    split; [rewrite Hopen; vm_compute; reflexivity |].
    split; [rewrite Hnet; vm_compute; reflexivity |].
    split; [exact Hside |].
    rewrite Hpnl. vm_compute. reflexivity.
Defined.

(** X11.  Opening a position.  For an instrument that has a cost currency
    and a fill for it that carries a position id and a quantity above zero,
    [__init__] returns a position on the side of the order, with the quantity
    of the fill as its quantity and peak quantity, the price of the fill as
    its average open price, no average close price, the fill as its single
    event, and the commission, when it is in the cost currency, as its
    realized loss.  With a quantity of zero the position is [FLAT] at once. *)
Theorem opening_fill (instrument : Instrument.t) fill (pid cost : string) :
  Instrument.id instrument = OrderFilled.instrument_id fill ->
  OrderFilled.position_id fill = Some pid ->
  Instrument.get_cost_currency instrument = Some cost ->
  0 <= Quantity.as_decimal (OrderFilled.last_qty fill) ->
  let q := Quantity.as_decimal (OrderFilled.last_qty fill) in
  exists self,
    __init__ instrument fill = inr (Returned self) /\
    id self = pid /\
    (0 < q -> side self = side_from_order_side_c (OrderFilled.order_side fill)) /\
    (q == 0 -> side self = FLAT) /\
    net_qty self == (match OrderFilled.order_side fill with BUY => q | SELL => - q end) /\
    Quantity.as_decimal (quantity self) == q /\
    Quantity.as_decimal (peak_qty self) == q /\
    avg_px_open self = Price.as_decimal (OrderFilled.last_px fill) /\
    avg_px_close self = None /\
    _events self = [fill] /\
    cost_currency self = cost /\
    Money.currency (realized_pnl self) = cost /\
    Money.as_decimal (realized_pnl self) ==
      - (if bool_decide (Money.currency (OrderFilled.commission fill) = cost)
         then Money.as_decimal (OrderFilled.commission fill) else 0).
Proof.
  intros Hid Hpid Hcost Hq q. rewrite __init___unfold, Hpid, Hcost. subst q.
  set (q := Quantity.as_decimal (OrderFilled.last_qty fill)) in *.
  rewrite bool_decide_true by assumption. simpl negb. cbv iota.
  set (b := blank instrument fill pid cost).
  assert (OrderFilled.execution_id fill ∉ _execution_ids b) as Hnew by apply not_elem_of_nil.
  destruct (handle_fill_from_zero (recorded b fill) fill) as (s & Hs & Hpnl & Hopen & Hclose);
    [reflexivity |].
  pose proof (handle_fill_frame (recorded b fill) fill) as Hframe.
  rewrite Hs in Hframe. simpl in Hframe. destruct Hframe as (Hev & _).
  pose proof (handle_fill_same_identity (recorded b fill) fill) as Hsame.
  rewrite Hs in Hsame. simpl in Hsame.
  pose proof Hs as Hqty. apply handle_fill_returned in Hqty. simpl in Hqty.
  destruct Hqty as (_ & Hpeak & Hqty).
  unfold b in Hpnl, Hopen, Hclose, Hqty, Hpeak, Hev, Hsame.
  simpl in Hpnl, Hopen, Hclose, Hqty, Hpeak, Hev, Hsame.
  destruct (settle_returns s fill) as [self Hset].
  assert (apply b fill = Returned self) as Happly.
  { rewrite apply_unfold, bool_decide_false, Hs by assumption. exact Hset. }
  destruct (settle_quantities s fill self Hset) as (Hsame' & _ & _ & Hn & Hq' & Hp' & _).
  destruct (settle_frame s fill self Hset)
    as (Hev' & _ & _ & Hc & _ & _ & _ & _ & _ & _ & Hr & Ho & Hcl).
  destruct (settle_side s fill self Hset) as (Hlong & Hshort & Hflat & _).
  exists self. split; [now rewrite Happly |].
  assert (net_qty self == match OrderFilled.order_side fill with BUY => q | SELL => - q end)
    as Hnet.
  { rewrite Hn. destruct (OrderFilled.order_side fill); destruct Hqty as (_ & _ & ->);
      unfold q; lra. }
  assert (Qabs (net_qty s) == q) as Habs.
  { rewrite <- Hn, Hnet. destruct (OrderFilled.order_side fill).
    - now apply Qabs_pos.
    - rewrite Qabs_opp. now apply Qabs_pos. }
  unfold same_identity in Hsame, Hsame'. simpl in Hsame.
  split_and!.
  - destruct Hsame' as (-> & _). destruct Hsame as (-> & _). reflexivity.
  - intros Hpos. destruct (OrderFilled.order_side fill); simpl;
      [apply Hlong | apply Hshort]; lra.
  - intros Hzero. apply Hflat. rewrite Hnet. destruct (OrderFilled.order_side fill); lra.
  - exact Hnet.
  - rewrite Hq'. simpl. exact Habs.
  - rewrite Hp', Hpeak. simpl.
    destruct (dec_lt 0 (Qabs (net_qty s))) eqn:Hlt; simpl; [exact Habs |].
    apply dec_lt_false in Hlt. pose proof (Qabs_nonneg (net_qty s)). lra.
  - rewrite Ho, Hopen. reflexivity.
  - rewrite Hcl, Hclose. reflexivity.
  - rewrite Hev', Hev. reflexivity.
  - rewrite Hc. destruct Hsame as (_ & _ & _ & _ & _ & _ & _ & _ & _ & _ & _ & _ & _ & _ & ->).
    reflexivity.
  - rewrite Hr. pose proof (handle_fill_realized_pnl (recorded b fill) fill s Hs)
      as (_ & _ & _ & ->). reflexivity.
  - rewrite Hr, Hpnl. unfold commission_in_cost_ccy. simpl. lra.
Qed.

Lemma opening_fill_witness :
  exists self,
    __init__ AAPL buy_5_at_10 = inr (Returned self) /\
    side self = LONG /\
    net_qty self == 5 /\
    Quantity.as_decimal (quantity self) == 5 /\
    Quantity.as_decimal (peak_qty self) == 5 /\
    avg_px_open self = 10 /\
    _events self = [buy_5_at_10].
Proof.
  destruct (opening_fill AAPL buy_5_at_10 "P-1" "USD")
    as (self & Hinit & _ & Hside & _ & Hnet & Hq & Hp & Ho & _ & Hev & _);
    try reflexivity.
  { vm_compute. discriminate. }
  exists self. split; [exact Hinit |].
  split; [apply Hside; vm_compute; reflexivity |].
  split; [exact Hnet |]. split; [exact Hq |]. split; [exact Hp |].
  split; [exact Ho | exact Hev].
Defined.

(** ** The side of a position *)

Lemma settle_sign self fill self' : settle self fill = Returned self' -> side_tells_sign self'.
Proof.
  intros Hset. destruct (settle_side self fill self' Hset) as (Hlong & Hshort & Hflat & _).
  unfold side_tells_sign.
  destruct (Qlt_le_dec 0 (net_qty self')) as [Hpos | Hle].
  - rewrite (Hlong Hpos). split_and!; split; intros; try discriminate; auto; lra.
  - destruct (Qlt_le_dec (net_qty self') 0) as [Hneg | Hge].
    + rewrite (Hshort Hneg). split_and!; split; intros; try discriminate; auto; lra.
    + assert (net_qty self' == 0) as Hzero by lra.
      rewrite (Hflat Hzero). split_and!; split; intros; try discriminate; auto; lra.
Qed.

Lemma apply_sign self fill :
  (forall self', apply self fill = Returned self' -> side_tells_sign self') /\
  (side_tells_sign self -> side_tells_sign (state_of (apply self fill))).
Proof.
  destruct (apply_cases self fill)
    as [[_ Heq] | [(_ & e & s & Hs & Heq) | (_ & s & self' & Hs & Hset & Heq)]];
    rewrite Heq; simpl.
  - split; [discriminate | auto].
  - split; [discriminate |]. intros Hsign.
    pose proof (handle_fill_frame (recorded self fill) fill) as Hframe.
    rewrite Hs in Hframe. simpl in Hframe.
    destruct Hframe as (_ & _ & _ & _ & _ & _ & _ & _ & _ & _ & Hside & _).
    apply handle_fill_raised in Hs. destruct Hs as (_ & _ & Hnet & _).
    simpl in Hside, Hnet. unfold side_tells_sign in *. rewrite Hside, Hnet. exact Hsign.
  - split; [intros ? [= <-] | intros _]; exact (settle_sign s fill self' Hset).
Qed.

Lemma reachable_sign self : reachable self -> side_tells_sign self.
Proof.
  induction 1 as [instrument fill self Hinit | self fill self' _ IH <-].
  - rewrite __init___unfold in Hinit.
    destruct (negb _); [discriminate |].
    destruct (OrderFilled.position_id fill) as [pid |]; [| discriminate].
    destruct (Instrument.get_cost_currency instrument) as [cost |]; [| discriminate].
    injection Hinit as Hinit.
    exact (proj1 (apply_sign _ fill) self Hinit).
  - now apply apply_sign.
Qed.

(** X12.  The side of a position tells the sign of its net quantity.  For
    every position that exists, also after a call of [apply] that raised:
    [is_long_c] holds exactly when the net quantity is positive, [is_short_c]
    when it is negative, [is_closed_c] when it is zero, and [is_open_c] is the
    contrary of [is_closed_c]; and while the position is open
    [is_opposite_side] holds of an order side exactly when a fill on that side
    is handled as one that closes. *)
Theorem side_tells_the_sign self :
  reachable self ->
  (is_long_c self = true <-> 0 < net_qty self) /\
  (is_short_c self = true <-> net_qty self < 0) /\
  (is_closed_c self = true <-> net_qty self == 0) /\
  is_open_c self = negb (is_closed_c self) /\
  (forall fill,
      is_open_c self = true ->
      is_opposite_side self (OrderFilled.order_side fill) = closes self fill).
Proof.
  intros Hreach. destruct (reachable_sign self Hreach) as (Hlong & Hshort & Hflat).
  unfold is_long_c, is_short_c, is_closed_c, is_open_c, is_opposite_side, closes.
  rewrite !bool_decide_eq_true. split_and!; try assumption; try reflexivity.
  intros fill Hopen. apply negb_true_iff, bool_decide_eq_false in Hopen.
  destruct (OrderFilled.order_side fill); simpl;
    destruct (side self) eqn:Hside; try contradiction.
  - (* BUY on LONG *)
    rewrite bool_decide_true by reflexivity. simpl. symmetry.
    apply dec_lt_false. assert (0 < net_qty self) by now apply Hlong. lra.
  - (* BUY on SHORT *)
    rewrite bool_decide_false by discriminate. simpl. symmetry.
    apply dec_lt_true. now apply Hshort.
  - (* SELL on LONG *)
    rewrite bool_decide_false by discriminate. simpl. symmetry.
    apply dec_lt_true. now apply Hlong.
  - (* SELL on SHORT *)
    rewrite bool_decide_true by reflexivity. simpl. symmetry.
    apply dec_lt_false. assert (net_qty self < 0) by now apply Hshort. lra.
Qed.

Lemma side_tells_the_sign_witness :
  (is_long_c flipped = true <-> 0 < net_qty flipped) /\
  (is_short_c flipped = true <-> net_qty flipped < 0) /\
  (is_closed_c flipped = true <-> net_qty flipped == 0) /\
  is_open_c flipped = negb (is_closed_c flipped) /\
  (forall fill,
      is_open_c flipped = true ->
      is_opposite_side flipped (OrderFilled.order_side fill) = closes flipped fill).
Proof. apply (side_tells_the_sign flipped). exact flipped_reachable. Defined.
End position_spec.

(** ** Bar builder and aggregators *)
Module aggregation_spec.
Import aggregation.

Implicit Types (b : BarBuilder) (agg : BarAggregator) (price : Price.t) (size : Quantity.t).

(** C7.  An update older than the last one the builder took is dropped:
    [update] returns, raises nothing, and the builder it returns is the one it
    was given, hence with every field ([_open], [_high], [_low], [_close],
    [volume], [count], [ts_last], [initialized]) as it was. *)
Theorem out_of_order_update_dropped b price size (ts : Z) :
  (ts < ts_last b)%Z -> update b price size ts = inr b.
Proof.
  intros Hlate. unfold update.
  destruct (ts <? ts_last b)%Z eqn:Hguard; [reflexivity |].
  apply Z.ltb_ge in Hguard. lia.
Qed.

Lemma update_late b price size (ts : Z) :
  (ts < ts_last b)%Z -> update b price size ts = inr b.
Proof. intros Hlate. unfold update. apply Z.ltb_lt in Hlate. now rewrite Hlate. Qed.

Lemma BarBuilder_new_wf instrument bar_type b :
  BarBuilder_new instrument bar_type = inr b -> builder_wf b /\ volume b = 0.
Proof.
  unfold BarBuilder_new. destruct (negb _); [discriminate |]. intros [= <-].
  split; [builder_wf_parts | reflexivity].
Qed.

Lemma update_in_order b price size (ts : Z) :
  builder_wf b ->
  (ts_last b <= ts)%Z ->
  0 <= Quantity.as_decimal size ->
  exists b',
    update b price size ts = inr b' /\
    volume b' = volume b + Quantity.as_decimal size /\
    _close b' = Some price /\
    ts_last b' = ts /\
    is_Some (_open b') /\
    builder_wf b' /\
    size_precision b' = size_precision b /\
    _bar_type b' = _bar_type b.
Proof.
  intros (Hwf & Hinit & Hvol & Hlast) Hts Hsize. unfold update.
  apply Z.ltb_ge in Hts. rewrite Hts.
  assert (0 <= volume b + Quantity.as_decimal size) as Hv' by lra.
  destruct (_open b) as [o |] eqn:Ho.
  - destruct Hwf as ([h Hh] & [l Hl] & [c Hc]); [eauto |]. rewrite Hh, Hl.
    assert (initialized b = true) as Hi by (apply Hinit; eauto).
    destruct (price_gt price h); [| destruct (price_lt price l)];
      (eexists; split; [reflexivity |]); simpl; rewrite ?Ho, ?Hh, ?Hl;
      unfold builder_wf; simpl; split_and!; eauto; rewrite ?Hi, ?Ho; builder_wf_parts.
  - eexists; split; [reflexivity |]. simpl. split_and!; eauto; builder_wf_parts.
Qed.

(** [update] on a well-formed builder never raises: the builder comes back
    as it was (a late update), or holding the update. *)
Lemma update_returns b price size (ts : Z) :
  builder_wf b ->
  0 <= Quantity.as_decimal size ->
  exists b',
    update b price size ts = inr b' /\
    builder_wf b' /\
    (initialized b = true -> initialized b' = true) /\
    ((ts_last b <= ts)%Z -> initialized b' = true /\ _close b' = Some price) /\
    (b' = b \/
     is_Some (_open b') /\ volume b' = volume b + Quantity.as_decimal size) /\
    _bar_type b' = _bar_type b.
Proof.
  intros Hwf Hsize. destruct (Z.lt_ge_cases ts (ts_last b)) as [Hlate | Hts].
  - exists b. rewrite update_late by assumption.
    split_and!; auto. lia.
  - destruct (update_in_order b price size ts Hwf Hts Hsize)
      as (b' & Hupd & Hv & Hc & _ & Ho & Hwf' & _ & Hty).
    exists b'. assert (initialized b' = true) as Hi by now apply Hwf'.
    split_and!; auto.
Qed.

Lemma build_well_formed b (ts : Z) :
  builder_wf b ->
  is_Some (_open b) ->
  exists bar b',
    build b ts = (inr bar, b') /\
    bar_volume bar = Quantity.make (volume b) (size_precision b) /\
    Some (close bar) = _close b /\
    ts_event bar = ts /\
    volume b' = 0 /\
    _close b' = _close b /\
    ts_last b' = ts_last b /\
    builder_wf b' /\
    _bar_type b' = _bar_type b.
Proof.
  intros (Hwf & Hinit & Hvol & Hlast) Hopen. unfold build.
  destruct (Hwf Hopen) as ([h Hh] & [l Hl] & [c Hc]).
  assert (initialized b = true) as Hi by now apply Hinit.
  destruct Hopen as [o Ho].
  rewrite Ho. unfold Quantity.new.
  assert (dec_lt (volume b) 0 = false) as -> by now apply dec_lt_false.
  rewrite Ho, Hh, Hl, Hc.
  do 2 eexists. split; [reflexivity |]. simpl. rewrite Hc.
  unfold builder_wf; simpl; split_and!; eauto; rewrite ?Hi, ?Hc; builder_wf_parts.
Qed.

(** [build] before any price: the bar cannot be made; the builder stays well
    formed, with the volume it had. *)
Lemma build_without_price b (ts : Z) :
  builder_wf b ->
  _open b = None ->
  exists b',
    build b ts = (inl TypeError, b') /\
    builder_wf b' /\
    volume b' = volume b /\
    _bar_type b' = _bar_type b.
Proof.
  intros (Hwf & Hinit & Hvol & Hlast) Hopen. unfold build. rewrite Hopen.
  specialize (Hlast Hopen). rewrite Hlast. simpl. unfold Quantity.new.
  assert (dec_lt (volume b) 0 = false) as -> by now apply dec_lt_false.
  eexists. split; [reflexivity |].
  assert (initialized b = false) as Hi.
  { destruct (initialized b); [| reflexivity].
    destruct (proj1 Hinit eq_refl) as [o Ho]. congruence. }
  unfold builder_wf; simpl; split_and!; auto; rewrite ?Hi; builder_wf_parts.
Qed.

(** Whatever it returns, [build] keeps the builder well formed. *)
Lemma build_wf b (ts : Z) :
  builder_wf b ->
  builder_wf (build b ts).2 /\
  _bar_type (build b ts).2 = _bar_type b /\
  ((exists bar, (build b ts).1 = inr bar) /\ volume (build b ts).2 = 0 \/
   (build b ts).1 = inl TypeError /\ volume (build b ts).2 = volume b).
Proof.
  intros Hwf. destruct (_open b) as [o |] eqn:Ho.
  - destruct (build_well_formed b ts Hwf) as (bar & b' & -> & _ & _ & _ & Hv & _ & _ & Hwf' & Hty);
      [rewrite Ho; eauto |].
    simpl. split_and!; auto. left. eauto.
  - destruct (build_without_price b ts Hwf Ho) as (b' & -> & Hwf' & Hv & Hty).
    simpl. split_and!; auto.
Qed.

Lemma set_partial_wf b (partial_bar : Bar) :
  builder_wf b ->
  0 <= Quantity.as_decimal (bar_volume partial_bar) ->
  builder_wf (set_partial b partial_bar).
Proof.
  intros Hb Hbar. unfold set_partial.
  destruct (_partial_set b); [assumption |].
  destruct Hb as (Hwf & Hinit & Hvol & Hlast). cbn.
  repeat case_match; builder_wf_parts.
Qed.

(** ** Volume bars *)

Lemma Quantity_new_nonneg (v : Q) (precision : nat) :
  0 <= v -> Quantity.new v precision = inr (Quantity.make v precision).
Proof. intros Hv. unfold Quantity.new. apply dec_lt_false in Hv. now rewrite Hv. Qed.

(** One pass through the body of the loop when the update reaches the
    threshold: the builder takes the remainder [step - volume], a bar is sent
    and the loop goes on with what is left of the size. *)
Lemma volume_split_step agg price (precision : nat) (size_update : Q) (ts : Z) :
  let b := _builder agg in
  builder_wf b ->
  volume b < step_of agg ->
  (ts_last b <= ts)%Z ->
  0 < size_update ->
  step_of agg <= volume b + size_update ->
  exists bar agg1,
    (forall fuel,
        VolumeBarAggregator_loop (S fuel) agg price precision size_update ts =
        VolumeBarAggregator_loop fuel agg1 price precision
          (size_update - (step_of agg - volume b)) ts) /\
    handled agg1 = handled agg ++ [bar] /\
    bar_volume bar = Quantity.make (volume b + (step_of agg - volume b)) (size_precision b) /\
    close bar = price /\
    ts_event bar = ts /\
    volume (_builder agg1) = 0 /\
    _close (_builder agg1) = Some price /\
    ts_last (_builder agg1) = ts /\
    builder_wf (_builder agg1) /\
    bar_type agg1 = bar_type agg.
Proof.
  intros b Hwf Hlt Hts Hpos Hreach.
  destruct (update_in_order b price (Quantity.make (step_of agg - volume b) precision) ts)
    as (b1 & Hupd & Hv1 & Hc1 & Ht1 & Ho1 & Hwf1 & Hp1 & _); [assumption .. | simpl; lra |].
  destruct (build_well_formed b1 (ts_last b1) Hwf1 Ho1)
    as (bar & b2 & Hbuild & Hbv & Hbc & Hbt & Hv2 & Hc2 & Ht2 & Hwf2 & _).
  exists bar, (agg |> set__builder b1 |> set__builder b2 |> set_handled (handled agg ++ [bar])).
  split.
  - intros fuel. cbn [VolumeBarAggregator_loop].
    assert (dec_lt 0 size_update = true) as -> by now apply dec_lt_true.
    assert (dec_lt (volume (_builder agg) + size_update) (step_of agg) = false) as ->
      by now apply dec_lt_false.
    rewrite Quantity_new_nonneg by (fold b; lra).
    unfold builder_update. fold b. rewrite Hupd.
    unfold _build_now_and_send, build_now.
    change (_builder (set__builder b1 agg)) with b1. rewrite Hbuild.
    assert (dec_le 0 (size_update - (step_of agg - volume b)) = true) as ->
      by (apply Qle_bool_iff; lra).
    reflexivity.
  - simpl. rewrite Hbv, Hv1, Hp1, Hv2, Hc2, Ht2, Hc1, Ht1, Hbt. simpl.
    rewrite Hc1 in Hbc. injection Hbc as ->. split_and!; auto.
Qed.

(** The loop when what is left stays below the threshold: it is taken whole
    and no bar is sent. *)
Lemma volume_loop_below agg price (precision : nat) (size_update : Q) (ts : Z) (fuel : nat) :
  builder_wf (_builder agg) ->
  (ts_last (_builder agg) <= ts)%Z ->
  0 <= size_update ->
  volume (_builder agg) + size_update < step_of agg ->
  exists agg',
    VolumeBarAggregator_loop (S fuel) agg price precision size_update ts
      = Some (Returned agg') /\
    handled agg' = handled agg /\
    volume (_builder agg') == volume (_builder agg) + size_update /\
    (0 < size_update -> _close (_builder agg') = Some price /\ ts_last (_builder agg') = ts) /\
    bar_type agg' = bar_type agg.
Proof.
  intros Hwf Hts Hsize Hbelow. cbn [VolumeBarAggregator_loop].
  destruct (dec_lt 0 size_update) eqn:Hpos.
  - apply dec_lt_true in Hpos. apply dec_lt_true in Hbelow. rewrite Hbelow.
    rewrite Quantity_new_nonneg by lra. unfold builder_update.
    destruct (update_in_order (_builder agg) price (Quantity.make size_update precision) ts)
      as (b1 & -> & Hv1 & Hc1 & Ht1 & _); [assumption .. | simpl; lra |].
    exists (agg |> set__builder b1). simpl in *. rewrite Hv1.
    repeat split; auto.
  - apply dec_lt_false in Hpos. exists agg.
    repeat split; auto; [lra | intros; lra ..].
Qed.

(** The whole loop: with [k + 1] units of fuel or more it returns, once the
    volume to place is below [k + 1] steps. *)
Lemma volume_loop_spec price (precision : nat) (ts : Z) (k : nat) :
  forall agg (size_update : Q) (fuel : nat),
    (k < fuel)%nat ->
    builder_wf (_builder agg) ->
    volume (_builder agg) < step_of agg ->
    (ts_last (_builder agg) <= ts)%Z ->
    0 <= size_update ->
    volume (_builder agg) + size_update < inject_Z (Z.of_nat (S k)) * step_of agg ->
    exists agg' bars,
      VolumeBarAggregator_loop fuel agg price precision size_update ts = Some (Returned agg') /\
      handled agg' = handled agg ++ bars /\
      Forall (full_bar (step_of agg) price ts) bars /\
      volume (_builder agg') ==
        volume (_builder agg) + size_update - inject_Z (Z.of_nat (length bars)) * step_of agg /\
      0 <= volume (_builder agg') < step_of agg /\
      (step_of agg <= volume (_builder agg) + size_update -> bars ≠ []) /\
      (0 < size_update ->
         _close (_builder agg') = Some price /\ ts_last (_builder agg') = ts) /\
      bar_type agg' = bar_type agg.
Proof.
  assert (forall agg size_update fuel,
             builder_wf (_builder agg) ->
             (ts_last (_builder agg) <= ts)%Z ->
             0 <= size_update ->
             volume (_builder agg) + size_update < step_of agg ->
             exists agg' bars,
               VolumeBarAggregator_loop (S fuel) agg price precision size_update ts
                 = Some (Returned agg') /\
               handled agg' = handled agg ++ bars /\
               Forall (full_bar (step_of agg) price ts) bars /\
               volume (_builder agg') ==
                 volume (_builder agg) + size_update
                 - inject_Z (Z.of_nat (length bars)) * step_of agg /\
               0 <= volume (_builder agg') < step_of agg /\
               (step_of agg <= volume (_builder agg) + size_update -> bars ≠ []) /\
               (0 < size_update ->
                  _close (_builder agg') = Some price /\ ts_last (_builder agg') = ts) /\
               bar_type agg' = bar_type agg) as Hbelow_case.
  { intros agg size_update fuel Hwf Hts Hsize Hbelow.
    destruct (volume_loop_below agg price precision size_update ts fuel Hwf Hts Hsize Hbelow)
      as (agg' & Hrun & Hh & Hv & Hlast & Hty).
    exists agg', []. rewrite app_nil_r. cbn [length]. change (inject_Z (Z.of_nat 0)) with 0.
    destruct Hwf as (_ & _ & Hvol).
    split; [exact Hrun |]. split; [exact Hh |]. split; [constructor |].
    split; [rewrite Hv; ring |]. split; [rewrite Hv; lra |].
    split; [intros; lra |]. split; assumption. }
  induction k as [| k IH]; intros agg size_update fuel Hfuel Hwf Hlt Hts Hsize Hbound;
    (destruct fuel as [| fuel]; [lia |]).
  - (* less than one step in all: the update is taken whole *)
    change (inject_Z (Z.of_nat 1)) with 1 in Hbound.
    apply Hbelow_case; auto. lra.
  - destruct (Qlt_le_dec (volume (_builder agg) + size_update) (step_of agg))
      as [Hbelow | Hreach]; [now apply Hbelow_case |].
    assert (0 < size_update) as Hpos by lra.
    destruct (volume_split_step agg price precision size_update ts Hwf Hlt Hts Hpos Hreach)
      as (bar & agg1 & Hstep & Hh1 & Hbv & Hbc & Hbt & Hv1 & Hc1 & Ht1 & Hwf1 & Hty1).
    rewrite (Hstep fuel).
    assert (0 < step_of agg) as Hsteppos by (destruct Hwf as (_ & _ & Hvol); lra).
    rewrite Nat2Z.inj_succ, <- Z.add_1_r, inject_Z_plus in Hbound.
    change (inject_Z 1) with 1 in Hbound.
    destruct (IH agg1 (size_update - (step_of agg - volume (_builder agg))) fuel)
      as (agg' & bars & Hloop & Hh & Hall & Hvol' & Hrange & _ & Hlast & Hty);
      [lia | assumption | rewrite Hv1, Hty1; lra | rewrite Ht1; lia | lra | |].
    { rewrite Hv1, Hty1. lra. }
    exists agg', (bar :: bars). rewrite Hty1 in *.
    split; [exact Hloop |].
    split; [rewrite Hh, Hh1, <- app_assoc; reflexivity |].
    split.
    { constructor; [| assumption]. unfold full_bar. rewrite Hbv. simpl.
      repeat split; auto. ring. }
    split.
    { rewrite Hvol', Hv1. cbn [length]. rewrite Nat2Z.inj_succ, <- Z.add_1_r, inject_Z_plus.
      change (inject_Z 1) with 1. ring. }
    split; [exact Hrange |].
    split; [discriminate |].
    split; [| exact Hty].
    intros _.
    destruct (Qlt_le_dec 0 (size_update - (step_of agg - volume (_builder agg))))
      as [Hrest | Hrest]; [now apply Hlast |].
    (* nothing is left: the loop stops on the builder as the split left it *)
    destruct fuel as [| fuel']; [lia |].
    cbn [VolumeBarAggregator_loop] in Hloop.
    assert (dec_lt 0 (size_update - (step_of agg - volume (_builder agg))) = false) as Hstop
      by now apply dec_lt_false.
    rewrite Hstop in Hloop. injection Hloop as <-. auto.
Qed.

(** More fuel does not change a result. *)
Lemma volume_loop_fuel_mono price (precision : nat) (ts : Z) (fuel : nat) :
  forall agg (size_update : Q) r (fuel' : nat),
    VolumeBarAggregator_loop fuel agg price precision size_update ts = Some r ->
    (fuel <= fuel')%nat ->
    VolumeBarAggregator_loop fuel' agg price precision size_update ts = Some r.
Proof.
  induction fuel as [| fuel IH]; intros agg size_update r fuel' Hrun Hle; [discriminate |].
  destruct fuel' as [| fuel']; [lia |].
  cbn [VolumeBarAggregator_loop] in *.
  destruct (dec_lt 0 size_update); [| assumption].
  destruct (dec_lt _ _); [assumption |].
  destruct (Quantity.new _ _); [assumption |].
  destruct (builder_update _ _ _ _); [| assumption].
  destruct (_build_now_and_send _); [| assumption].
  destruct (dec_le _ _); [| assumption].
  apply IH; [assumption | lia].
Qed.

(** The loop keeps the invariant of the aggregator, whether it returns or
    raises. *)
Lemma volume_loop_inv price (precision : nat) (ts : Z) (fuel : nat) :
  forall agg (size_update : Q) o,
    volume_inv agg ->
    VolumeBarAggregator_loop fuel agg price precision size_update ts = Some o ->
    volume_inv (state_of o) /\ bar_type (state_of o) = bar_type agg.
Proof.
  induction fuel as [| fuel IH]; intros agg size_update o [Hwf Hlt] Hrun; [discriminate |].
  cbn [VolumeBarAggregator_loop] in Hrun.
  assert (0 <= volume (_builder agg)) as Hvol by apply Hwf.
  destruct (dec_lt 0 size_update) eqn:Hpos;
    [| injection Hrun as <-; split; [split |]; auto].
  apply dec_lt_true in Hpos.
  destruct (dec_lt (volume (_builder agg) + size_update) (step_of agg)) eqn:Hbelow.
  - (* Update and break *)
    apply dec_lt_true in Hbelow. rewrite Quantity_new_nonneg in Hrun by lra.
    injection Hrun as <-. unfold builder_update.
    destruct (update_returns (_builder agg) price (Quantity.make size_update precision) ts Hwf)
      as (b1 & -> & Hwf1 & _ & _ & Hcase & _); [simpl; lra |].
    simpl. split; [split; [assumption |] | reflexivity]. simpl.
    destruct Hcase as [-> | [_ ->]]; simpl; lra.
  - apply dec_lt_false in Hbelow. rewrite Quantity_new_nonneg in Hrun by lra.
    unfold builder_update in Hrun.
    destruct (update_returns (_builder agg) price
                (Quantity.make (step_of agg - volume (_builder agg)) precision) ts Hwf)
      as (b1 & Hupd & Hwf1 & _ & _ & Hcase & _); [simpl; lra |].
    rewrite Hupd in Hrun. unfold _build_now_and_send, build_now in Hrun.
    change (_builder (set__builder b1 agg)) with b1 in Hrun.
    destruct (build_wf b1 (ts_last b1) Hwf1) as (Hwf2 & _ & Hbuilt).
    destruct (build b1 (ts_last b1)) as [[e | bar] b2] eqn:Hbuild; simpl in Hwf2, Hbuilt.
    + (* the bar could not be made: the builder had no price, so it had
         dropped the update *)
      injection Hrun as <-. simpl.
      destruct Hbuilt as [[[bar' [=]] _] | [_ Hv2]].
      split; [split; [assumption |] | reflexivity]. simpl. rewrite Hv2.
      destruct Hcase as [-> | [Hopen _]]; [assumption |].
      destruct (build_well_formed b1 (ts_last b1) Hwf1 Hopen) as (? & ? & Hok & _).
      congruence.
    + destruct Hbuilt as [[_ Hv2] | [[=] _]].
      destruct (dec_le 0 (size_update - (step_of agg - volume (_builder agg)))).
      * apply IH in Hrun; [exact Hrun |]. split; simpl; [assumption | rewrite Hv2; lra].
      * injection Hrun as <-. simpl.
        split; [split; [assumption |] | reflexivity]. simpl. rewrite Hv2. lra.
Qed.

Lemma volume_reachable_inv agg : volume_reachable agg -> volume_inv agg.
Proof.
  induction 1 as [instrument bar_type agg Hstep Hnew
                 | agg price size ts fuel o agg' _ IH Hsize Hrun <-].
  - unfold BarAggregator_new in Hnew. destruct (negb _); [discriminate |].
    destruct (BarBuilder_new instrument bar_type) as [| b] eqn:Hb; [discriminate |].
    injection Hnew as <-. destruct (BarBuilder_new_wf _ _ _ Hb) as [Hwf Hv].
    split; simpl; [assumption |]. rewrite Hv.
    change 0 with (inject_Z 0). rewrite <- Zlt_Qlt. assumption.
  - now apply (volume_loop_inv _ _ _ _ _ _ _ IH Hrun).
Qed.

Lemma fuel_for_volume agg (size_update : Q) :
  0 < step_of agg ->
  0 <= volume (_builder agg) + size_update ->
  let k := Z.to_nat (Qfloor ((volume (_builder agg) + size_update) / step_of agg)) in
  volume (_builder agg) + size_update < inject_Z (Z.of_nat (S k)) * step_of agg.
Proof.
  intros Hstep Hnonneg k. set (x := (volume (_builder agg) + size_update) / step_of agg).
  assert (0 <= x) as Hx.
  { unfold x. apply Qle_shift_div_l; [assumption | lra]. }
  assert (0 <= Qfloor x)%Z as Hfloor.
  { change 0%Z with (Qfloor 0). now apply Qfloor_resp_le. }
  subst k. fold x. rewrite Nat2Z.inj_succ, Z2Nat.id, <- Z.add_1_r by assumption.
  assert (volume (_builder agg) + size_update == x * step_of agg) as ->
    by (unfold x; field; lra).
  apply Qmult_lt_compat_r; [assumption | apply Qlt_floor].
Qed.

(** C2, for the updates the builder takes.  When an update, not older than
    the last one the builder took, brings the volume of the builder of a
    volume aggregator to the step or beyond:
    - the body of the loop gives the builder exactly the remainder
      [step - volume], sends a bar whose volume is the step, closing at the
      price and time of the update, and goes on with the residual size
      [size - (step - volume)] at the same price and time;
    - the call returns, having sent one bar or more, each of volume the step,
      and leaves in the builder the volume left over, below the step, at the
      price and time of the update.
    In particular, with a step of 100, [(1.0, 60)] then [(1.1, 80)] sends one
    bar of volume 100 and leaves the builder with volume 40 at price 1.1. *)
Theorem volume_bar_split :
  (forall agg price size (ts : Z),
      let b := _builder agg in
      volume_reachable agg ->
      (ts_last b <= ts)%Z ->
      step_of agg <= volume b + Quantity.as_decimal size ->
      (exists bar agg1,
          (forall fuel,
              VolumeBarAggregator_apply_update (S fuel) agg price size ts =
              VolumeBarAggregator_loop fuel agg1 price (Quantity.precision size)
                (Quantity.as_decimal size - (step_of agg - volume b)) ts) /\
          handled agg1 = handled agg ++ [bar] /\
          bar_volume bar
            = Quantity.make (volume b + (step_of agg - volume b)) (size_precision b) /\
          Quantity.as_decimal (bar_volume bar) == step_of agg /\
          close bar = price /\
          ts_event bar = ts /\
          volume (_builder agg1) = 0) /\
      (exists (enough : nat) agg' bar bars,
          (forall fuel,
              (enough <= fuel)%nat ->
              VolumeBarAggregator_apply_update fuel agg price size ts = Some (Returned agg')) /\
          handled agg' = handled agg ++ bar :: bars /\
          Forall (full_bar (step_of agg) price ts) (bar :: bars) /\
          volume (_builder agg') ==
            volume b + Quantity.as_decimal size
            - inject_Z (Z.of_nat (length (bar :: bars))) * step_of agg /\
          0 <= volume (_builder agg') < step_of agg /\
          _close (_builder agg') = Some price /\
          ts_last (_builder agg') = ts)) /\
  (VolumeBarAggregator_apply_update 1 volume_agg (Price.new 1.0 1) (Quantity.make 60 0) 10
     = Some (Returned volume_agg_60) /\
   handled volume_agg_60 = [] /\
   VolumeBarAggregator_apply_update 2 volume_agg_60 (Price.new 1.1 1) (Quantity.make 80 0) 20
     = Some (Returned volume_agg_140) /\
   (exists bar,
       handled volume_agg_140 = [bar] /\
       bar_volume bar = Quantity.make 100 0 /\
       close bar = Price.new 1.1 1) /\
   volume (_builder volume_agg_140) = 40 /\
   _close (_builder volume_agg_140) = Some (Price.new 1.1 1)).
Proof.
  split.
  - intros agg price size ts b Hagg Hts Hreach.
    destruct (volume_reachable_inv agg Hagg) as [Hwf Hlt]. fold b in Hwf, Hlt.
    assert (0 <= volume b) as Hvol by apply Hwf.
    assert (0 < Quantity.as_decimal size) as Hpos by lra.
    split.
    + destruct (volume_split_step agg price (Quantity.precision size)
                  (Quantity.as_decimal size) ts Hwf Hlt Hts Hpos Hreach)
        as (bar & agg1 & Hstep & Hh & Hbv & Hbc & Hbt & Hv1 & _).
      exists bar, agg1. split_and!; auto.
      rewrite Hbv. simpl. ring.
    + set (k := Z.to_nat (Qfloor ((volume b + Quantity.as_decimal size) / step_of agg))).
      assert (exists agg' bars,
                 (forall fuel, (S k <= fuel)%nat ->
                    VolumeBarAggregator_apply_update fuel agg price size ts
                      = Some (Returned agg')) /\
                 handled agg' = handled agg ++ bars /\
                 Forall (full_bar (step_of agg) price ts) bars /\
                 volume (_builder agg') ==
                   volume b + Quantity.as_decimal size
                   - inject_Z (Z.of_nat (length bars)) * step_of agg /\
                 0 <= volume (_builder agg') < step_of agg /\
                 bars ≠ [] /\
                 _close (_builder agg') = Some price /\
                 ts_last (_builder agg') = ts)
        as (agg' & bars & Hrun & Hh & Hall & Hv & Hr & Hne & Hc & Ht).
      { destruct (volume_loop_spec price (Quantity.precision size) ts k agg
                    (Quantity.as_decimal size) (S k))
          as (agg' & bars & Hrun & Hh & Hall & Hv & Hr & Hne & Hlast & _);
          [lia | assumption .. | lra | apply fuel_for_volume; fold b; lra |].
        exists agg', bars. destruct (Hlast Hpos) as [Hc Ht]. split_and!; auto; try apply Hr.
        intros fuel Hfuel. unfold VolumeBarAggregator_apply_update.
        now apply (volume_loop_fuel_mono price (Quantity.precision size) ts (S k)). }
      destruct bars as [| bar bars]; [congruence |].
      exists (S k), agg', bar, bars. split_and!; auto; apply Hr.
  - vm_compute. split_and!; try reflexivity. eexists. split_and!; reflexivity.
Qed.

(** The same update, arriving late (time 5, the builder being at time 10):
    the builder drops it, yet the aggregator goes on to close the bar, so the
    bar sent has volume 60, not the step, nothing of the update is in it, and
    nothing is carried over. *)
Lemma volume_split_fails_for_late_update :
  step_of volume_agg_60 <= volume (_builder volume_agg_60) + 80 /\
  (5 < ts_last (_builder volume_agg_60))%Z /\
  VolumeBarAggregator_apply_update 2 volume_agg_60 (Price.new 1.1 1) (Quantity.make 80 0) 5
    = Some (Returned volume_agg_late) /\
  (exists bar,
      handled volume_agg_late = [bar] /\
      bar_volume bar = Quantity.make 60 0 /\
      ~ Quantity.as_decimal (bar_volume bar) == step_of volume_agg_60 /\
      close bar = Price.new 1.0 1) /\
  volume (_builder volume_agg_late) = 0 /\
  _close (_builder volume_agg_late) = Some (Price.new 1.0 1).
Proof.
  split; [vm_compute; discriminate |].
  split; [reflexivity |].
  split; [vm_compute; reflexivity |].
  split; [| split; vm_compute; reflexivity].
  eexists. split; [vm_compute; reflexivity |].
  split; [reflexivity |]. split; [| reflexivity].
  vm_compute. discriminate.
Qed.

Lemma volume_agg_60_reachable : volume_reachable volume_agg_60.
Proof.
  apply (volume_reachable_update volume_agg (Price.new 1.0 1) (Quantity.make 60 0) 10 1
           (Returned volume_agg_60)); [| discriminate | vm_compute; reflexivity | reflexivity].
  apply (volume_reachable_new ETHUSD volume_100); [reflexivity | vm_compute; reflexivity].
Qed.

Lemma volume_bar_split_witness :
  exists (enough : nat) agg' bar bars,
    (forall fuel,
        (enough <= fuel)%nat ->
        VolumeBarAggregator_apply_update fuel volume_agg_60 (Price.new 1.1 1)
          (Quantity.make 80 0) 20 = Some (Returned agg')) /\
    handled agg' = handled volume_agg_60 ++ bar :: bars /\
    Forall (full_bar (step_of volume_agg_60) (Price.new 1.1 1) 20) (bar :: bars) /\
    volume (_builder agg') ==
      volume (_builder volume_agg_60) + 80
      - inject_Z (Z.of_nat (length (bar :: bars))) * step_of volume_agg_60 /\
    0 <= volume (_builder agg') < step_of volume_agg_60 /\
    _close (_builder agg') = Some (Price.new 1.1 1) /\
    ts_last (_builder agg') = 20%Z.
Proof.
  apply (proj1 volume_bar_split volume_agg_60 (Price.new 1.1 1) (Quantity.make 80 0) 20%Z).
  - exact volume_agg_60_reachable.
  - vm_compute. discriminate.
  - vm_compute. discriminate.
Defined.

Lemma out_of_order_update_dropped_witness :
  update (_builder volume_agg_60) (Price.new 1.1 1) (Quantity.make 80 0) 5
  = inr (_builder volume_agg_60).
Proof. apply out_of_order_update_dropped. vm_compute. reflexivity. Defined.

(** ** Time bars *)

Section time_bars_spec.

Context {Timer : Type}.
Variable pop_next_event : Timer -> TimeEvent * Timer.
Variable next_time_ns : Timer -> Z.

Implicit Types (self : @TimeBarAggregator Timer).

Lemma _build_event_spec self (event : TimeEvent) :
  builder_wf (_builder (base self)) ->
  exists self',
    _build_event self event = Returned self' /\
    _clock self' = _clock self /\
    next_close_ns self' = next_close_ns self /\
    if initialized (_builder (base self)) then
      exists bar b',
        build (_builder (base self)) (event_ts event) = (inr bar, b') /\
        handled (base self') = handled (base self) ++ [bar] /\
        _builder (base self') = b' /\
        builder_wf b' /\
        _build_on_next_tick self' = _build_on_next_tick self /\
        _stored_close_ns self' = _stored_close_ns self
    else
      handled (base self') = handled (base self) /\
      _builder (base self') = _builder (base self) /\
      _build_on_next_tick self' = true /\
      _stored_close_ns self' = next_close_ns self.
Proof.
  intros Hwf. unfold _build_event.
  destruct (initialized (_builder (base self))) eqn:Hinit; simpl.
  - destruct (build_well_formed (_builder (base self)) (event_ts event) Hwf)
      as (bar & b' & Hbuild & _ & _ & _ & _ & _ & _ & Hwf' & _); [now apply Hwf |].
    unfold _build_and_send. rewrite Hbuild. simpl.
    eexists. split; [reflexivity |]. simpl. split_and!; auto.
    exists bar, b'. split_and!; auto.
  - eexists. split; [reflexivity |]. simpl. split_and!; auto.
Qed.

Lemma on_base_update_wf self price size (ts : Z) :
  builder_wf (_builder (base self)) ->
  0 <= Quantity.as_decimal size ->
  builder_wf
    (_builder (base (state_of (on_base self (builder_update (base self) price size ts))))).
Proof.
  intros Hwf Hsize. unfold builder_update.
  destruct (update_returns (_builder (base self)) price size ts Hwf Hsize)
    as (b1 & -> & Hwf1 & _).
  exact Hwf1.
Qed.

Lemma on_base_build_wf self (ts : Z) :
  builder_wf (_builder (base self)) ->
  builder_wf (_builder (base (state_of (on_base self (_build_and_send (base self) ts))))).
Proof.
  intros Hwf. unfold _build_and_send.
  destruct (build_wf (_builder (base self)) ts Hwf) as (Hwf' & _).
  destruct (build (_builder (base self)) ts) as [[e | bar] b']; exact Hwf'.
Qed.

Lemma _build_event_wf self (event : TimeEvent) :
  builder_wf (_builder (base self)) ->
  builder_wf (_builder (base (state_of (_build_event self event)))).
Proof.
  intros Hwf. unfold _build_event.
  destruct (negb (initialized (_builder (base self)))); [exact Hwf |].
  now apply on_base_build_wf.
Qed.

Lemma _build_bar_wf self (ts : Z) :
  builder_wf (_builder (base self)) ->
  builder_wf (_builder (base (state_of (_build_bar pop_next_event next_time_ns self ts)))).
Proof.
  intros Hwf. unfold _build_bar.
  destruct (pop_next_event (timer (_clock self))) as [event timer'].
  match goal with |- context [_build_event ?s event] => set (self0 := s) end.
  pose proof (_build_event_wf self0 event Hwf) as Hwf'.
  destruct (_build_event self0 event); exact Hwf'.
Qed.

Lemma TimeBarAggregator_apply_update_wf self price size (ts : Z) :
  builder_wf (_builder (base self)) ->
  0 <= Quantity.as_decimal size ->
  builder_wf
    (_builder (base (state_of
       (TimeBarAggregator_apply_update pop_next_event next_time_ns self price size ts)))).
Proof.
  intros Hwf Hsize. unfold TimeBarAggregator_apply_update.
  assert (forall s : @TimeBarAggregator Timer,
             builder_wf (_builder (base s)) ->
             builder_wf
               (_builder (base (state_of
                  match on_base s (builder_update (base s) price size ts) with
                  | Raised e s1 => Raised e s1
                  | Returned s1 =>
                      if _build_on_next_tick s1 then
                        match on_base s1 (_build_and_send (base s1) (_stored_close_ns s1)) with
                        | Raised e s2 => Raised e s2
                        | Returned s2 =>
                            Returned (s2 |> set__build_on_next_tick false
                                         |> set__stored_close_ns 0%Z)
                        end
                      else Returned s1
                  end)))) as Hotherwise.
  { intros s Hs. pose proof (on_base_update_wf s price size ts Hs Hsize) as Hs1.
    destruct (on_base s (builder_update (base s) price size ts)) as [s1 | e s1];
      [| exact Hs1].
    simpl in Hs1. destruct (_build_on_next_tick s1); [| exact Hs1].
    pose proof (on_base_build_wf s1 (_stored_close_ns s1) Hs1) as Hs2.
    destruct (on_base s1 (_build_and_send (base s1) (_stored_close_ns s1))); exact Hs2. }
  destruct (is_test_clock (_clock self)); [| now apply Hotherwise].
  destruct (next_close_ns self <? ts)%Z.
  - pose proof (_build_bar_wf self (next_close_ns self) Hwf) as Hwf1.
    destruct (_build_bar pop_next_event next_time_ns self (next_close_ns self)) as [s1 | e s1];
      [| exact Hwf1].
    now apply on_base_update_wf.
  - destruct (next_close_ns self =? ts)%Z; [| now apply Hotherwise].
    pose proof (on_base_update_wf self price size ts Hwf Hsize) as Hwf1.
    destruct (on_base self (builder_update (base self) price size ts)) as [s1 | e s1];
      [| exact Hwf1].
    now apply _build_bar_wf.
Qed.

Lemma time_reachable_wf self :
  time_reachable pop_next_event next_time_ns self -> builder_wf (_builder (base self)).
Proof.
  induction 1 as [instrument bar_type self Hnew _ _ _
                 | self price size ts self' _ IH Hsize <-
                 | self event clock self' _ IH <-
                 | self partial_bar self' _ IH Hvol <-].
  - unfold BarAggregator_new in Hnew. destruct (negb _); [discriminate |].
    destruct (BarBuilder_new instrument bar_type) as [| b] eqn:Hb; [discriminate |].
    injection Hnew as Hbase. rewrite <- Hbase. simpl. now apply (BarBuilder_new_wf _ _ _ Hb).
  - now apply TimeBarAggregator_apply_update_wf.
  - now apply _build_event_wf.
  - simpl. now apply set_partial_wf.
Qed.

(** C6, as the code has it.  Under a test clock, for an update [(price, size,
    ts_event)], of size not negative, given to a time aggregator:
    - if [next_close_ns < ts_event], the next event of the timer is handled
      first, then the update is applied: when the builder is initialized the
      bar is built at the time of the event and sent, and the update goes to
      the builder after its reset; when it is not, no bar is sent and
      [_build_on_next_tick] is set, with [next_close_ns] stored;
    - if [next_close_ns = ts_event], the update is applied first, then the
      event is handled in the same way, on the builder holding the update;
    - if [ts_event < next_close_ns], the update is applied; with
      [_build_on_next_tick] set, a bar is then built at the stored close time
      and sent, and the flag is cleared; with the flag not set, that is all.
    In the first two cases [next_close_ns] becomes the next time of the
    timer. *)
Theorem time_bar_straddle self price size (ts : Z) :
  time_reachable pop_next_event next_time_ns self ->
  is_test_clock (_clock self) = true ->
  0 <= Quantity.as_decimal size ->
  let b := _builder (base self) in
  let event := (pop_next_event (timer (_clock self))).1 in
  let timer' := (pop_next_event (timer (_clock self))).2 in
  let result := TimeBarAggregator_apply_update pop_next_event next_time_ns self price size ts in
  ((next_close_ns self < ts)%Z ->
     exists self',
       result = Returned self' /\
       next_close_ns self' = next_time_ns timer' /\
       if initialized b then
         exists bar b1 b2,
           build b (event_ts event) = (inr bar, b1) /\
           update b1 price size ts = inr b2 /\
           handled (base self') = handled (base self) ++ [bar] /\
           _builder (base self') = b2 /\
           _build_on_next_tick self' = _build_on_next_tick self
       else
         exists b2,
           update b price size ts = inr b2 /\
           handled (base self') = handled (base self) /\
           _builder (base self') = b2 /\
           _build_on_next_tick self' = true /\
           _stored_close_ns self' = next_close_ns self) /\
  (next_close_ns self = ts ->
     exists self' b1,
       result = Returned self' /\
       next_close_ns self' = next_time_ns timer' /\
       update b price size ts = inr b1 /\
       if initialized b1 then
         exists bar b2,
           build b1 (event_ts event) = (inr bar, b2) /\
           handled (base self') = handled (base self) ++ [bar] /\
           _builder (base self') = b2 /\
           _build_on_next_tick self' = _build_on_next_tick self
       else
         handled (base self') = handled (base self) /\
         _builder (base self') = b1 /\
         _build_on_next_tick self' = true /\
         _stored_close_ns self' = next_close_ns self) /\
  ((ts < next_close_ns self)%Z ->
     exists b1,
       update b price size ts = inr b1 /\
       if _build_on_next_tick self then
         initialized b1 = true ->
         exists self' bar b2,
           result = Returned self' /\
           next_close_ns self' = next_close_ns self /\
           build b1 (_stored_close_ns self) = (inr bar, b2) /\
           handled (base self') = handled (base self) ++ [bar] /\
           _builder (base self') = b2 /\
           _build_on_next_tick self' = false /\
           _stored_close_ns self' = 0%Z
       else
         exists self',
           result = Returned self' /\
           next_close_ns self' = next_close_ns self /\
           handled (base self') = handled (base self) /\
           _builder (base self') = b1 /\
           _build_on_next_tick self' = false).
Proof.
  intros Hself Htest Hsize b event timer' result.
  pose proof (time_reachable_wf self Hself) as Hwf.
  subst result. unfold TimeBarAggregator_apply_update. rewrite Htest.
  split_and!.
  - (* the bar first, then the update *)
    intros Hlt. apply Z.ltb_lt in Hlt. rewrite Hlt.
    unfold _build_bar. subst event timer'.
    destruct (pop_next_event (timer (_clock self))) as [event timer'].
    set (self0 := set__clock _ self).
    destruct (_build_event_spec self0 event Hwf) as (self1 & -> & Hclock & Hnext & Hcase).
    cbn [fst snd]. change (_builder (base self0)) with b in Hcase.
    destruct (initialized b).
    + destruct Hcase as (bar & b1 & Hbuild & Hh & Hb & Hwf1 & Hflag & _).
      destruct (update_returns b1 price size ts Hwf1 Hsize) as (b2 & Hupd & _).
      unfold builder_update. simpl. rewrite Hb, Hupd. simpl.
      eexists. split; [reflexivity |]. simpl. split; [reflexivity |].
      exists bar, b1, b2. split_and!; auto.
    + destruct Hcase as (Hh & Hb & Hflag & Hstored).
      destruct (update_returns b price size ts Hwf Hsize) as (b2 & Hupd & _).
      unfold builder_update. simpl. rewrite Hb. change (_builder (base self0)) with b.
      rewrite Hupd. simpl.
      eexists. split; [reflexivity |]. simpl. split; [reflexivity |].
      exists b2. split_and!; auto.
  - (* the update first, then the bar *)
    intros Heq. rewrite Heq, Z.ltb_irrefl, Z.eqb_refl.
    destruct (update_returns b price size ts Hwf Hsize) as (b1 & Hupd & Hwf1 & _).
    unfold builder_update. fold b. rewrite Hupd. simpl.
    unfold _build_bar. subst event timer'. simpl.
    destruct (pop_next_event (timer (_clock self))) as [event timer'].
    match goal with |- context [_build_event ?s event] => set (self0 := s) end.
    destruct (_build_event_spec self0 event Hwf1) as (self1 & -> & Hclock & Hnext & Hcase).
    cbn [fst snd]. change (_builder (base self0)) with b1 in Hcase.
    eexists. exists b1. split; [reflexivity |]. simpl. split; [reflexivity |].
    split; [reflexivity |].
    destruct (initialized b1).
    + destruct Hcase as (bar & b2 & Hbuild & Hh & Hb & _ & Hflag & _).
      exists bar, b2. split_and!; auto.
    + destruct Hcase as (Hh & Hb & Hflag & Hstored). split_and!; auto.
      rewrite Hstored. subst self0. simpl. exact Heq.
  - (* no close is due *)
    intros Hgt.
    assert ((next_close_ns self <? ts)%Z = false) as -> by (apply Z.ltb_ge; lia).
    assert ((next_close_ns self =? ts)%Z = false) as -> by (apply Z.eqb_neq; lia).
    destruct (update_returns b price size ts Hwf Hsize) as (b1 & Hupd & Hwf1 & _).
    exists b1. split; [exact Hupd |].
    unfold builder_update. fold b. rewrite Hupd. simpl.
    destruct (_build_on_next_tick self) eqn:Hflag.
    + intros Hinit.
      destruct (build_well_formed b1 (_stored_close_ns self) Hwf1)
        as (bar & b2 & Hbuild & _); [now apply Hwf1 |].
      unfold _build_and_send. simpl. rewrite Hbuild. simpl.
      eexists. exists bar, b2. split; [reflexivity |]. simpl. split_and!; auto.
    + eexists. split; [reflexivity |]. simpl. split_and!; auto.
Qed.

End time_bars_spec.

(** A minute aggregator that has received nothing, the close at 60 being
    due: an update at time 100 sends no bar (there is none to send; the flag
    is set instead).  And with no close due, the update at 110 that follows is
    not simply applied: a bar is sent, stamped 60, that holds both updates. *)
Lemma time_bar_straddle_claim_fails :
  is_test_clock (_clock (time_agg 60)) = true /\
  (next_close_ns (time_agg 60) < 100)%Z /\
  minute_update (time_agg 60) (Price.new 1.0 1) (Quantity.make 5 0) 100
    = Returned time_agg_100 /\
  handled (base time_agg_100) = [] /\
  _build_on_next_tick time_agg_100 = true /\
  is_test_clock (_clock time_agg_100) = true /\
  (110 < next_close_ns time_agg_100)%Z /\
  minute_update time_agg_100 (Price.new 1.2 1) (Quantity.make 7 0) 110
    = Returned time_agg_110 /\
  (exists bar,
      handled (base time_agg_110) = [bar] /\
      ts_event bar = 60%Z /\
      bar_volume bar = Quantity.make 12 0) /\
  volume (_builder (base time_agg_110)) = 0.
Proof.
  split_and!; try (vm_compute; reflexivity).
  eexists. split_and!; vm_compute; reflexivity.
Qed.

Lemma time_agg_reachable :
  time_reachable TestTimer_pop_next_event next (time_agg 60).
Proof. now apply (time_reachable_new _ _ ETHUSD minute_1). Qed.

Lemma time_bar_straddle_witness :
  exists self',
    minute_update (time_agg 60) (Price.new 1.0 1) (Quantity.make 5 0) 100 = Returned self' /\
    next_close_ns self' = 120%Z /\
    exists b2,
      update (_builder (base (time_agg 60))) (Price.new 1.0 1) (Quantity.make 5 0) 100
        = inr b2 /\
      handled (base self') = [] /\
      _builder (base self') = b2 /\
      _build_on_next_tick self' = true /\
      _stored_close_ns self' = 60%Z.
Proof.
  refine (proj1 (time_bar_straddle TestTimer_pop_next_event next (time_agg 60)
                   (Price.new 1.0 1) (Quantity.make 5 0) 100 time_agg_reachable eq_refl _) _).
  - discriminate.
  - reflexivity.
Defined.

(** ** The builder over its life *)

Lemma price_gt_true (a b : Price.t) :
  price_gt a b = true <-> Price.as_decimal b < Price.as_decimal a.
Proof. apply dec_lt_true. Qed.

Lemma price_gt_false (a b : Price.t) :
  price_gt a b = false <-> Price.as_decimal a <= Price.as_decimal b.
Proof. apply dec_lt_false. Qed.

Lemma price_lt_true (a b : Price.t) :
  price_lt a b = true <-> Price.as_decimal a < Price.as_decimal b.
Proof. apply dec_lt_true. Qed.

Lemma price_lt_false (a b : Price.t) :
  price_lt a b = false <-> Price.as_decimal b <= Price.as_decimal a.
Proof. apply dec_lt_false. Qed.

Lemma update_ordered b price size (ts : Z) b' :
  builder_ordered b -> update b price size ts = inr b' -> builder_ordered b'.
Proof.
  intros Hord. unfold update. destruct (ts <? ts_last b)%Z; [now intros [= <-] |].
  pose proof Hord as Hord'. ordered_cases b Hord'.
  - destruct (price_gt price h) eqn:Hgt; [| destruct (price_lt price l) eqn:Hlt];
      intros [= <-]; unfold builder_ordered, ordered in *; simpl; rewrite ?Ho, ?Hh, ?Hl;
      rewrite ?price_gt_true, ?price_gt_false, ?price_lt_true, ?price_lt_false in *; lra.
  - intros [= <-]. unfold builder_ordered, ordered; simpl. lra.
Qed.

Lemma set_partial_ordered b (partial_bar : Bar) :
  builder_ordered b -> bar_ordered partial_bar -> builder_ordered (set_partial b partial_bar).
Proof.
  intros Hord Hbar. unfold set_partial. destruct (_partial_set b); [assumption |].
  pose proof Hord as Hord'. ordered_cases b Hord'.
  - simpl. rewrite Hh.
    destruct (price_gt (high partial_bar) h) eqn:Hgt; simpl; rewrite Hl;
      destruct (price_lt (low partial_bar) l) eqn:Hlt; simpl; rewrite Hc; simpl;
      destruct (ts_last b =? 0)%Z;
      unfold builder_ordered, bar_ordered, ordered in *; simpl; rewrite ?Hh, ?Hl, ?Hc;
      rewrite ?price_gt_true, ?price_gt_false, ?price_lt_true, ?price_lt_false in *; lra.
  - simpl. rewrite Hh. simpl. rewrite Hl. simpl. rewrite Hc. simpl.
    destruct (ts_last b =? 0)%Z;
      unfold builder_ordered, bar_ordered, ordered in *; simpl; lra.
Qed.

Lemma reset_ordered b : builder_ordered b -> builder_ordered (reset b).
Proof.
  intros Hord. ordered_cases b Hord; unfold builder_ordered, reset, ordered; simpl;
    rewrite Hc; [lra | exact I].
Qed.

Lemma reset_wf b : builder_wf b -> builder_ordered b -> builder_wf (reset b).
Proof.
  intros (Hwf & Hinit & Hvol & Hlast) Hord.
  ordered_cases b Hord; unfold builder_wf, reset; simpl; rewrite ?Hc; split_and!;
    try solve [eauto | lra | tauto].
  - split; [eauto | intros _; apply Hinit; eauto].
  - intros [=].
Qed.

(** [build] keeps the prices of the builder in order, and the bar it returns
    has them in order. *)
Lemma build_ordered b (ts : Z) :
  builder_ordered b ->
  builder_ordered (build b ts).2 /\
  forall bar, (build b ts).1 = inr bar -> bar_ordered bar.
Proof.
  intros Hord. pose proof Hord as Hord'. ordered_cases b Hord'; unfold build.
  - rewrite Ho. destruct (Quantity.new _ _); simpl; [split; [exact Hord | discriminate] |].
    rewrite Ho, Hh, Hl, Hc. simpl. split.
    + unfold builder_ordered, ordered. simpl. rewrite Hc. lra.
    + intros bar [= <-]. exact Hord'.
  - rewrite Ho. destruct (_last_close b) as [p |] eqn:Hp; simpl;
      (destruct (Quantity.new _ _); simpl;
       [unfold builder_ordered, ordered; simpl; split; [try lra; exact I | discriminate] |]).
    + split.
      * unfold builder_ordered, ordered. simpl. lra.
      * intros bar [= <-]. unfold bar_ordered, ordered. simpl. lra.
    + split; [| discriminate]. unfold builder_ordered. simpl. exact I.
Qed.

Lemma builder_reachable_inv b : builder_reachable b -> builder_wf b /\ builder_ordered b.
Proof.
  induction 1 as [instrument bar_type b Hnew
                 | b price size ts b' _ [IHwf IHord] Hsize Hupd
                 | b partial_bar b' _ [IHwf IHord] Hbar Hvol <-
                 | b ts b' _ [IHwf IHord] <-
                 | b b' _ [IHwf IHord] <-].
  - split; [apply (BarBuilder_new_wf _ _ _ Hnew) |].
    unfold BarBuilder_new in Hnew. destruct (negb _); [discriminate |].
    injection Hnew as <-. exact I.
  - split; [| exact (update_ordered _ _ _ _ _ IHord Hupd)].
    destruct (update_returns b price size ts IHwf Hsize) as (b'' & Hupd' & Hwf & _).
    congruence.
  - split; [now apply set_partial_wf | now apply set_partial_ordered].
  - split; [apply (build_wf b ts IHwf) | apply (build_ordered b ts IHord)].
  - split; [now apply reset_wf | now apply reset_ordered].
Qed.

(** X13.  A partial bar is taken once in the life of a builder:
    [set_partial] sets the flag [_partial_set], a builder whose flag is set is
    left as it is by [set_partial], and neither [update] nor [build] nor
    [reset] clears the flag. *)
Theorem set_partial_only_once :
  (forall b (partial_bar : Bar), _partial_set (set_partial b partial_bar) = true) /\
  (forall b (partial_bar : Bar), _partial_set b = true -> set_partial b partial_bar = b) /\
  (forall b (first second : Bar),
      set_partial (set_partial b first) second = set_partial b first) /\
  (forall b price size (ts : Z) b',
      update b price size ts = inr b' -> _partial_set b' = _partial_set b) /\
  (forall b (ts : Z), _partial_set (build b ts).2 = _partial_set b) /\
  (forall b, _partial_set (reset b) = _partial_set b).
Proof.
  assert (forall b (partial_bar : Bar), _partial_set (set_partial b partial_bar) = true)
    as Hset.
  { intros b partial_bar. unfold set_partial.
    destruct (_partial_set b) eqn:Hflag; [exact Hflag |]. reflexivity. }
  assert (forall b (partial_bar : Bar), _partial_set b = true -> set_partial b partial_bar = b)
    as Hkeep.
  { intros b partial_bar Hflag. unfold set_partial. now rewrite Hflag. }
  split_and!; auto.
  - intros b price size ts b'. unfold update.
    destruct (ts <? ts_last b)%Z; [now intros [= <-] |].
    destruct (_open b); [destruct (_high b); [| discriminate];
                         destruct (price_gt _ _);
                         [| destruct (_low b); [| discriminate]; destruct (price_lt _ _)] |];
      intros [= <-]; reflexivity.
  - intros b ts. unfold build.
    destruct (_open b); simpl;
      (destruct (Quantity.new _ _); [reflexivity |]); simpl;
      repeat match goal with
             | |- context [match ?x with Some _ => _ | None => _ end] => destruct x
             end; reflexivity.
Qed.

Lemma set_partial_only_once_witness :
  set_partial a_builder_3 (mkBar tick_3 (Price.new 2 1) (Price.new 2 1) (Price.new 2 1)
                             (Price.new 2 1) (Quantity.make 1 0) 5 5)
  = set_partial (set_partial a_builder_3
                   (mkBar tick_3 (Price.new 2 1) (Price.new 2 1) (Price.new 2 1)
                      (Price.new 2 1) (Quantity.make 1 0) 5 5))
      (mkBar tick_3 (Price.new 3 1) (Price.new 3 1) (Price.new 3 1)
         (Price.new 3 1) (Quantity.make 1 0) 6 6).
Proof.
  symmetry. apply (proj1 (proj2 set_partial_only_once)).
  apply (proj1 set_partial_only_once).
Defined.

(** X14.  The bars a builder returns have their prices in order.  For a
    builder that exists (constructed, then updated, given a partial bar with
    its prices in order, built from or reset, in any order), a bar returned
    by [build] has its low not above its open and close and its high not
    below them; its volume is not negative, its type is that of the builder
    and both its time stamps are the closing time given. *)
Theorem built_bar_is_ordered b (ts : Z) bar b' :
  builder_reachable b ->
  build b ts = (inr bar, b') ->
  bar_ordered bar /\
  0 <= Quantity.as_decimal (bar_volume bar) /\
  type bar = _bar_type b /\
  ts_event bar = ts /\ ts_init bar = ts.
Proof.
  intros Hreach Hbuild.
  destruct (builder_reachable_inv b Hreach) as [Hwf Hord].
  destruct (build_ordered b ts Hord) as [_ Hbar]. rewrite Hbuild in Hbar.
  split; [now apply Hbar |].
  revert Hbuild. unfold build. destruct (_open b) as [o |] eqn:Ho.
  - rewrite Ho. destruct (Quantity.new (volume b) _) as [e | vol] eqn:Hq; [discriminate |].
    destruct (_high b), (_low b), (_close b); try discriminate.
    intros [= <- _]. simpl. split; [| auto].
    unfold Quantity.new in Hq. destruct (dec_lt (volume b) 0) eqn:Hlt; [discriminate |].
    injection Hq as <-. simpl. now apply dec_lt_false.
  - destruct Hwf as (_ & _ & _ & Hlast). rewrite (Hlast Ho). simpl.
    destruct (Quantity.new _ _); discriminate.
Qed.

Lemma a_builder_3_reachable : builder_reachable a_builder_3.
Proof.
  apply (builder_reachable_update a_builder_2 (Price.new 0.9 1) (Quantity.make 1 0) 30);
    [| vm_compute; discriminate | vm_compute; reflexivity].
  apply (builder_reachable_update a_builder_1 (Price.new 1.2 1) (Quantity.make 7 0) 20);
    [| vm_compute; discriminate | vm_compute; reflexivity].
  apply (builder_reachable_update a_builder (Price.new 1.0 1) (Quantity.make 5 0) 10);
    [| vm_compute; discriminate | vm_compute; reflexivity].
  apply (builder_reachable_new ETHUSD tick_3). vm_compute. reflexivity.
Qed.

Lemma built_bar_is_ordered_witness :
  exists bar b',
    build a_builder_3 30 = (inr bar, b') /\
    open bar = Price.new 1.0 1 /\ high bar = Price.new 1.2 1 /\
    low bar = Price.new 0.9 1 /\ close bar = Price.new 0.9 1 /\
    bar_ordered bar /\
    0 <= Quantity.as_decimal (bar_volume bar) /\
    type bar = _bar_type a_builder_3 /\
    ts_event bar = 30%Z /\ ts_init bar = 30%Z.
Proof.
  destruct (build a_builder_3 30) as [[e | bar] b'] eqn:Hbuild;
    [vm_compute in Hbuild; discriminate |].
  exists bar, b'. split; [reflexivity |].
  assert (Some bar = Some (mkBar tick_3 (Price.new 1.0 1) (Price.new 1.2 1) (Price.new 0.9 1)
                             (Price.new 0.9 1) (Quantity.make 13 0) 30 30)) as Hbar.
  { vm_compute in Hbuild. injection Hbuild as <- _. reflexivity. }
  split; [injection Hbar as ->; reflexivity |].
  split; [injection Hbar as ->; reflexivity |].
  split; [injection Hbar as ->; reflexivity |].
  split; [injection Hbar as ->; reflexivity |].
  exact (built_bar_is_ordered a_builder_3 30 bar b' a_builder_3_reachable Hbuild).
Defined.

Lemma build_resets b (ts : Z) bar b' :
  build b ts = (inr bar, b') ->
  _open b' = Some (close bar) /\ _high b' = Some (close bar) /\
  _low b' = Some (close bar) /\ _close b' = Some (close bar) /\
  _last_close b' = Some (close bar) /\
  volume b' = 0 /\ count b' = 0%Z /\ ts_last b' = ts_last b /\
  forall ts' : Z, build b' ts' = (inr (flat_bar b' (close bar) ts'), b').
Proof.
  destruct b as [bt pp sp init tl cnt ps lc bo bh bl bc vol].
  unfold build, flat_bar, reset. builder_fields.
  destruct bo as [o |]; builder_fields.
  - destruct (Quantity.new _ _); [discriminate |].
    destruct bh, bl, bc; try discriminate.
    intros [= <- <-]. builder_fields. unfold Quantity.new. simpl.
    split_and!; reflexivity.
  - destruct (Quantity.new _ _); [discriminate |].
    destruct lc; [| discriminate].
    intros [= <- <-]. builder_fields. unfold Quantity.new. simpl.
    split_and!; reflexivity.
Qed.

(** X15.  After a bar has been built the builder carries its close forward.
    When [build] returns a bar, the builder starts the next bar from the
    close of that bar with volume and count zero ([ts_last] as it was); and
    for as long as no update comes, each further [build] returns the flat bar
    of that close (open, high, low and close equal, volume zero) with the
    closing time given, leaving the builder as it is. *)
Theorem empty_interval_gives_flat_bar b (ts : Z) bar b' :
  build b ts = (inr bar, b') ->
  _open b' = Some (close bar) /\ _high b' = Some (close bar) /\
  _low b' = Some (close bar) /\ _close b' = Some (close bar) /\
  _last_close b' = Some (close bar) /\
  volume b' = 0 /\ count b' = 0%Z /\ ts_last b' = ts_last b /\
  forall ts' : Z, build b' ts' = (inr (flat_bar b' (close bar) ts'), b').
Proof. exact (build_resets b ts bar b'). Qed.

Lemma empty_interval_gives_flat_bar_witness :
  exists bar b',
    build a_builder_3 30 = (inr bar, b') /\
    close bar = Price.new 0.9 1 /\
    volume b' = 0 /\ count b' = 0%Z /\ ts_last b' = 30%Z /\
    build b' 60 = (inr (flat_bar b' (Price.new 0.9 1) 60), b').
Proof.
  destruct (build a_builder_3 30) as [[e | bar] b'] eqn:Hbuild;
    [vm_compute in Hbuild; discriminate |].
  exists bar, b'. split; [reflexivity |].
  assert (close bar = Price.new 0.9 1) as Hclose.
  { vm_compute in Hbuild. injection Hbuild as <- _. reflexivity. }
  destruct (empty_interval_gives_flat_bar a_builder_3 30 bar b' Hbuild)
    as (_ & _ & _ & _ & _ & Hv & Hc & Ht & Hflat).
  rewrite <- Hclose. split_and!; auto.
Defined.

(** X16.  A builder that has not been given a price cannot build.  For a
    builder that exists and is not initialized, [build] and [build_now] raise
    [TypeError] (the bar has no prices) and leave the builder as it is. *)
Theorem build_before_any_price b (ts : Z) :
  builder_reachable b ->
  initialized b = false ->
  build b ts = (inl TypeError, b) /\ build_now b = (inl TypeError, b).
Proof.
  intros Hreach Hinit.
  destruct (builder_reachable_inv b Hreach) as [(_ & Hi & Hvol & Hlast) Hord].
  assert (_open b = None) as Ho.
  { destruct (_open b) eqn:Ho; [| reflexivity].
    assert (initialized b = true) by (apply Hi; eauto). congruence. }
  assert (forall ts' : Z, build b ts' = (inl TypeError, b)) as Hbuild.
  { intros ts'. unfold build. rewrite Ho, (Hlast Ho). unfold Quantity.new. simpl.
    assert (dec_lt (volume b) 0 = false) as -> by now apply dec_lt_false.
    unfold builder_ordered in Hord. rewrite Ho in Hord.
    destruct b as [? ? ? ? ? ? ? ? bo bh bl bc ?]. simpl in *. subst bo.
    destruct bh, bl, bc; try contradiction. reflexivity. }
  split; [apply Hbuild | apply Hbuild].
Qed.

Lemma build_before_any_price_witness :
  build a_builder 10 = (inl TypeError, a_builder) /\
  build_now a_builder = (inl TypeError, a_builder).
Proof.
  apply (build_before_any_price a_builder 10); [| reflexivity].
  apply (builder_reachable_new ETHUSD tick_3). vm_compute. reflexivity.
Defined.

(** X17.  [update] keeps the running high and low.  For a builder that
    exists and has prices, an update not older than the last one it took
    returns a builder with the same open, the price as close, as high the
    greater of the former high and the price, as low the lesser of the former
    low and the price, the size added to the volume and one to the count; on a
    builder without prices the update sets all four prices to its own. *)
Theorem update_tracks_extremes b price size (ts : Z) :
  builder_reachable b ->
  (ts_last b <= ts)%Z ->
  exists b',
    update b price size ts = inr b' /\
    _close b' = Some price /\
    volume b' = volume b + Quantity.as_decimal size /\
    count b' = (count b + 1)%Z /\
    ts_last b' = ts /\
    initialized b' = true /\
    match _open b, _high b, _low b with
    | Some o, Some h, Some l =>
        exists h' l',
          _open b' = Some o /\ _high b' = Some h' /\ _low b' = Some l' /\
          (h' = h \/ h' = price) /\ (l' = l \/ l' = price) /\
          Price.as_decimal h <= Price.as_decimal h' /\
          Price.as_decimal price <= Price.as_decimal h' /\
          Price.as_decimal l' <= Price.as_decimal l /\
          Price.as_decimal l' <= Price.as_decimal price
    | _, _, _ => _open b' = Some price /\ _high b' = Some price /\ _low b' = Some price
    end.
Proof.
  intros Hreach Hts.
  destruct (builder_reachable_inv b Hreach) as [(_ & Hi & _) Hord].
  pose proof Hord as Hord'. ordered_cases b Hord'; unfold update;
    apply Z.ltb_ge in Hts; rewrite Hts, Ho.
  - assert (initialized b = true) as Hinit by (apply Hi; eauto).
    rewrite Hh.
    destruct (price_gt price h) eqn:Hgt; [| rewrite Hl; destruct (price_lt price l) eqn:Hlt];
      (eexists; split; [reflexivity |]); simpl; rewrite ?Ho, ?Hh, ?Hl;
      (split_and!; try reflexivity; try exact Hinit);
      do 2 eexists; (split_and!; try reflexivity);
      unfold ordered in Hord';
      rewrite ?price_gt_true, ?price_gt_false, ?price_lt_true, ?price_lt_false in *;
      try solve [auto | lra].
  - eexists; split; [reflexivity |]. simpl. split_and!; reflexivity.
Qed.

Lemma update_tracks_extremes_witness :
  exists b',
    update a_builder_2 (Price.new 0.9 1) (Quantity.make 1 0) 30 = inr b' /\
    _close b' = Some (Price.new 0.9 1) /\
    volume b' = 12 + 1 /\
    count b' = 3%Z /\
    _open b' = Some (Price.new 1.0 1) /\
    _high b' = Some (Price.new 1.2 1) /\
    _low b' = Some (Price.new 0.9 1).
Proof.
  destruct (update_tracks_extremes a_builder_2 (Price.new 0.9 1) (Quantity.make 1 0) 30)
    as (b' & Hupd & Hclose & Hvol & Hcount & _ & _ & _).
  - apply (builder_reachable_update a_builder_1 (Price.new 1.2 1) (Quantity.make 7 0) 20);
      [| vm_compute; discriminate | vm_compute; reflexivity].
    apply (builder_reachable_update a_builder (Price.new 1.0 1) (Quantity.make 5 0) 10);
      [| vm_compute; discriminate | vm_compute; reflexivity].
    apply (builder_reachable_new ETHUSD tick_3). vm_compute. reflexivity.
  - vm_compute. discriminate.
  - exists b'. split; [exact Hupd |]. split; [exact Hclose |].
    split; [exact Hvol |]. split; [exact Hcount |].
    vm_compute in Hupd. injection Hupd as <-. split_and!; reflexivity.
Defined.

(** ** Tick bars *)

Lemma update_count b price size (ts : Z) b' :
  update b price size ts = inr b' ->
  ((ts < ts_last b)%Z -> b' = b) /\
  ((ts_last b <= ts)%Z -> count b' = (count b + 1)%Z).
Proof.
  unfold update. destruct (ts <? ts_last b)%Z eqn:Hts.
  - intros [= <-]. split; [reflexivity |]. apply Z.ltb_lt in Hts. lia.
  - apply Z.ltb_ge in Hts. split; [lia | intros _].
    revert H.
    destruct (_open b); [destruct (_high b); [| discriminate];
                         destruct (price_gt _ _);
                         [| destruct (_low b); [| discriminate]; destruct (price_lt _ _)] |];
      intros [= <-]; reflexivity.
Qed.

Lemma set__builder_same agg : set__builder (_builder agg) agg = agg.
Proof. now destruct agg. Qed.

Lemma BarAggregator_new_inv instrument bar_type agg :
  BarAggregator_new instrument bar_type = inr agg ->
  aggregation.bar_type agg = bar_type /\ handled agg = [] /\
  builder_reachable (_builder agg) /\ count (_builder agg) = 0%Z /\
  volume (_builder agg) = 0 /\ ts_last (_builder agg) = 0%Z.
Proof.
  unfold BarAggregator_new. destruct (negb _); [discriminate |].
  destruct (BarBuilder_new instrument bar_type) as [e | b] eqn:Hb; [discriminate |].
  intros [= <-]. simpl. split_and!; try reflexivity.
  - now apply (builder_reachable_new instrument bar_type).
  - unfold BarBuilder_new in Hb. destruct (negb _); [discriminate |]. now injection Hb as <-.
  - unfold BarBuilder_new in Hb. destruct (negb _); [discriminate |]. now injection Hb as <-.
  - unfold BarBuilder_new in Hb. destruct (negb _); [discriminate |]. now injection Hb as <-.
Qed.

(** One update of a tick aggregator that keeps its invariant. *)
Lemma tick_update_spec agg price size (ts : Z) :
  tick_inv agg ->
  0 <= Quantity.as_decimal size ->
  let b := _builder agg in
  let result := TickBarAggregator_apply_update agg price size ts in
  tick_inv (state_of result) /\
  bar_type (state_of result) = bar_type agg /\
  ((ts < ts_last b)%Z -> result = Returned agg) /\
  ((ts_last b <= ts)%Z ->
     ts_last (_builder (state_of result)) = ts /\
     if (count b + 1 =? step (spec (bar_type agg)))%Z then
       exists bar agg',
         result = Returned agg' /\
         handled agg' = handled agg ++ [bar] /\
         close bar = price /\ ts_event bar = ts /\
         bar_volume bar
           = Quantity.make (volume b + Quantity.as_decimal size) (size_precision b) /\
         bar_ordered bar /\
         count (_builder agg') = 0%Z /\
         volume (_builder agg') = 0
     else
       exists agg',
         result = Returned agg' /\
         handled agg' = handled agg /\
         count (_builder agg') = (count b + 1)%Z /\
         volume (_builder agg') = volume b + Quantity.as_decimal size).
Proof.
  intros (Hwf & Hord & Hcount & Hbars) Hsize b result. subst b result.
  unfold TickBarAggregator_apply_update, builder_update.
  destruct (update_returns (_builder agg) price size ts Hwf Hsize)
    as (b' & Hupd & Hwf' & _ & _ & _ & Htype).
  rewrite Hupd.
  pose proof (update_ordered _ _ _ _ _ Hord Hupd) as Hord'.
  destruct (update_count _ _ _ _ _ Hupd) as [Hlate Hontime].
  destruct (Z_lt_le_dec ts (ts_last (_builder agg))) as [Hts | Hts].
  - (* a late update *)
    rewrite (Hlate Hts), set__builder_same.
    assert ((count (_builder agg) =? step (spec (bar_type agg)))%Z = false) as ->
      by (apply Z.eqb_neq; lia).
    simpl. split; [unfold tick_inv; auto |]. split; [reflexivity |].
    split; [reflexivity | lia].
  - specialize (Hontime Hts). simpl. rewrite Hontime.
    destruct (update_in_order (_builder agg) price size ts Hwf Hts Hsize)
      as (b'' & Hupd' & Hvol & Hclose & Hlast & Hopen & _ & Hprec & _).
    rewrite Hupd in Hupd'. injection Hupd' as <-.
    destruct (count (_builder agg) + 1 =? step (spec (bar_type agg)))%Z eqn:Hstep.
    + unfold _build_now_and_send, build_now. simpl.
      destruct (build_well_formed b' (ts_last b') Hwf' Hopen)
        as (bar & b2 & Hbuild & Hbvol & Hbclose & Hbts & Hv2 & _ & Hts2 & Hwf2 & Htype2).
      rewrite Hbuild. simpl.
      destruct (build_ordered b' (ts_last b') Hord') as [Hord2 Hbar].
      rewrite Hbuild in Hord2, Hbar. simpl in Hord2, Hbar.
      destruct (build_resets _ _ _ _ Hbuild) as (_ & _ & _ & _ & _ & _ & Hc2 & _).
      split_and!; try reflexivity.
      * unfold tick_inv. simpl. split_and!; auto; try lia.
        apply Forall_app. split; [assumption |]. constructor; [now apply Hbar | constructor].
      * lia.
      * intros _. split; [congruence |].
        exists bar. eexists. split; [reflexivity |]. simpl.
        split_and!; auto; try congruence; rewrite Hbvol, Hvol, Hprec; reflexivity.
    + apply Z.eqb_neq in Hstep. simpl.
      split_and!; try reflexivity.
      * unfold tick_inv. simpl. split_and!; auto; lia.
      * lia.
      * intros _. split; [assumption |]. eexists. split; [reflexivity |]. simpl. auto.
Qed.

Lemma tick_reachable_inv agg : tick_reachable agg -> tick_inv agg.
Proof.
  induction 1 as [instrument bar_type agg Hstep Hnew | agg price size ts agg' _ IH Hsize <-].
  - destruct (BarAggregator_new_inv _ _ _ Hnew) as (Ht & Hh & Hb & Hc & _).
    destruct (builder_reachable_inv _ Hb) as [Hwf Hord].
    unfold tick_inv. rewrite Hc, Ht, Hh. split_and!; auto; lia.
  - apply (tick_update_spec agg price size ts IH Hsize).
Qed.

(** X18.  A tick aggregator sends a bar on every [step]-th update its builder
    takes.  For a tick aggregator that exists (its step being positive) the
    count of the builder is short of the step.  An update older than the last
    one taken returns and changes nothing.  An update that is not older is
    counted: when it is the [step]-th since the last bar, the aggregator sends
    one bar, closing at the price and time of the update, with the volume
    gathered and its prices in order, and starts again from count and volume
    zero; otherwise it sends nothing and keeps count and volume. *)
Theorem tick_bar_every_step_updates agg price size (ts : Z) :
  tick_reachable agg ->
  0 <= Quantity.as_decimal size ->
  let b := _builder agg in
  let result := TickBarAggregator_apply_update agg price size ts in
  (0 <= count b < step (spec (bar_type agg)))%Z /\
  ((ts < ts_last b)%Z -> result = Returned agg) /\
  ((ts_last b <= ts)%Z ->
     if (count b + 1 =? step (spec (bar_type agg)))%Z then
       exists bar agg',
         result = Returned agg' /\
         handled agg' = handled agg ++ [bar] /\
         close bar = price /\ ts_event bar = ts /\
         bar_volume bar
           = Quantity.make (volume b + Quantity.as_decimal size) (size_precision b) /\
         bar_ordered bar /\
         count (_builder agg') = 0%Z /\
         volume (_builder agg') = 0
     else
       exists agg',
         result = Returned agg' /\
         handled agg' = handled agg /\
         count (_builder agg') = (count b + 1)%Z /\
         volume (_builder agg') = volume b + Quantity.as_decimal size).
Proof.
  intros Hreach Hsize b result.
  pose proof (tick_reachable_inv agg Hreach) as Hinv.
  destruct (tick_update_spec agg price size ts Hinv Hsize) as (_ & _ & Hlate & Hontime).
  destruct Hinv as (_ & _ & Hcount & _).
  split; [exact Hcount |]. split; [exact Hlate |].
  intros Hts. apply (Hontime Hts).
Qed.

Lemma tick_agg_2_reachable : tick_reachable tick_agg_2.
Proof.
  apply (tick_reachable_update tick_agg_1 (Price.new 1.2 1) (Quantity.make 7 0) 20);
    [| vm_compute; discriminate | vm_compute; reflexivity].
  apply (tick_reachable_update tick_agg (Price.new 1.0 1) (Quantity.make 5 0) 10);
    [| vm_compute; discriminate | vm_compute; reflexivity].
  apply (tick_reachable_new ETHUSD tick_3); [reflexivity |]. vm_compute. reflexivity.
Qed.

Lemma tick_bar_every_step_updates_witness :
  exists bar agg',
    TickBarAggregator_apply_update tick_agg_2 (Price.new 0.9 1) (Quantity.make 1 0) 30
      = Returned agg' /\
    handled agg' = handled tick_agg_2 ++ [bar] /\
    close bar = Price.new 0.9 1 /\ ts_event bar = 30%Z /\
    bar_volume bar = Quantity.make (12 + 1) 0 /\
    bar_ordered bar /\
    count (_builder agg') = 0%Z /\
    volume (_builder agg') = 0.
Proof.
  destruct (tick_bar_every_step_updates tick_agg_2 (Price.new 0.9 1) (Quantity.make 1 0) 30
              tick_agg_2_reachable) as (_ & _ & Hontime).
  { vm_compute. discriminate. }
  apply Hontime. vm_compute. discriminate.
Defined.

(** ** The bulk tick bar builder *)

Section bulk_spec.

Context {QuoteTick : Type}.
Variable extract_price : QuoteTick -> PriceType -> exn + Price.t.
Variable extract_volume : QuoteTick -> PriceType -> exn + Quantity.t.
Variable quote_ts_event : QuoteTick -> Z.

(** Trades in the order of time, handled one by one by a tick aggregator. *)
Lemma tick_run (trades : list TradeTick) :
  forall agg,
    tick_inv agg ->
    in_order (ts_last (_builder agg)) trades ->
    let n := Z.of_nat (length trades) in
    let c := count (_builder agg) in
    let k := step (spec (bar_type agg)) in
    exists agg' sent,
      for_each (handle_trade_tick TickBarAggregator_apply_update) agg
        (a_trade (QuoteTick := QuoteTick) <$> trades) = Returned agg' /\
      handled agg' = handled agg ++ sent /\
      Z.of_nat (length sent) = ((c + n) / k)%Z /\
      count (_builder agg') = ((c + n) mod k)%Z /\
      tick_inv agg' /\
      bar_type agg' = bar_type agg.
Proof.
  induction trades as [| tick trades IH]; intros agg Hinv Horder n c k; subst n c k.
  - exists agg, []. simpl. rewrite app_nil_r, Z.add_0_r.
    pose proof Hinv as (_ & _ & Hc & _).
    rewrite Z.div_small, Z.mod_small by lia. split_and!; auto.
  - destruct Horder as (Hts & Hsize & Horder).
    destruct (tick_update_spec agg (tick_price tick) (tick_size tick) (tick_ts_event tick)
                Hinv Hsize) as (Hinv' & Htype & _ & Hontime).
    destruct (Hontime Hts) as [Hlast Hstep]. clear Hontime.
    pose proof Hinv as (_ & _ & Hc & _).
    cbn [fmap list_fmap for_each handle_trade_tick].
    fold (@fmap list _ _ _ (a_trade (QuoteTick := QuoteTick)) trades).
    replace (Z.of_nat (length (tick :: trades))) with (1 + Z.of_nat (length trades))%Z
      by (simpl length; lia).
    set (k := step (spec (bar_type agg))) in *.
    destruct (count (_builder agg) + 1 =? k)%Z eqn:Hfull.
    + destruct Hstep as (bar & agg1 & Hres & Hh & _ & _ & _ & _ & Hc1 & _).
      rewrite Hres in Hinv', Htype, Hlast |- *. simpl in Hinv', Htype, Hlast.
      rewrite <- Hlast in Horder.
      destruct (IH agg1 Hinv' Horder) as (agg' & sent & Hrun & Hh' & Hlen & Hcount & Hinv2 & Ht2).
      exists agg', (bar :: sent). rewrite Hrun, Hh', Hh, <- app_assoc.
      rewrite Hc1, Htype in Hlen, Hcount. fold k in Hlen, Hcount.
      rewrite Z.add_0_l in Hlen, Hcount.
      apply Z.eqb_eq in Hfull.
      replace (count (_builder agg) + (1 + Z.of_nat (length trades)))%Z
        with (Z.of_nat (length trades) + 1 * k)%Z by lia.
      rewrite Z.div_add, Z_mod_plus_full by lia.
      split_and!; auto; try congruence.
      simpl length. rewrite Nat2Z.inj_succ, Hlen. simpl. lia.
    + destruct Hstep as (agg1 & Hres & Hh & Hc1 & _).
      rewrite Hres in Hinv', Htype, Hlast |- *. simpl in Hinv', Htype, Hlast.
      rewrite <- Hlast in Horder.
      destruct (IH agg1 Hinv' Horder) as (agg' & sent & Hrun & Hh' & Hlen & Hcount & Hinv2 & Ht2).
      exists agg', sent. rewrite Hrun, Hh', Hh.
      rewrite Hc1, Htype in Hlen, Hcount. fold k in Hlen, Hcount.
      replace (count (_builder agg) + (1 + Z.of_nat (length trades)))%Z
        with (count (_builder agg) + 1 + Z.of_nat (length trades))%Z by lia.
      split_and!; auto; congruence.
Qed.

(** X19.  The bulk tick bar builder sends one bar for every [step] trades.
    A builder just constructed for a bar type of price type [LAST] with a
    positive step, given trades in the order of time (none before time zero,
    sizes not negative), handles them all and calls the callback once, with
    its list of bars: one bar for each full [step] of trades, each with its
    prices in order, the trades left over being counted in the builder. *)
Theorem bulk_tick_builder_sends_every_step_trades
    (instrument : Instrument.t) (bar_type : BarType) (self : BulkTickBarBuilder)
    (trades : list TradeTick) :
  BulkTickBarBuilder_new instrument bar_type = inr self ->
  (0 < step (spec bar_type))%Z ->
  price_type (spec bar_type) = LAST ->
  in_order 0 trades ->
  exists self',
    BulkTickBarBuilder_receive extract_price extract_volume quote_ts_event self
      (a_trade <$> trades) = Returned self' /\
    callback self' = [bars self'] /\
    Z.of_nat (length (bars self')) = (Z.of_nat (length trades) / step (spec bar_type))%Z /\
    count (_builder (aggregator self'))
      = (Z.of_nat (length trades) mod step (spec bar_type))%Z /\
    Forall bar_ordered (bars self').
Proof.
  intros Hnew Hstep Hlast Horder. unfold BulkTickBarBuilder_new in Hnew.
  destruct (BarAggregator_new instrument bar_type) as [e | agg] eqn:Hagg; [discriminate |].
  injection Hnew as <-.
  pose proof (tick_reachable_inv agg (tick_reachable_new _ _ _ Hstep Hagg)) as Hinv.
  destruct (BarAggregator_new_inv _ _ _ Hagg) as (Htype & Hh & _ & Hc & _ & Hts).
  rewrite <- Hts in Horder.
  destruct (tick_run trades agg Hinv Horder)
    as (agg' & sent & Hrun & Hh' & Hlen & Hcount & Hinv' & _).
  unfold BulkTickBarBuilder_receive. simpl. rewrite Htype, Hlast, Hrun.
  eexists. split; [reflexivity |]. unfold bars. simpl.
  rewrite Hc, Htype, Z.add_0_l in Hlen, Hcount. rewrite Hh in Hh'. simpl in Hh'.
  rewrite Hh'. split_and!; auto.
  destruct Hinv' as (_ & _ & _ & Hall). now rewrite Hh' in Hall.
Qed.

End bulk_spec.

Lemma bulk_tick_builder_witness :
  exists self self',
    BulkTickBarBuilder_new ETHUSD tick_3 = inr self /\
    BulkTickBarBuilder_receive (QuoteTick := Empty_set)
      (fun _ _ => inl TypeError) (fun _ _ => inl TypeError) (fun _ => 0%Z) self
      (a_trade <$> seven_trades) = Returned self' /\
    callback self' = [bars self'] /\
    Z.of_nat (length (bars self')) = 2%Z /\
    count (_builder (aggregator self')) = 1%Z /\
    Forall bar_ordered (bars self').
Proof.
  destruct (BulkTickBarBuilder_new ETHUSD tick_3) as [e | self] eqn:Hnew;
    [vm_compute in Hnew; discriminate |].
  exists self.
  destruct (bulk_tick_builder_sends_every_step_trades (QuoteTick := Empty_set)
              (fun _ _ => inl TypeError) (fun _ _ => inl TypeError) (fun _ => 0%Z)
              ETHUSD tick_3 self seven_trades Hnew)
    as (self' & Hrun & Hcall & Hlen & Hcount & Hord); [reflexivity | reflexivity | |].
  { vm_compute. intuition discriminate. }
  exists self'. split; [reflexivity |]. split; [exact Hrun |]. split; [exact Hcall |].
  split; [exact Hlen |]. split; [exact Hcount | exact Hord].
Defined.

(** ** Fuel that suffices for a loop that takes a step off each round *)

Lemma fuel_for_steps (x stepq : Q) :
  0 < stepq ->
  x < inject_Z (Z.of_nat (S (Z.to_nat (Qfloor (x / stepq))))) * stepq.
Proof.
  intros Hstep. set (y := x / stepq).
  assert (x == y * stepq) as Hx by (unfold y; field; lra).
  destruct (Qlt_le_dec x 0) as [Hneg | Hpos].
  - assert (Qfloor y <= 0)%Z as Hfloor.
    { change 0%Z with (Qfloor 0). apply Qfloor_resp_le. unfold y.
      apply Qle_shift_div_r; [assumption | lra]. }
    replace (Z.to_nat (Qfloor y)) with 0%nat by lia.
    change (inject_Z (Z.of_nat 1)) with 1. lra.
  - assert (0 <= y) as Hy by (unfold y; apply Qle_shift_div_l; [assumption | lra]).
    assert (0 <= Qfloor y)%Z as Hfloor.
    { change 0%Z with (Qfloor 0). now apply Qfloor_resp_le. }
    rewrite Nat2Z.inj_succ, Z2Nat.id, <- Z.add_1_r by assumption.
    rewrite Hx. apply Qmult_lt_compat_r; [assumption | apply Qlt_floor].
Qed.


(** ** Volume bars: any update *)

(** The loop ends, whatever the time of the update. *)
Lemma volume_loop_terminates price (precision : nat) (ts : Z) (k : nat) :
  forall agg (size_update : Q) (fuel : nat),
    (k < fuel)%nat ->
    volume_inv agg ->
    0 <= size_update ->
    volume (_builder agg) + size_update < inject_Z (Z.of_nat (S k)) * step_of agg ->
    exists o, VolumeBarAggregator_loop fuel agg price precision size_update ts = Some o.
Proof.
  induction k as [| k IH]; intros agg size_update fuel Hfuel [Hwf Hlt] Hsize Hbound;
    (destruct fuel as [| fuel]; [lia |]); cbn [VolumeBarAggregator_loop];
    (destruct (dec_lt 0 size_update) eqn:Hpos; [| eauto]);
    (destruct (dec_lt (volume (_builder agg) + size_update) (step_of agg)) eqn:Hbelow;
     [destruct (Quantity.new size_update precision); eauto |]);
    apply dec_lt_false in Hbelow.
  - change (inject_Z (Z.of_nat 1)) with 1 in Hbound. lra.
  - assert (0 <= volume (_builder agg)) as Hvol by apply Hwf.
    rewrite Quantity_new_nonneg by lra. unfold builder_update.
    destruct (update_returns (_builder agg) price
                (Quantity.make (step_of agg - volume (_builder agg)) precision) ts Hwf)
      as (b1 & -> & Hwf1 & _); [simpl; lra |].
    unfold _build_now_and_send, build_now.
    change (_builder (set__builder b1 agg)) with b1.
    destruct (build_wf b1 (ts_last b1) Hwf1) as (Hwf2 & _ & Hbuilt).
    destruct (build b1 (ts_last b1)) as [[e | bar] b2]; [eauto |].
    simpl in Hwf2, Hbuilt. destruct Hbuilt as [[_ Hv2] | [[=] _]].
    assert (dec_le 0 (size_update - (step_of agg - volume (_builder agg))) = true) as ->
      by (apply Qle_bool_iff; lra).
    apply IH; [lia | split; simpl; [assumption | rewrite Hv2; lra] | lra |].
    simpl. rewrite Hv2.
    rewrite Nat2Z.inj_succ, <- Z.add_1_r, inject_Z_plus in Hbound.
    change (inject_Z 1) with 1 in Hbound. lra.
Qed.

(** The bars the loop sends are within the step. *)
Lemma volume_loop_bars price (precision : nat) (ts : Z) (fuel : nat) :
  forall agg (size_update : Q) o,
    volume_inv agg ->
    VolumeBarAggregator_loop fuel agg price precision size_update ts = Some o ->
    exists sent,
      handled (state_of o) = handled agg ++ sent /\
      Forall (within_step (step_of agg)) sent.
Proof.
  induction fuel as [| fuel IH]; intros agg size_update o [Hwf Hlt] Hrun; [discriminate |].
  assert (forall agg' : BarAggregator,
             handled agg' = handled agg ->
             exists sent, handled agg' = handled agg ++ sent /\
                          Forall (within_step (step_of agg)) sent) as Hnone.
  { intros agg' Hh. exists []. rewrite app_nil_r. split; [exact Hh | constructor]. }
  cbn [VolumeBarAggregator_loop] in Hrun.
  assert (0 <= volume (_builder agg)) as Hvol by apply Hwf.
  destruct (dec_lt 0 size_update) eqn:Hpos; [| injection Hrun as <-; now apply Hnone].
  apply dec_lt_true in Hpos.
  destruct (dec_lt (volume (_builder agg) + size_update) (step_of agg)) eqn:Hbelow.
  - apply dec_lt_true in Hbelow. rewrite Quantity_new_nonneg in Hrun by lra.
    injection Hrun as <-. unfold builder_update.
    destruct (update _ _ _ _); simpl; now apply Hnone.
  - apply dec_lt_false in Hbelow. rewrite Quantity_new_nonneg in Hrun by lra.
    unfold builder_update in Hrun.
    destruct (update_returns (_builder agg) price
                (Quantity.make (step_of agg - volume (_builder agg)) precision) ts Hwf)
      as (b1 & Hupd & Hwf1 & _ & _ & Hcase & _); [simpl; lra |].
    rewrite Hupd in Hrun. unfold _build_now_and_send, build_now in Hrun.
    change (_builder (set__builder b1 agg)) with b1 in Hrun.
    destruct (build_wf b1 (ts_last b1) Hwf1) as (Hwf2 & _ & Hbuilt).
    destruct (build b1 (ts_last b1)) as [[e | bar] b2] eqn:Hbuild; simpl in Hwf2, Hbuilt.
    + injection Hrun as <-. now apply Hnone.
    + destruct Hbuilt as [[_ Hv2] | [[=] _]].
      assert (within_step (step_of agg) bar) as Hbar.
      { assert (is_Some (_open b1)) as Hopen.
        { destruct (_open b1) eqn:Ho; [eauto |].
          destruct (build_without_price b1 (ts_last b1) Hwf1 Ho) as (? & Hno & _).
          congruence. }
        destruct (build_well_formed b1 (ts_last b1) Hwf1 Hopen) as (bar' & b' & Hok & Hbv & _).
        rewrite Hbuild in Hok. injection Hok as <- <-.
        unfold within_step. rewrite Hbv. simpl.
        destruct Hcase as [-> | [_ ->]]; simpl; lra. }
      destruct (dec_le 0 (size_update - (step_of agg - volume (_builder agg)))).
      * apply IH in Hrun; [| split; simpl; [assumption | rewrite Hv2; lra]].
        destruct Hrun as (sent & Hh & Hall). simpl in Hh, Hall.
        exists (bar :: sent). rewrite Hh, <- app_assoc. split; [reflexivity |].
        constructor; assumption.
      * injection Hrun as <-. simpl. exists [bar]. split; [reflexivity |].
        constructor; [assumption | constructor].
Qed.

Lemma volume_reachable_bars agg :
  volume_reachable agg -> Forall (within_step (step_of agg)) (handled agg).
Proof.
  induction 1 as [instrument bar_type agg Hstep Hnew
                 | agg price size ts fuel o agg' Hreach IH Hsize Hrun <-].
  - destruct (BarAggregator_new_inv _ _ _ Hnew) as (_ & -> & _). constructor.
  - pose proof (volume_reachable_inv agg Hreach) as Hinv.
    destruct (volume_loop_inv _ _ _ _ _ _ _ Hinv Hrun) as [_ Htype].
    destruct (volume_loop_bars _ _ _ _ _ _ _ Hinv Hrun) as (sent & -> & Hall).
    rewrite Htype. apply Forall_app. split; assumption.
Qed.

(** X21.  The loop of a volume aggregator ends on every update.  For a
    volume aggregator that exists (its step being positive) and an update of
    any price and time, older than the last one taken or not, with a size
    that is not negative, [_apply_update] returns or raises once the loop has
    had fuel enough, and it leaves the volume of the builder not negative and
    short of the step. *)
Theorem volume_update_terminates agg price size (ts : Z) :
  volume_reachable agg ->
  0 <= Quantity.as_decimal size ->
  exists (enough : nat) o,
    (forall fuel,
        (enough <= fuel)%nat ->
        VolumeBarAggregator_apply_update fuel agg price size ts = Some o) /\
    0 <= volume (_builder (state_of o)) < step_of agg /\
    bar_type (state_of o) = bar_type agg.
Proof.
  intros Hreach Hsize. pose proof (volume_reachable_inv agg Hreach) as Hinv.
  assert (0 <= volume (_builder agg)) as Hvol by apply Hinv.
  assert (0 < step_of agg) as Hstep by (destruct Hinv; lra).
  set (k := Z.to_nat (Qfloor ((volume (_builder agg) + Quantity.as_decimal size)
                              / step_of agg))).
  pose proof (fuel_for_steps (volume (_builder agg) + Quantity.as_decimal size) _ Hstep)
    as Hbound. fold k in Hbound.
  destruct (volume_loop_terminates price (Quantity.precision size) ts k agg
              (Quantity.as_decimal size) (S k)) as [o Hrun]; [lia | assumption .. |].
  exists (S k), o. split.
  - intros fuel Hfuel. unfold VolumeBarAggregator_apply_update.
    exact (volume_loop_fuel_mono _ _ _ _ _ _ _ _ Hrun Hfuel).
  - destruct (volume_loop_inv _ _ _ _ _ _ _ Hinv Hrun) as [[Hwf Hlt] Htype].
    rewrite Htype in Hlt. split; [| exact Htype]. split; [apply Hwf | exact Hlt].
Qed.

Lemma volume_update_terminates_witness :
  exists (enough : nat) o,
    (forall fuel,
        (enough <= fuel)%nat ->
        VolumeBarAggregator_apply_update fuel volume_agg_60 (Price.new 1.1 1)
          (Quantity.make 80 0) 5 = Some o) /\
    0 <= volume (_builder (state_of o)) < step_of volume_agg_60 /\
    bar_type (state_of o) = bar_type volume_agg_60.
Proof.
  apply (volume_update_terminates volume_agg_60 (Price.new 1.1 1) (Quantity.make 80 0) 5
           volume_agg_60_reachable).
  vm_compute. discriminate.
Defined.

(** X22.  No bar of a volume aggregator is over the step.  Every bar a
    volume aggregator that exists has sent, through updates in or out of the
    order of time, has a volume that is not negative and not above the
    step. *)
Theorem volume_bars_within_step agg :
  volume_reachable agg ->
  Forall (within_step (step_of agg)) (handled agg).
Proof. exact (volume_reachable_bars agg). Qed.

Lemma volume_agg_late_reachable : volume_reachable volume_agg_late.
Proof.
  apply (volume_reachable_update volume_agg_60 (Price.new 1.1 1) (Quantity.make 80 0) 5 2
           (Returned volume_agg_late) volume_agg_late volume_agg_60_reachable);
    [vm_compute; discriminate | vm_compute; reflexivity | reflexivity].
Qed.

Lemma volume_bars_within_step_witness :
  Forall (within_step (step_of volume_agg_late)) (handled volume_agg_late).
Proof. apply (volume_bars_within_step volume_agg_late). exact volume_agg_late_reachable. Defined.

(** ** The bulk time bar updater *)

Section bulk_time_spec.

Context {QuoteTick Timer : Type}.
Variable extract_price : QuoteTick -> PriceType -> exn + Price.t.
Variable extract_volume : QuoteTick -> PriceType -> exn + Quantity.t.
Variable quote_ts_event : QuoteTick -> Z.
Variable pop_next_event : Timer -> TimeEvent * Timer.
Variable next_time_ns : Timer -> Z.

Lemma BulkTimeBarUpdater_loop_filter
    (handle : @TimeBarAggregator Timer -> Tick -> outcome (@TimeBarAggregator Timer))
    (start : Z) (ticks : list (@Tick QuoteTick)) :
  forall aggregator,
    BulkTimeBarUpdater_loop quote_ts_event handle start aggregator ticks =
    BulkTimeBarUpdater_loop quote_ts_event handle start aggregator
      (filter (fun tick => (start <= Tick_ts_event quote_ts_event tick)%Z) ticks).
Proof.
  induction ticks as [| tick ticks IH]; intros aggregator; [reflexivity |].
  cbn [BulkTimeBarUpdater_loop].
  destruct (Tick_ts_event quote_ts_event tick <? start)%Z eqn:Hts.
  - apply Z.ltb_lt in Hts. rewrite filter_cons_False by lia. apply IH.
  - pose proof Hts as Hts'. apply Z.ltb_ge in Hts'. rewrite filter_cons_True by lia.
    cbn [BulkTimeBarUpdater_loop]. rewrite Hts.
    destruct (handle aggregator tick); [apply IH | reflexivity].
Qed.

(** X23.  The bulk updater of a time aggregator leaves out the ticks from
    before the bar.  [receive] does with a list of ticks what it does with
    those of them that are not older than the start of the current bar, the
    next close less the interval; given only older ticks it returns and
    leaves the aggregator as it is. *)
Theorem bulk_time_updater_skips_old_ticks :
  (forall (self : @BulkTimeBarUpdater Timer) (ticks : list (@Tick QuoteTick)),
      BulkTimeBarUpdater_receive extract_price extract_volume quote_ts_event
        pop_next_event next_time_ns self ticks =
      BulkTimeBarUpdater_receive extract_price extract_volume quote_ts_event
        pop_next_event next_time_ns self
        (filter (fun tick => (start_time_ns self <= Tick_ts_event quote_ts_event tick)%Z)
                ticks)) /\
  (forall (aggregator : @TimeBarAggregator Timer) (ticks : list (@Tick QuoteTick)),
      Forall (fun tick =>
                (Tick_ts_event quote_ts_event tick
                 < next_close_ns aggregator - interval_ns aggregator)%Z) ticks ->
      BulkTimeBarUpdater_receive extract_price extract_volume quote_ts_event
        pop_next_event next_time_ns (BulkTimeBarUpdater_new aggregator) ticks
      = Returned (BulkTimeBarUpdater_new aggregator)).
Proof.
  split.
  - intros self ticks. unfold BulkTimeBarUpdater_receive.
    now rewrite <- BulkTimeBarUpdater_loop_filter.
  - intros aggregator ticks Hold. unfold BulkTimeBarUpdater_receive.
    rewrite BulkTimeBarUpdater_loop_filter.
    replace (filter _ ticks) with (@nil (@Tick QuoteTick)); [reflexivity |].
    symmetry. simpl. induction Hold as [| tick ticks Htick _ IH]; [reflexivity |].
    rewrite filter_cons_False by lia. exact IH.
Qed.

End bulk_time_spec.

Lemma bulk_time_updater_skips_old_ticks_witness :
  BulkTimeBarUpdater_receive (QuoteTick := Empty_set)
    (fun _ _ => inl TypeError) (fun _ _ => inl TypeError) (fun _ => 0%Z)
    TestTimer_pop_next_event next (BulkTimeBarUpdater_new (time_agg 60))
    [a_trade (mkTradeTick (Price.new 1.0 1) (Quantity.make 5 0) (-5))]
  = Returned (BulkTimeBarUpdater_new (time_agg 60)).
Proof.
  apply (proj2 (bulk_time_updater_skips_old_ticks (QuoteTick := Empty_set)
                  (fun _ _ => inl TypeError) (fun _ _ => inl TypeError) (fun _ => 0%Z)
                  TestTimer_pop_next_event next)).
  constructor; [vm_compute; reflexivity | constructor].
Defined.

(** ** A partial bar on a time aggregator *)

(** X24.  A partial bar given to a time aggregator is sent at the next
    close.  On a time aggregator just constructed, [set_partial] followed by
    the event of the timer, no update coming in between, sends one bar: that
    of the bar type, with the open, high, low, close and volume of the
    partial bar and the time of the event; the flag to build on the next tick
    is left as it was. *)
Theorem partial_bar_is_sent_at_next_close {Timer : Type} (self : @TimeBarAggregator Timer)
    (instrument : Instrument.t) (bar_type : BarType) (partial_bar : Bar) (event : TimeEvent) :
  BarAggregator_new instrument bar_type = inr (base self) ->
  0 <= Quantity.as_decimal (bar_volume partial_bar) ->
  exists self',
    _build_event (TimeBarAggregator_set_partial self partial_bar) event = Returned self' /\
    handled (base self') =
      [ {| type := bar_type;
           open := open partial_bar; high := high partial_bar;
           low := low partial_bar; close := close partial_bar;
           bar_volume := Quantity.make (0 + Quantity.as_decimal (bar_volume partial_bar))
                           (Instrument.size_precision instrument);
           ts_event := event_ts event; ts_init := event_ts event |} ] /\
    _build_on_next_tick self' = _build_on_next_tick self /\
    volume (_builder (base self')) = 0 /\
    _close (_builder (base self')) = Some (close partial_bar).
Proof.
  intros Hnew Hvol. unfold BarAggregator_new, BarBuilder_new in Hnew.
  destruct (negb _); [discriminate |]. injection Hnew as Hbase.
  unfold _build_event, TimeBarAggregator_set_partial. rewrite <- Hbase.
  cbv beta iota zeta delta
    [set_partial _build_and_send build reset on_base
     set_initialized set_ts_last set_count set__partial_set set__last_close set__open
     set__high set__low set__close set_volume
     _bar_type price_precision size_precision initialized ts_last count _partial_set
     _last_close _open _high _low _close volume
     set__builder set_handled set_base base _builder handled aggregation.bar_type negb Z.eqb
     Quantity.new].
  assert (dec_lt (0 + Quantity.as_decimal (bar_volume partial_bar)) 0 = false) as ->
    by (apply dec_lt_false; lra).
  eexists. split; [reflexivity |]. simpl. split_and!; reflexivity.
Qed.

Lemma partial_bar_is_sent_at_next_close_witness :
  exists self',
    _build_event
      (TimeBarAggregator_set_partial (time_agg 60)
         (mkBar minute_1 (Price.new 1.0 1) (Price.new 1.2 1) (Price.new 0.9 1)
            (Price.new 1.1 1) (Quantity.make 12 0) 30 30))
      (mkTimeEvent 60) = Returned self' /\
    handled (base self') =
      [ mkBar minute_1 (Price.new 1.0 1) (Price.new 1.2 1) (Price.new 0.9 1)
          (Price.new 1.1 1) (Quantity.make (0 + 12) 0) 60 60 ] /\
    _build_on_next_tick self' = false.
Proof.
  destruct (partial_bar_is_sent_at_next_close (time_agg 60) ETHUSD minute_1
              (mkBar minute_1 (Price.new 1.0 1) (Price.new 1.2 1) (Price.new 0.9 1)
                 (Price.new 1.1 1) (Quantity.make 12 0) 30 30) (mkTimeEvent 60))
    as (self' & Hrun & Hh & Hflag & _).
  - vm_compute. reflexivity.
  - vm_compute. discriminate.
  - exists self'. split; [exact Hrun |]. split; [exact Hh | exact Hflag].
Defined.
End aggregation_spec.

(** ** Simulated L1 order book *)
Module simulated_spec.
Import simulated.

Implicit Types (self : SimulatedL1OrderBook) (tick : TradeTick).

Lemma _update_bid_spec self (price size : Q) :
  book_wf self ->
  exists self' bid,
    _update_bid self price size = Returned self' /\
    _top_bid self' = Some bid /\
    simulated.price bid = price /\
    simulated.size bid = size /\
    _top_ask self' = _top_ask self /\
    _top_ask_level self' = _top_ask_level self /\
    book_wf self'.
Proof.
  intros [Hbid Hask]. unfold _update_bid, side_wf in *.
  destruct (_top_bid self) as [bid |], (_top_bid_level self) as [level |];
    try contradiction;
    (do 2 eexists; split; [reflexivity |]; unfold book_wf; simpl; split_and!; auto).
Qed.

Lemma _update_ask_spec self (price size : Q) :
  book_wf self ->
  exists self' ask,
    _update_ask self price size = Returned self' /\
    _top_ask self' = Some ask /\
    simulated.price ask = price /\
    simulated.size ask = size /\
    _top_bid self' = _top_bid self /\
    _top_bid_level self' = _top_bid_level self /\
    book_wf self'.
Proof.
  intros [Hbid Hask]. unfold _update_ask, side_wf in *.
  destruct (_top_ask self) as [ask |], (_top_ask_level self) as [level |];
    try contradiction;
    (do 2 eexists; split; [reflexivity |]; unfold book_wf; simpl; split_and!; auto).
Qed.

Lemma _update_trade_tick_wf self tick :
  book_wf self -> book_wf (state_of (_update_trade_tick self tick)).
Proof.
  intros Hwf. unfold _update_trade_tick.
  destruct (aggressor_side tick); [assumption | |].
  - destruct (_update_ask_spec self (Price.as_decimal (trade_price tick))
                (Quantity.as_decimal (trade_size tick)) Hwf)
      as (self1 & ask & -> & Hask & _ & _ & _ & _ & Hwf1).
    rewrite Hask. pose proof Hwf1 as [Hb Ha]. unfold side_wf in Hb, Ha. rewrite Hask in Ha.
    destruct (_top_bid self1) as [bid |] eqn:Ebid; [| exact Hwf1].
    destruct (_top_bid_level self1) as [level |] eqn:Elevel; [| contradiction].
    destruct (dec_le (price ask) (price bid)); [| exact Hwf1].
    unfold book_wf, side_wf. simpl. split; [reflexivity | exact Ha].
  - destruct (_update_bid_spec self (Price.as_decimal (trade_price tick))
                (Quantity.as_decimal (trade_size tick)) Hwf)
      as (self1 & bid & -> & Hbid & _ & _ & _ & _ & Hwf1).
    rewrite Hbid. pose proof Hwf1 as [Hb Ha]. unfold side_wf in Hb, Ha. rewrite Hbid in Hb.
    destruct (_top_ask self1) as [ask |] eqn:Eask; [| exact Hwf1].
    destruct (_top_ask_level self1) as [level |] eqn:Elevel; [| contradiction].
    destruct (dec_le (price ask) (price bid)); [| exact Hwf1].
    unfold book_wf, side_wf. simpl. split; [exact Hb | reflexivity].
Qed.

Lemma book_reachable_wf self : book_reachable self -> book_wf self.
Proof.
  induction 1 as [| self tick self' _ IH <-]; [now split |].
  destruct tick as [tick | tick]; simpl; [| now apply _update_trade_tick_wf].
  unfold _update_quote_tick.
  destruct (_update_bid_spec self (Price.as_decimal (bid tick))
              (Quantity.as_decimal (bid_size tick)) IH)
    as (self1 & o & -> & _ & _ & _ & _ & _ & Hwf1).
  destruct (_update_ask_spec self1 (Price.as_decimal (ask tick))
              (Quantity.as_decimal (ask_size tick)) Hwf1)
    as (self2 & o' & -> & _ & _ & _ & _ & _ & Hwf2).
  exact Hwf2.
Qed.

(** C3, as the code has it.  A trade tick is taken by the book without an
    exception, and:
    - with a SELL aggressor the bid is the trade, in price and in size; an ask
      there was keeps its size, and its price unless it is at or below the
      trade price, in which case it becomes the trade price;
    - with a BUY aggressor the ask is the trade; a bid there was keeps its
      size, and its price unless it is at or above the trade price, in which
      case it becomes the trade price;
    - with any other aggressor the book is left as it was.
    So the side not touched is never left beyond the side touched
    ([bid <= ask]); where the prices were crossed or met they are now equal,
    which the test [bid >= ask] still calls crossed.  From [1.00 / 1.01], a BUY
    at 1.02 leaves the ask at 1.02 and the bid at 1.00. *)
Theorem l1_trade_tick_update :
  (forall self tick,
      book_reachable self ->
      let px := Price.as_decimal (trade_price tick) in
      let qty := Quantity.as_decimal (trade_size tick) in
      exists self',
        _update_trade_tick self tick = Returned self' /\
        match aggressor_side tick with
        | AggressorSide.SELL =>
            (exists bid, _top_bid self' = Some bid /\ price bid = px /\ size bid = qty) /\
            match _top_ask self with
            | None => _top_ask self' = None
            | Some ask =>
                exists ask',
                  _top_ask self' = Some ask' /\
                  size ask' = size ask /\
                  price ask' = ask_after_sell px ask /\
                  (price ask <= px -> price ask' = px) /\
                  (px < price ask -> price ask' = price ask) /\
                  px <= price ask'
            end
        | AggressorSide.BUY =>
            (exists ask, _top_ask self' = Some ask /\ price ask = px /\ size ask = qty) /\
            match _top_bid self with
            | None => _top_bid self' = None
            | Some bid =>
                exists bid',
                  _top_bid self' = Some bid' /\
                  size bid' = size bid /\
                  price bid' = bid_after_buy px bid /\
                  (px <= price bid -> price bid' = px) /\
                  (price bid < px -> price bid' = price bid) /\
                  price bid' <= px
            end
        | AggressorSide.UNKNOWN => self' = self
        end) /\
  (exists self' bid ask,
      _update_trade_tick quoted_book buy_at_102 = Returned self' /\
      _top_bid self' = Some bid /\ _top_ask self' = Some ask /\
      price bid = 1.00 /\ price ask = 1.02 /\ size ask = 1 /\ size bid = 10 /\
      price bid < price ask).
Proof.
  split.
  - intros self tick Hself px qty. pose proof (book_reachable_wf self Hself) as Hwf.
    unfold _update_trade_tick.
    destruct (aggressor_side tick).
    + exists self. auto.
    + (* BUY: the ask is touched *)
      destruct (_update_ask_spec self px qty Hwf)
        as (self1 & ask & Hupd & Hask & Hpx & Hqty & Hbid & Hlevel & Hwf1).
      fold px qty. rewrite Hupd, Hbid, Hask.
      destruct (_top_bid self) as [bid |] eqn:Hb.
      * destruct Hwf as [Hside _]. rewrite Hb in Hside. unfold side_wf in Hside.
        rewrite Hlevel. destruct (_top_bid_level self) as [level |]; [| contradiction].
        unfold bid_after_buy. rewrite Hpx.
        destruct (dec_le px (price bid)) eqn:Hcross.
        -- apply Qle_bool_iff in Hcross.
           eexists. split; [reflexivity |]. simpl.
           split; [eauto |].
           eexists. split; [reflexivity |]. simpl. split_and!; auto; try lra.
        -- assert (price bid < px) as Hlt.
           { apply Qnot_le_lt. intros Hle. apply Qle_bool_iff in Hle.
             unfold dec_le in Hcross. congruence. }
           exists self1. split; [reflexivity |].
           split; [eauto |]. rewrite Hbid.
           exists bid. split_and!; auto; try lra.
      * exists self1. split; [reflexivity |].
        split; [eauto | assumption].
    + (* SELL: the bid is touched *)
      destruct (_update_bid_spec self px qty Hwf)
        as (self1 & bid & Hupd & Hbid & Hpx & Hqty & Hask & Hlevel & Hwf1).
      fold px qty. rewrite Hupd, Hask, Hbid.
      destruct (_top_ask self) as [ask |] eqn:Ha.
      * destruct Hwf as [_ Hside]. rewrite Ha in Hside. unfold side_wf in Hside.
        rewrite Hlevel. destruct (_top_ask_level self) as [level |]; [| contradiction].
        unfold ask_after_sell. rewrite Hpx.
        destruct (dec_le (price ask) px) eqn:Hcross.
        -- apply Qle_bool_iff in Hcross.
           eexists. split; [reflexivity |]. simpl.
           split; [eauto |].
           eexists. split; [reflexivity |]. simpl. split_and!; auto; try lra.
        -- assert (px < price ask) as Hlt.
           { apply Qnot_le_lt. intros Hle. apply Qle_bool_iff in Hle.
             unfold dec_le in Hcross. congruence. }
           exists self1. split; [reflexivity |].
           split; [eauto |]. rewrite Hask.
           exists ask. split_and!; auto; try lra.
      * exists self1. split; [reflexivity |].
        split; [eauto | assumption].
  - do 3 eexists. split; [vm_compute; reflexivity |].
    split_and!; try reflexivity.
Qed.

(** From [1.00 / 1.01], a SELL at 1.02: the bid becomes 1.02 and so does the
    ask; the two prices are equal, and [bid >= ask], the test for a crossed
    book, holds after the update as it did before the ask was moved. *)
Lemma l1_crossed_book_is_left_locked :
  exists self' bid ask,
    _update_trade_tick quoted_book sell_at_102 = Returned self' /\
    _top_bid self' = Some bid /\ _top_ask self' = Some ask /\
    price bid = 1.02 /\ price ask = 1.02 /\
    price ask <= price bid /\
    ~ price bid < price ask.
Proof.
  do 3 eexists. split; [vm_compute; reflexivity |].
  split_and!; try reflexivity; vm_compute; discriminate.
Qed.

Lemma quoted_book_reachable : book_reachable quoted_book.
Proof.
  exact (book_reachable_tick empty_book (a_quote quote_100_101) _ book_reachable_empty eq_refl).
Qed.

Lemma l1_trade_tick_update_witness :
  exists self',
    _update_trade_tick quoted_book sell_at_102 = Returned self' /\
    (exists bid, _top_bid self' = Some bid /\ price bid = 1.02 /\ size bid = 1) /\
    (exists ask, _top_ask self' = Some ask /\ size ask = 10 /\ price ask = 1.02).
Proof.
  destruct (proj1 l1_trade_tick_update quoted_book sell_at_102 quoted_book_reachable)
    as (self' & Hrun & Hbid & ask' & Hask & Hsize & _ & Hprice & _).
  exists self'. split_and!; auto.
  exists ask'. split_and!; auto. apply Hprice. vm_compute. discriminate.
Defined.


(** ** The book over its life *)

Lemma _update_bid_marked self (price size : Q) :
  sides_marked self ->
  sides_marked (state_of (_update_bid self price size)) /\
  (is_Some (_top_ask self) ->
   is_Some (_top_ask (state_of (_update_bid self price size)))) /\
  (is_Some (_top_bid self) ->
   is_Some (_top_bid (state_of (_update_bid self price size)))).
Proof.
  intros [Hbid Hask]. unfold _update_bid, sides_marked.
  destruct (_top_bid self) as [bid |] eqn:Ebid; [destruct (_top_bid_level self) |]; simpl;
    rewrite ?Ebid; (split_and!; [| exact Hask | auto | eauto]).
  - intros bid' [= <-]. simpl. now apply Hbid.
  - exact Hbid.
  - intros bid' [= <-]. simpl. auto.
Qed.

Lemma _update_ask_marked self (price size : Q) :
  sides_marked self ->
  sides_marked (state_of (_update_ask self price size)) /\
  (is_Some (_top_ask self) ->
   is_Some (_top_ask (state_of (_update_ask self price size)))) /\
  (is_Some (_top_bid self) ->
   is_Some (_top_bid (state_of (_update_ask self price size)))).
Proof.
  intros [Hbid Hask]. unfold _update_ask, sides_marked.
  destruct (_top_ask self) as [ask |] eqn:Eask; [destruct (_top_ask_level self) |]; simpl;
    rewrite ?Eask; (split_and!; [exact Hbid | | eauto | auto]).
  - intros ask' [= <-]. simpl. now apply Hask.
  - exact Hask.
  - intros ask' [= <-]. simpl. auto.
Qed.

Lemma update_tick_returns self (tick : Tick) :
  book_wf self ->
  exists self', update_tick self tick = Returned self' /\ book_wf self'.
Proof.
  intros Hwf. destruct tick as [tick | tick]; simpl.
  - unfold _update_quote_tick.
    destruct (_update_bid_spec self (Price.as_decimal (bid tick))
                (Quantity.as_decimal (bid_size tick)) Hwf)
      as (self1 & ? & -> & _ & _ & _ & _ & _ & Hwf1).
    destruct (_update_ask_spec self1 (Price.as_decimal (ask tick))
                (Quantity.as_decimal (ask_size tick)) Hwf1)
      as (self2 & ? & -> & _ & _ & _ & _ & _ & Hwf2).
    eauto.
  - pose proof (_update_trade_tick_wf self tick Hwf) as Hwf'.
    unfold _update_trade_tick in *.
    destruct (aggressor_side tick); [eauto | |].
    + destruct (_update_ask_spec self (Price.as_decimal (trade_price tick))
                  (Quantity.as_decimal (trade_size tick)) Hwf)
        as (self1 & ask & Hupd & Hask & _ & _ & _ & _ & Hwf1).
      rewrite Hupd in *. rewrite Hask in *.
      pose proof Hwf1 as [Hb _]. unfold side_wf in Hb.
      destruct (_top_bid self1) as [bid |]; [| eauto].
      destruct (_top_bid_level self1); [| contradiction].
      destruct (dec_le _ _); eauto.
    + destruct (_update_bid_spec self (Price.as_decimal (trade_price tick))
                  (Quantity.as_decimal (trade_size tick)) Hwf)
        as (self1 & bid & Hupd & Hbid & _ & _ & _ & _ & Hwf1).
      rewrite Hupd in *. rewrite Hbid in *.
      pose proof Hwf1 as [_ Ha]. unfold side_wf in Ha.
      destruct (_top_ask self1) as [ask |]; [| eauto].
      destruct (_top_ask_level self1); [| contradiction].
      destruct (dec_le _ _); eauto.
Qed.

Lemma update_tick_marked self (tick : Tick) :
  sides_marked self ->
  sides_marked (state_of (update_tick self tick)) /\
  (is_Some (_top_bid self) -> is_Some (_top_bid (state_of (update_tick self tick)))) /\
  (is_Some (_top_ask self) -> is_Some (_top_ask (state_of (update_tick self tick)))).
Proof.
  intros Hm. destruct tick as [tick | tick]; simpl.
  - unfold _update_quote_tick.
    destruct (_update_bid_marked self (Price.as_decimal (bid tick))
                (Quantity.as_decimal (bid_size tick)) Hm) as (Hm1 & Ha1 & Hb1).
    destruct (_update_bid self _ _) as [self1 | e self1]; simpl in *; [| auto].
    destruct (_update_ask_marked self1 (Price.as_decimal (ask tick))
                (Quantity.as_decimal (ask_size tick)) Hm1) as (Hm2 & Ha2 & Hb2).
    auto.
  - unfold _update_trade_tick. destruct (aggressor_side tick); simpl; [auto | |].
    + destruct (_update_ask_marked self (Price.as_decimal (trade_price tick))
                  (Quantity.as_decimal (trade_size tick)) Hm) as (Hm1 & Ha1 & Hb1).
      destruct (_update_ask self _ _) as [self1 | e self1]; simpl in *; [| auto].
      destruct (_top_bid self1) as [bid1 |] eqn:Ebid;
        destruct (_top_ask self1) as [ask1 |] eqn:Eask;
        try destruct (dec_le _ _); try destruct (_top_bid_level self1);
        simpl; rewrite ?Ebid, ?Eask; marked_done.
    + destruct (_update_bid_marked self (Price.as_decimal (trade_price tick))
                  (Quantity.as_decimal (trade_size tick)) Hm) as (Hm1 & Ha1 & Hb1).
      destruct (_update_bid self _ _) as [self1 | e self1]; simpl in *; [| auto].
      destruct (_top_ask self1) as [ask1 |] eqn:Eask;
        destruct (_top_bid self1) as [bid1 |] eqn:Ebid;
        try destruct (dec_le _ _); try destruct (_top_ask_level self1);
        simpl; rewrite ?Ebid, ?Eask; marked_done.
Qed.

Lemma book_reachable_marked self : book_reachable self -> sides_marked self.
Proof.
  induction 1 as [| self tick self' _ IH <-].
  - split; intros ? [=].
  - now apply update_tick_marked.
Qed.

(** X25.  [update_tick] does not raise on a book that exists.  For a book
    built from the empty one by any ticks, [update_tick] returns for every
    tick, quote or trade; the order of a side and its level are there
    together, at one price; and a side that has an order keeps one. *)
Theorem update_tick_never_raises self (tick : Tick) :
  book_reachable self ->
  exists self',
    update_tick self tick = Returned self' /\
    book_wf self' /\
    (is_Some (_top_bid self) -> is_Some (_top_bid self')) /\
    (is_Some (_top_ask self) -> is_Some (_top_ask self')).
Proof.
  intros Hreach.
  destruct (update_tick_returns self tick (book_reachable_wf self Hreach))
    as (self' & Hupd & Hwf).
  destruct (update_tick_marked self tick (book_reachable_marked self Hreach))
    as (_ & Hbid & Hask).
  rewrite Hupd in Hbid, Hask. exists self'. auto.
Qed.

Lemma update_tick_never_raises_witness :
  exists self',
    update_tick quoted_book (a_trade sell_at_102) = Returned self' /\
    book_wf self' /\
    is_Some (_top_bid self') /\ is_Some (_top_ask self').
Proof.
  destruct (update_tick_never_raises quoted_book (a_trade sell_at_102) quoted_book_reachable)
    as (self' & Hupd & Hwf & Hbid & Hask).
  exists self'. split; [exact Hupd |]. split; [exact Hwf |].
  split; [apply Hbid | apply Hask]; vm_compute; eauto.
Defined.

(** X26.  A quote tick sets both sides.  On a book that exists,
    [_update_quote_tick] returns, and the book then has on the bid side an
    order with the bid price and size of the tick and on the ask side one with
    its ask price and size, each with its level at that price, whatever the
    book held and whether or not the quote is crossed. *)
Theorem quote_tick_sets_both_sides self (tick : QuoteTick) :
  book_reachable self ->
  exists self' bid' ask',
    update_tick self (a_quote tick) = Returned self' /\
    _top_bid self' = Some bid' /\
    price bid' = Price.as_decimal (bid tick) /\
    size bid' = Quantity.as_decimal (bid_size tick) /\
    _top_bid_level self' = Some (mkLevel (Price.as_decimal (bid tick))) /\
    _top_ask self' = Some ask' /\
    price ask' = Price.as_decimal (ask tick) /\
    size ask' = Quantity.as_decimal (ask_size tick) /\
    _top_ask_level self' = Some (mkLevel (Price.as_decimal (ask tick))).
Proof.
  intros Hreach. pose proof (book_reachable_wf self Hreach) as Hwf.
  simpl. unfold _update_quote_tick.
  destruct (_update_bid_spec self (Price.as_decimal (bid tick))
              (Quantity.as_decimal (bid_size tick)) Hwf)
    as (self1 & bid' & -> & Hbid & Hp & Hs & _ & _ & Hwf1).
  destruct (_update_ask_spec self1 (Price.as_decimal (ask tick))
              (Quantity.as_decimal (ask_size tick)) Hwf1)
    as (self2 & ask' & -> & Hask & Hp' & Hs' & Hbid' & Hlevel' & Hwf2).
  exists self2, bid', ask'. rewrite Hbid', Hlevel'.
  pose proof Hwf1 as [Hb1 _]. pose proof Hwf2 as [_ Ha2].
  unfold side_wf in Hb1, Ha2. rewrite Hbid in Hb1. rewrite Hask in Ha2.
  destruct (_top_bid_level self1) as [[lb] |]; [| contradiction].
  destruct (_top_ask_level self2) as [[la] |]; [| contradiction].
  simpl in Hb1, Ha2. subst lb la. rewrite Hp, Hp'. split_and!; auto.
Qed.

Lemma quote_tick_sets_both_sides_witness :
  exists self' bid' ask',
    update_tick quoted_book
      (a_quote (mkQuoteTick (Price.new 1.05 2) (Price.new 1.03 2)
                  (Quantity.make 3 0) (Quantity.make 4 0))) = Returned self' /\
    _top_bid self' = Some bid' /\ price bid' = 1.05 /\ size bid' = 3 /\
    _top_ask self' = Some ask' /\ price ask' = 1.03 /\ size ask' = 4.
Proof.
  destruct (quote_tick_sets_both_sides quoted_book
              (mkQuoteTick (Price.new 1.05 2) (Price.new 1.03 2)
                 (Quantity.make 3 0) (Quantity.make 4 0)) quoted_book_reachable)
    as (self' & bid' & ask' & Hupd & Hbid & Hp & Hs & _ & Hask & Hp' & Hs' & _).
  exists self', bid', ask'. split_and!; assumption.
Defined.

(** X27.  The orders of the book keep their side.  In a book that exists the
    order on the bid side is a BUY, as [_update_bid] built it, and the order
    on the ask side a SELL: an update, also the one that moves the other side
    to the price of a trade, changes prices and sizes only. *)
Theorem orders_keep_their_side self :
  book_reachable self ->
  (forall bid, _top_bid self = Some bid -> side bid = BUY) /\
  (forall ask, _top_ask self = Some ask -> side ask = SELL).
Proof. exact (book_reachable_marked self). Qed.

Lemma orders_keep_their_side_witness :
  (forall bid, _top_bid quoted_book = Some bid -> side bid = BUY) /\
  (forall ask, _top_ask quoted_book = Some ask -> side ask = SELL).
Proof. apply (orders_keep_their_side quoted_book). exact quoted_book_reachable. Defined.
End simulated_spec.

(** ** Stop-limit orders *)
Module stop_limit_spec.
Import stop_limit.

Implicit Types (self : StopLimitOrder).

Lemma is_triggered_after self (events : list handled_event) :
  is_triggered (foldl handle self events)
  = is_triggered self || existsb is_trigger events.
Proof.
  revert self. induction events as [| event events IH]; intros self; simpl.
  - now rewrite orb_false_r.
  - rewrite IH. destruct event as [event | event]; simpl.
    + unfold _updated. simpl. now destruct (is_triggered self).
    + now rewrite orb_true_r.
Qed.

(** C9.  [_updated] on a stop-limit order that has not been triggered sets
    the trigger price to the price of the event and leaves the limit price;
    on one that has been triggered it sets the limit price and leaves the
    trigger.  An order is triggered exactly when an [OrderTriggered] event
    is among those it has handled: it is built not triggered, [_triggered]
    sets the flag and [_updated] keeps it. *)
Theorem stop_limit_update_routing :
  (forall self event,
      is_triggered self = false ->
      trigger (_updated self event) = event_price event /\
      price (_updated self event) = price self) /\
  (forall self event,
      is_triggered self = true ->
      price (_updated self event) = event_price event /\
      trigger (_updated self event) = trigger self) /\
  (forall self event,
      venue_order_id (_updated self event) = event_venue_order_id event /\
      quantity (_updated self event) = event_quantity event /\
      is_triggered (_updated self event) = is_triggered self) /\
  (forall client_order_id order_side quantity price trigger time_in_force expire_time
          post_only display_qty self events,
      __init__ client_order_id order_side quantity price trigger time_in_force expire_time
               post_only display_qty
        = inr self ->
      is_triggered (foldl handle self events) = existsb is_trigger events).
Proof.
  split_and!.
  - intros self event Hnot. unfold _updated. simpl. rewrite Hnot. split; reflexivity.
  - intros self event Hyes. unfold _updated. simpl. rewrite Hyes. split; reflexivity.
  - intros self event. unfold _updated. simpl. destruct (is_triggered self); auto.
  - intros c s q p t tif ex po d self events Hinit. rewrite is_triggered_after.
    unfold __init__ in Hinit. destruct (negb _); [discriminate |].
    destruct (PassiveOrder___init__ q tif ex); [discriminate |].
    injection Hinit as <-. reflexivity.
Qed.

Lemma stop_limit_update_routing_witness :
  (trigger (_updated a_stop_limit an_update) = Price.new 102.5 2 /\
   price (_updated a_stop_limit an_update) = Price.new 101 2) /\
  (price (_updated (_triggered a_stop_limit (mkOrderTriggered 7)) an_update)
     = Price.new 102.5 2 /\
   trigger (_updated (_triggered a_stop_limit (mkOrderTriggered 7)) an_update)
     = Price.new 100 2).
Proof.
  destruct stop_limit_update_routing as (Hbefore & Hafter & _).
  split.
  - apply (Hbefore a_stop_limit an_update). reflexivity.
  - apply (Hafter (_triggered a_stop_limit (mkOrderTriggered 7)) an_update). reflexivity.
Defined.


(** ** The display quantity, and the prices over the life of an order *)



(** X29.  The prices of a stop-limit order over the events it handles.  Once
    the order is triggered no event changes its trigger price; as long as no
    [OrderTriggered] comes, no event changes its limit price; and no event
    ever changes the client order id, the side, the post-only flag or the
    display quantity. *)
Theorem prices_over_the_events self (events : list handled_event) :
  (is_triggered self = true -> trigger (foldl handle self events) = trigger self) /\
  (is_triggered self = false -> existsb is_trigger events = false ->
   price (foldl handle self events) = price self) /\
  client_order_id (foldl handle self events) = client_order_id self /\
  order_side (foldl handle self events) = order_side self /\
  is_post_only (foldl handle self events) = is_post_only self /\
  display_qty (foldl handle self events) = display_qty self.
Proof.
  revert self. induction events as [| event events IH]; intros self;
    [simpl; split_and!; auto |].
  cbn [foldl]. destruct (IH (handle self event)) as (Htrig & Hprice & -> & -> & -> & ->).
  split_and!.
  - intros Ht. rewrite Htrig.
    + destruct event as [event | event]; simpl; [| reflexivity].
      unfold _updated. rewrite Ht. reflexivity.
    + destruct event as [event | event]; simpl; [| reflexivity].
      unfold _updated. rewrite Ht. reflexivity.
  - intros Ht Hnone. simpl in Hnone. apply orb_false_iff in Hnone as [Hev Hnone].
    destruct event as [event | event]; [| discriminate].
    rewrite Hprice; [| simpl; unfold _updated; rewrite Ht; reflexivity | exact Hnone].
    simpl. unfold _updated. rewrite Ht. reflexivity.
  - destruct event as [event | event]; simpl; [| reflexivity].
    unfold _updated. destruct (is_triggered self); reflexivity.
  - destruct event as [event | event]; simpl; [| reflexivity].
    unfold _updated. destruct (is_triggered self); reflexivity.
  - destruct event as [event | event]; simpl; [| reflexivity].
    unfold _updated. destruct (is_triggered self); reflexivity.
  - destruct event as [event | event]; simpl; [| reflexivity].
    unfold _updated. destruct (is_triggered self); reflexivity.
Qed.

Lemma prices_over_the_events_witness :
  trigger (foldl handle (_triggered a_stop_limit (mkOrderTriggered 7))
             [Updated an_update; Triggered (mkOrderTriggered 8); Updated an_update])
  = Price.new 100 2 /\
  price (foldl handle a_stop_limit [Updated an_update; Updated an_update]) = Price.new 101 2.
Proof.
  split.
  - apply (proj1 (prices_over_the_events (_triggered a_stop_limit (mkOrderTriggered 7))
                    [Updated an_update; Triggered (mkOrderTriggered 8); Updated an_update])).
    reflexivity.
  - apply (proj1 (proj2 (prices_over_the_events a_stop_limit
                           [Updated an_update; Updated an_update]))); reflexivity.
Defined.
End stop_limit_spec.
